(** * VCLASS: the roster store and the card renderer of Main.cpp

    A shallow embedding of the [Model] and [View] classes of
    [src/Main.cpp] and the properties its specification states about
    them.

    Conventions of the embedding.
    - A [std::string] is the list of its bytes ([str]); a string literal
      of the source is the list of the bytes of its UTF-8 encoding, so
      each box-drawing glyph is three bytes, as in the source file.
    - [size_t] is 64 bits wide and [int] 32 bits wide (LP64).  Their
      values are kept in [Z]; every wrap-around of the source is written
      out with [to_size] and [to_int].
    - A C++ exception is the result [None]; output that was already
      written when the exception is raised is not kept.
    - [std::cout] is the byte string written so far. *)

From Stdlib Require Import ZArith Ascii String List Bool Lia PeanoNat.
Import ListNotations.

(** ** The C++ library operations the program uses *)

Module Cxx.

Definition str : Type := list ascii.

(** A string literal of the source. *)
Definition lit (s : string) : str := list_ascii_of_string s.

Definition byte (n : nat) : ascii := ascii_of_nat n.

Definition nl : ascii := byte 10.
Definition sp : ascii := byte 32.

Fixpoint str_eqb (a b : str) : bool :=
  match a, b with
  | [], [] => true
  | x :: a', y :: b' => Ascii.eqb x y && str_eqb a' b'
  | _, _ => false
  end.

Definition empty (s : str) : bool :=
  match s with [] => true | _ :: _ => false end.

(** The error monad of the embedding: [None] is a raised exception. *)
Definition bind {A B : Type} (m : option A) (k : A -> option B) : option B :=
  match m with
  | Some a => k a
  | None => None
  end.

Module Import Notations.

Notation "'do' x <- m ; k" := (bind m (fun x => k))
  (at level 10, x name, m at level 100, k at level 200,
   format "'[v' 'do'  x  <-  m ; '/' k ']'").

End Notations.

Fixpoint mapM {A B : Type} (f : A -> option B) (l : list A) : option (list B) :=
  match l with
  | [] => Some []
  | a :: l' => do b <- f a; do bs <- mapM f l'; Some (b :: bs)
  end.

Local Open Scope Z_scope.

Definition size_modulus : Z := 2 ^ 64.
Definition int_modulus : Z := 2 ^ 32.
Definition INT_MAX : Z := 2 ^ 31 - 1.

(** [std::string::npos], the largest [size_t]. *)
Definition npos : Z := size_modulus - 1.

(** [std::string::max_size()] of libstdc++ on LP64. *)
Definition max_size : Z := 2 ^ 62 - 1.

(** Conversion of an integer value to [size_t] (modulo 2^64). *)
Definition to_size (z : Z) : Z := z mod size_modulus.

(** Conversion of an integer value to [int] (two's complement, 32 bits). *)
Definition to_int (z : Z) : Z := (z + 2 ^ 31) mod int_modulus - 2 ^ 31.

(** [s.size()]. *)
Definition size (s : str) : Z := Z.of_nat (length s).

(** [std::string(count, ch)], [count] already a [size_t]: raises
    [std::length_error] when [count] exceeds [max_size()]. *)
Definition fill (count : Z) (ch : ascii) : option str :=
  if count <=? max_size then Some (repeat ch (Z.to_nat count)) else None.

(** [s.substr(0, n)] for a [size_t] [n]: position 0 is never out of
    range, and the count is clipped to the size of [s]. *)
Definition substr0 (s : str) (n : Z) : str := firstn (Z.to_nat n) s.

(** [s.erase(pos)], which is [s.erase(pos, npos)]: raises
    [std::out_of_range] when [pos > size()], and otherwise keeps the
    first [pos] bytes. *)
Definition erase_from (s : str) (pos : Z) : option str :=
  if pos <=? size s then Some (firstn (Z.to_nat pos) s) else None.

(** [s.erase(0, n)]: position 0 is never out of range; removes
    [min(n, size())] bytes from the front. *)
Definition erase_front (s : str) (n : Z) : str :=
  skipn (Z.to_nat (Z.min n (size s))) s.

Definition mem (c : ascii) (set : str) : bool := existsb (Ascii.eqb c) set.

(** [s.find_first_not_of(set)]: the scan from position [pos]. *)
Fixpoint first_not_of (set : str) (pos : Z) (s : str) : Z :=
  match s with
  | [] => npos
  | c :: s' => if mem c set then first_not_of set (pos + 1) s' else pos
  end.

Definition find_first_not_of (s set : str) : Z := first_not_of set 0 s.

(** [s.find_last_not_of(set)]: the last position from [pos] on whose
    byte is not in [set], [found] being the best position so far. *)
Fixpoint last_not_of (set : str) (pos : Z) (found : Z) (s : str) : Z :=
  match s with
  | [] => found
  | c :: s' => last_not_of set (pos + 1) (if mem c set then found else pos) s'
  end.

Definition find_last_not_of (s set : str) : Z := last_not_of set 0 npos s.

(** [std::find(vec.begin(), vec.end(), val)] as the offset of the
    returned iterator from [begin()]; [end()] is the offset
    [length vec]. *)
Fixpoint find (vec : list str) (val : str) : nat :=
  match vec with
  | [] => 0%nat
  | x :: vec' => if str_eqb x val then 0%nat else S (find vec' val)
  end.

(** [std::getline(in, line)] on the unread bytes of a stream: fails
    (the stream converts to [false]) when no byte can be extracted;
    otherwise extracts up to and including the next newline, which is
    not stored, or up to the end of the stream. *)
Fixpoint getline_scan (fin : str) : str * str :=
  match fin with
  | [] => ([], [])
  | c :: fin' =>
      if Ascii.eqb c nl then ([], fin')
      else let (line, rest) := getline_scan fin' in (c :: line, rest)
  end.

Definition getline (fin : str) : option (str * str) :=
  match fin with
  | [] => None
  | _ :: _ => Some (getline_scan fin)
  end.

End Cxx.

Import Cxx Cxx.Notations.

(** ** The roster store ([class Model]) *)

Module Model.

(** The two files of the program directory.  A file that cannot be
    opened for reading (missing or unreadable) is [None].  Whether a
    file can be opened for writing is a property of the environment; a
    file that was written can be read back. *)
Record Disk : Type := {
  classes_txt : option str;
  students_txt : option str;
  classes_writable : bool;
  students_writable : bool
}.

Record t : Type := {
  classes : list str;
  students : list str
}.

(** The vectors of a [Model] before its constructor body runs. *)
Definition fresh : t := {| classes := []; students := [] |}.

Definition whitespace : str :=
  [byte 32; byte 9; byte 10; byte 13; byte 12; byte 11].

Definition Exists (vec : list str) (val : str) : bool :=
  negb (find vec val =? length vec)%nat.

Definition Trim (s : str) : option str :=
  do s1 <- erase_from s (to_size (find_last_not_of s whitespace + 1));
  Some (erase_front s1 (find_first_not_of s1 whitespace)).

(** [for (const auto& c : vec) fout << c << '\n';] on an output stream
    holding [fout]. *)
Definition write_lines (vec : list str) (fout : str) : str :=
  fold_left (fun out c => out ++ c ++ [nl]) vec fout.

(** An [std::ofstream] opened with [std::ios::trunc], written and
    closed: when the file cannot be opened every write is a no-op. *)
Definition ofstream_trunc (writable : bool) (old : option str) (content : str)
  : option str :=
  if writable then Some content else old.

Definition SaveData (m : t) (d : Disk) : Disk :=
  {| classes_txt :=
       ofstream_trunc (classes_writable d) (classes_txt d)
         (write_lines (classes m) []);
     students_txt :=
       ofstream_trunc (students_writable d) (students_txt d)
         (write_lines (students m) []);
     classes_writable := classes_writable d;
     students_writable := students_writable d |}.

(** [while (std::getline(fin, line)) { Trim(line); if (!line.empty())
    vec.push_back(line); }].  Every successful [getline] consumes at
    least one byte, so [fuel] above the number of unread bytes is never
    used up; running out of fuel is reported as [None]. *)
Fixpoint read_loop (fuel : nat) (fin : str) (vec : list str)
  : option (list str) :=
  match fuel with
  | O => None
  | S fuel' =>
      match getline fin with
      | None => Some vec
      | Some (line, fin') =>
          do line' <- Trim line;
          read_loop fuel' fin' (if empty line' then vec else vec ++ [line'])
      end
  end.

(** One [std::ifstream] block of [LoadData]. *)
Definition load_file (file : option str) (vec : list str) : option (list str) :=
  match file with
  | Some content => read_loop (S (length content)) content vec
  | None => Some vec
  end.

Definition LoadData (m : t) (d : Disk) : option t :=
  do cs <- load_file (classes_txt d) (classes m);
  do ss <- load_file (students_txt d) (students m);
  Some {| classes := cs; students := ss |}.

(** The constructor [Model()]. *)
Definition new (d : Disk) : option t := LoadData fresh d.

Definition AddClass (className : str) (m : t) (d : Disk) : bool * t * Disk :=
  if negb (Exists (classes m) className) then
    let m' := {| classes := classes m ++ [className]; students := students m |} in
    (true, m', SaveData m' d)
  else (false, m, d).

Definition AddStudent (studentName : str) (m : t) (d : Disk) : bool * t * Disk :=
  if negb (Exists (students m) studentName) then
    let m' := {| classes := classes m; students := students m ++ [studentName] |} in
    (true, m', SaveData m' d)
  else (false, m, d).

Definition GetClasses (m : t) : list str := classes m.
Definition GetStudents (m : t) : list str := students m.

(** A run of [AddClass] calls, one per name, keeping the returned flags. *)
Fixpoint add_classes (names : list str) (m : t) (d : Disk)
  : list bool * t * Disk :=
  match names with
  | [] => ([], m, d)
  | n :: names' =>
      let '(b, m1, d1) := AddClass n m d in
      let '(bs, m2, d2) := add_classes names' m1 d1 in
      (b :: bs, m2, d2)
  end.

End Model.

(** ** The card renderer ([class View]) *)

Module View.

Local Open Scope Z_scope.

Definition ESC : ascii := byte 27.

Definition COLOR_RESET : str := ESC :: lit "[0m".
Definition COLOR_GRAY : str := ESC :: lit "[38;2;107;114;128m".
Definition COLOR_BOLD : str := ESC :: lit "[1m".

(** The box-drawing glyphs of the source, in UTF-8. *)
Definition top_left : str := [byte 226; byte 149; byte 173].
Definition top_right : str := [byte 226; byte 149; byte 174].
Definition bottom_left : str := [byte 226; byte 149; byte 176].
Definition bottom_right : str := [byte 226; byte 149; byte 175].
Definition bar : str := [byte 226; byte 148; byte 130].

Definition underscore : ascii := byte 95.

(** A card: its title and its content lines. *)
Definition card : Type := (str * list str)%type.

(** *** [DisplayCardsGrid] *)

Definition cardsPerRow : nat := 2.
Definition cardWidth : Z := 50.
Definition contentLines : Z := 3.

(** [int titlePadLeft = (cardWidth - 2 - card.first.size()) / 2;] the
    subtraction and the division are done in [size_t]. *)
Definition titlePadLeft (title : str) : Z :=
  to_int (to_size (cardWidth - 2 - size title) / 2).

(** [int titlePadRight = cardWidth - 2 - card.first.size() - titlePadLeft;] *)
Definition titlePadRight (title : str) : Z :=
  to_int (to_size (to_size (cardWidth - 2 - size title)
                   - to_size (titlePadLeft title))).

Definition border (l r : str) : option str :=
  do line <- fill (to_size (cardWidth - 2)) underscore;
  Some (l ++ line ++ r).

Definition blank_line : option str :=
  do spaces <- fill (to_size (cardWidth - 2)) sp;
  Some (bar ++ spaces ++ bar).

Definition title_line (title : str) : option str :=
  do left <- fill (to_size (titlePadLeft title)) sp;
  do right <- fill (to_size (titlePadRight title)) sp;
  Some (bar ++ left ++ COLOR_BOLD ++ title ++ COLOR_RESET ++ right ++ bar).

(** The body of [if (ln < (int)card.second.size())] for one content
    line. *)
Definition content_line (line : str) : option str :=
  let content :=
    if to_int (size line) >? cardWidth - 3
    then substr0 line (to_size (cardWidth - 6)) ++ lit "..."
    else line in
  let padRight := to_int (to_size (cardWidth - 3 - size content)) in
  do pad <- fill (to_size padRight) sp;
  Some (bar ++ [sp] ++ content ++ pad ++ bar).

(** One turn of [for (int ln = 0; ln < contentLines; ++ln)]: the string
    pushed on [lines[3 + ln]].  Inside the first branch [ln] is a valid
    index of [card.second]. *)
Definition content_slot (body : list str) (ln : Z) : option str :=
  if ln <? to_int (Z.of_nat (length body))
  then content_line (nth (Z.to_nat ln) body [])
  else blank_line.

(** The seven strings composed for one card, in the order of the
    array [lines]. *)
Definition card_rows (c : card) : option (list str) :=
  do l0 <- border top_left top_right;
  do l1 <- title_line (fst c);
  do l2 <- blank_line;
  do l3 <- content_slot (snd c) 0;
  do l4 <- content_slot (snd c) 1;
  do l5 <- content_slot (snd c) 2;
  do l6 <- border bottom_left bottom_right;
  Some [l0; l1; l2; l3; l4; l5; l6].

(** [std::vector<std::string> lines[7]], all empty. *)
Definition no_lines : list (list str) := repeat [] 7.

(** [lines[k].push_back(rows[k])] for every [k]. *)
Fixpoint push_rows (lines : list (list str)) (rows : list str)
  : list (list str) :=
  match lines, rows with
  | v :: lines', r :: rows' => (v ++ [r]) :: push_rows lines' rows'
  | _, _ => lines
  end.

(** [for (int c = 0; c < cardsPerRow; ++c)] with [n] turns left: the
    bounds test [if (idx >= count) break;] and the access [cards[idx]]
    are one lookup. *)
Fixpoint compose (n : nat) (cards : list card) (i c : nat)
    (lines : list (list str)) : option (list (list str)) :=
  match n with
  | O => Some lines
  | S n' =>
      match nth_error cards (i + c) with
      | None => Some lines
      | Some cd =>
          do rows <- card_rows cd;
          compose n' cards i (S c) (push_rows lines rows)
      end
  end.

(** [for (size_t cardIdx = 0; cardIdx < lines[lineNum].size(); ++cardIdx)]
    over the strings that are left, [count] being
    [lines[lineNum].size()]. *)
Fixpoint print_cells (cells : list str) (cardIdx count : nat) (out : str)
  : str :=
  match cells with
  | [] => out
  | cell :: cells' =>
      let out1 := out ++ COLOR_GRAY ++ cell ++ COLOR_RESET in
      let out2 :=
        if (cardIdx =? count - 1)%nat then out1 else out1 ++ lit "    " in
      print_cells cells' (S cardIdx) count out2
  end.

(** [for (int lineNum = 0; lineNum < 7; ++lineNum)]. *)
Fixpoint print_lines (lines : list (list str)) (out : str) : str :=
  match lines with
  | [] => out
  | v :: lines' =>
      print_lines lines' (print_cells v 0 (length v) out ++ [nl])
  end.

(** [for (size_t i = 0; i < count; i += cardsPerRow)]: a turn raises
    what composing its cards raises.  Each turn advances [i], so fuel
    above [count] is never used up; running out of fuel is [None]. *)
Fixpoint grid_loop (fuel : nat) (cards : list card) (i : nat) (out : str)
  : option str :=
  match fuel with
  | O => None
  | S fuel' =>
      if (i <? length cards)%nat then
        do lines <- compose cardsPerRow cards i 0 no_lines;
        grid_loop fuel' cards (i + cardsPerRow)%nat
          (print_lines lines out ++ [nl])
      else Some out
  end.

(** What [DisplayCardsGrid(cards)] writes to [std::cout]. *)
Definition DisplayCardsGrid (cards : list card) : option str :=
  grid_loop (S (length cards)) cards 0 [].

(** *** [DisplayCard] *)

(** [for (const auto& line : lines)] of [DisplayCard]. *)
Fixpoint card_content (cardWidth : Z) (lines : list str) (out : str)
  : option str :=
  match lines with
  | [] => Some out
  | line :: lines' =>
      let padding := to_int (to_size (cardWidth - 3 - size line)) in
      do pad <- fill (to_size (if padding >? 0 then padding else 0)) sp;
      card_content cardWidth lines'
        (out ++ (bar ++ [sp]) ++ line ++ pad ++ (bar ++ [nl]))
  end.

(** [(cardWidth - 2 - title.size()) / 2], a [size_t]. *)
Definition cardPadLeft (cardWidth : Z) (title : str) : Z :=
  to_size (cardWidth - 2 - size title) / 2.

(** [(cardWidth - 2 - title.size() + 1) / 2], a [size_t]. *)
Definition cardPadRight (cardWidth : Z) (title : str) : Z :=
  to_size (to_size (cardWidth - 2 - size title) + 1) / 2.

(** What [DisplayCard(title, lines, cardWidth)] writes to [std::cout]. *)
Definition DisplayCard (title : str) (lines : list str) (cardWidth : Z)
  : option str :=
  do line <- fill (to_size (cardWidth - 2)) underscore;
  let topBot := top_left ++ line ++ (top_right ++ [nl]) in
  let bottom := bottom_left ++ line ++ (bottom_right ++ [nl]) in
  let out1 := COLOR_GRAY ++ topBot ++ COLOR_RESET in
  do left <- fill (cardPadLeft cardWidth title) sp;
  do right <- fill (cardPadRight cardWidth title) sp;
  let out2 :=
    out1 ++ bar ++ left ++ COLOR_BOLD ++ title ++ COLOR_RESET
         ++ right ++ (bar ++ [nl]) in
  do spaces <- fill (to_size (cardWidth - 2)) sp;
  let out3 := out2 ++ bar ++ spaces ++ (bar ++ [nl]) in
  do out4 <- card_content cardWidth lines out3;
  Some (out4 ++ COLOR_GRAY ++ bottom ++ COLOR_RESET).

(** *** What a terminal shows *)

(** The states of a reader of ANSI control sequences: plain text, after
    ESC, inside a control sequence [ESC [ ... final]. *)
Inductive reader : Type := Text | Escape | Control.

Definition final_byte (c : ascii) : bool :=
  ((64 <=? nat_of_ascii c) && (nat_of_ascii c <=? 126))%nat.

(** The bytes of [s] that are not part of an escape sequence. *)
Fixpoint visible_from (st : reader) (s : str) : str :=
  match s with
  | [] => []
  | c :: s' =>
      match st with
      | Text =>
          if Ascii.eqb c ESC then visible_from Escape s'
          else c :: visible_from Text s'
      | Escape =>
          if Ascii.eqb c (byte 91) then visible_from Control s'
          else visible_from Text s'
      | Control =>
          if final_byte c then visible_from Text s'
          else visible_from Control s'
      end
  end.

Definition visible (s : str) : str := visible_from Text s.

(** A UTF-8 continuation byte, [10xxxxxx]. *)
Definition continuation (c : ascii) : bool :=
  ((128 <=? nat_of_ascii c) && (nat_of_ascii c <? 192))%nat.

(** The number of characters of a UTF-8 text. *)
Definition columns (s : str) : nat :=
  length (filter (fun c => negb (continuation c)) s).

(** The width of a line on the terminal: its characters, the escape
    sequences left out. *)
Definition printable_width (s : str) : nat := columns (visible s).

(** A byte that is one printable ASCII character. *)
Definition printable (c : ascii) : bool :=
  ((32 <=? nat_of_ascii c) && (nat_of_ascii c <=? 126))%nat.

Definition plain (s : str) : Prop := forallb printable s = true.

(** The lines of an output: its pieces that end in a newline. *)
Fixpoint rows_from (cur : str) (out : str) : list str :=
  match out with
  | [] => []
  | c :: out' =>
      if Ascii.eqb c nl then rev cur :: rows_from [] out'
      else rows_from (c :: cur) out'
  end.

Definition rows_of (out : str) : list str := rows_from [] out.

End View.

(** ** Definitions that follow the words of the specification *)

Module Spec.

Definition is_space (c : ascii) : bool := mem c Model.whitespace.

(** A text without its leading whitespace. *)
Fixpoint strip_left (s : str) : str :=
  match s with
  | [] => []
  | c :: s' => if is_space c then strip_left s' else s
  end.

(** A text without its trailing whitespace. *)
Fixpoint strip_right (s : str) : str :=
  match s with
  | [] => []
  | c :: s' =>
      match strip_right s' with
      | [] => if is_space c then [] else [c]
      | r => c :: r
      end
  end.

(** "Trimmed of leading/trailing whitespace." *)
Definition trimmed (s : str) : str := strip_left (strip_right s).

(** "Newline-delimited entries": the pieces between the newlines. *)
Fixpoint split_nl (s : str) : list str :=
  match s with
  | [] => [[]]
  | c :: s' =>
      if Ascii.eqb c nl then [] :: split_nl s'
      else match split_nl s' with
           | l :: ls => (c :: l) :: ls
           | [] => [[c]]
           end
  end.

(** "Each line is trimmed; empty lines are skipped." *)
Definition entries_of (content : str) : list str :=
  filter (fun l => negb (empty l)) (map trimmed (split_nl content)).

(** "Missing source is treated as an empty list." *)
Definition entries (source : option str) : list str :=
  match source with
  | Some content => entries_of content
  | None => []
  end.

(** Every line of a source fits a [std::string]: [std::getline] fails
    on a line that reaches [max_size()]. *)
Definition lines_fit (source : option str) : Prop :=
  match source with
  | Some content => Forall (fun l => (size l < max_size)%Z) (split_nl content)
  | None => True
  end.

(** A Name: "a non-empty string, trimmed of leading/trailing
    whitespace", on one line, that fits a [std::string]. *)
Definition first_ok (s : str) : bool :=
  match s with
  | [] => false
  | c :: _ => negb (is_space c)
  end.

Definition name (s : str) : Prop :=
  first_ok s = true /\ first_ok (rev s) = true /\ ~ In nl s
  /\ (size s < max_size)%Z.

(** "Cards are grouped two at a time, in input order." *)
Fixpoint pairs {A : Type} (l : list A) : list (list A) :=
  match l with
  | [] => []
  | [a] => [[a]]
  | a :: b :: l' => [a; b] :: pairs l'
  end.

(** Strings side by side, [gutter] between neighbours. *)
Fixpoint side_by_side (gutter : str) (cells : list str) : str :=
  match cells with
  | [] => []
  | [c] => c
  | c :: cells' => c ++ gutter ++ side_by_side gutter cells'
  end.

Definition colored (row : str) : str :=
  View.COLOR_GRAY ++ row ++ View.COLOR_RESET.

(** Printed line [k] of a group of cards, each given by its rows. *)
Definition group_line (group : list (list str)) (k : nat) : str :=
  side_by_side (lit "    ") (map (fun rows => colored (nth k rows [])) group).

(** The printed lines of a group: "for every row index 0..6". *)
Definition group_lines (group : list (list str)) : list str :=
  map (group_line group) (seq 0 7).

Definition unlines (ls : list str) : str :=
  concat (map (fun l => l ++ [nl]) ls).

(** A group: its seven lines, then one blank line. *)
Definition group_block (group : list (list str)) : str :=
  unlines (group_lines group) ++ [nl].

(** The grid of cards that are given by their rows. *)
Definition grid (rowss : list (list str)) : str :=
  concat (map group_block (pairs rowss)).

End Spec.

Import Model View Spec.

(** ** Auxiliary predicates and sample data *)

Definition str_dec : forall a b : str, {a = b} + {a <> b} :=
  list_eq_dec ascii_dec.

(** The entry that a trimmed line contributes. *)
Definition keep (l : str) : list str := if empty l then [] else [l].

(** A body line that the renderer can measure in [int], made of
    one-column characters. *)
Definition fits_row (l : str) : Prop := plain l /\ (size l <= INT_MAX)%Z.

(** A string without newline. *)
Definition one_line (s : str) : Prop :=
  forallb (fun c => negb (Ascii.eqb c nl)) s = true.

(** The three rows of a card that do not depend on it. *)
Definition top_border : str := top_left ++ repeat underscore 48 ++ top_right.
Definition bottom_border : str :=
  bottom_left ++ repeat underscore 48 ++ bottom_right.
Definition blank_row : str := bar ++ repeat sp 48 ++ bar.

(** A directory without the two files, and one with a classes file. *)
Definition disk0 : Disk :=
  {| classes_txt := None; students_txt := None;
     classes_writable := true; students_writable := true |}.

Definition disk1 : Disk :=
  {| classes_txt :=
       Some (lit "  Math " ++ [nl; nl; byte 9; nl] ++ lit "Art" ++ [byte 13; nl]
             ++ lit "Modern Dance");
     students_txt := None;
     classes_writable := true; students_writable := true |}.

Definition roster1 : Model.t :=
  {| classes := [lit "Algebra I"; lit "Art"];
     students := [lit "Ada Lovelace"] |}.

(** The description line of the class view, and three class cards. *)
Definition description : str := lit "Manage and track your class activities.".

Definition three_classes : list card :=
  [(lit "Math", [description]); (lit "Art", [description]);
   (lit "Biology", [description])].

(** A line of 56 bytes. *)
Definition long_line : str :=
  lit "The quick brown fox jumps over the lazy dog, twice over.".

(** A body line of 2^31 bytes. *)
Definition huge_line : str := repeat "a"%char (Z.to_nat (2 ^ 31)).

(** A title of 49 bytes. *)
Definition long_title : str := repeat "a"%char 49.

(** The two bytes of the letter e with an acute accent, in UTF-8. *)
Definition e_acute : str := [byte 195; byte 169].

(** ** The console: input of [class View] *)

Module Console.

(** The outcome of a function that may loop: it returns, it raises, or
    the fuel given to it does not suffice. *)
Inductive run (A : Type) : Type :=
| Returned (a : A)
| Raised
| Unfinished.

Arguments Returned {A} a.
Arguments Raised {A}.
Arguments Unfinished {A}.

(** [std::cin] as the bytes not yet read, [std::cout] as the bytes
    written. *)
Record io : Type := {
  cin : str;
  cout : str
}.

(** [View::Trim], a second copy of [Model::Trim]. *)
Definition ws : str := [byte 32; byte 9; byte 10; byte 13; byte 12; byte 11].

Definition Trim (s : str) : option str :=
  do s1 <- erase_from s (to_size (find_last_not_of s ws + 1));
  Some (erase_front s1 (find_first_not_of s1 ws)).

Definition complaint : str := lit "Input cannot be empty. Try again." ++ [nl].

(** The [do ... while (input.empty())] loop of [PromptNonEmptyString];
    [input] is the local variable, which a failed [std::getline] leaves
    as it is. *)
Fixpoint prompt_loop (fuel : nat) (prompt input : str) (s : io)
  : run (str * io) :=
  match fuel with
  | O => Unfinished
  | S fuel' =>
      let out1 := cout s ++ prompt in
      let '(input1, cin1) :=
        match getline (cin s) with
        | Some (line, rest) => (line, rest)
        | None => (input, cin s)
        end in
      match Trim input1 with
      | None => Raised
      | Some input2 =>
          if empty input2 then
            prompt_loop fuel' prompt input2
              {| cin := cin1; cout := out1 ++ complaint |}
          else Returned (input2, {| cin := cin1; cout := out1 |})
      end
  end.

Definition PromptNonEmptyString (fuel : nat) (prompt : str) (s : io)
  : run (str * io) :=
  prompt_loop fuel prompt [] s.

(** [std::cin.ignore(max, '\n')]: discards up to and including the
    next newline, or up to the end of the input. *)
Definition ignore_line (fin : str) : str := snd (getline_scan fin).

Definition Pause (s : io) : io :=
  {| cin := ignore_line (cin s);
     cout := cout s ++ lit "Press Enter to continue..." |}.

End Console.

(** ** The flows of [class Controller] *)

Module Controller.

Import Console.

Record state : Type := {
  model : Model.t;
  disk : Disk;
  console : io
}.

Definition quote : ascii := byte 34.

(** The message of an add flow: a newline, the kind, the name between
    double quotes, what happened, and two newlines. *)
Definition report (kind name what : str) : str :=
  [nl] ++ kind ++ [sp; quote] ++ name ++ [quote] ++ what ++ [nl; nl].

Definition AddClassFlow (fuel : nat) (st : state) : run state :=
  match PromptNonEmptyString fuel (lit "Enter new class name: ") (console st) with
  | Returned (name, s1) =>
      let '(added, m1, d1) := AddClass name (model st) (disk st) in
      let what :=
        if added then lit " added successfully." else lit " already exists." in
      Returned
        {| model := m1; disk := d1;
           console :=
             Pause {| cin := cin s1;
                      cout := cout s1 ++ report (lit "Class") name what |} |}
  | Raised => Raised
  | Unfinished => Unfinished
  end.

Definition AddStudentFlow (fuel : nat) (st : state) : run state :=
  match PromptNonEmptyString fuel (lit "Enter new student name: ") (console st) with
  | Returned (name, s1) =>
      let '(added, m1, d1) := AddStudent name (model st) (disk st) in
      let what :=
        if added then lit " added successfully." else lit " already exists." in
      Returned
        {| model := m1; disk := d1;
           console :=
             Pause {| cin := cin s1;
                      cout := cout s1 ++ report (lit "Student") name what |} |}
  | Raised => Raised
  | Unfinished => Unfinished
  end.

Definition classCard (c : str) : card :=
  (c, [lit "Manage and track your class activities."]).

Definition studentCard (s : str) : card :=
  (s, [lit "Active participant in your classes."]).

Definition ViewClassesFlow (st : state) : run state :=
  let classes := GetClasses (model st) in
  let s := console st in
  match classes with
  | [] =>
      Returned
        {| model := model st; disk := disk st;
           console :=
             Pause {| cin := cin s;
                      cout := cout s ++ [nl] ++ lit "No classes available."
                              ++ [nl; nl] |} |}
  | _ :: _ =>
      match DisplayCardsGrid (map classCard classes) with
      | Some out =>
          Returned
            {| model := model st; disk := disk st;
               console :=
                 Pause {| cin := cin s;
                          cout := (cout s ++ [nl] ++ lit "--- Classes ---"
                                   ++ [nl]) ++ out |} |}
      | None => Raised
      end
  end.

Definition ViewStudentsFlow (st : state) : run state :=
  let students := GetStudents (model st) in
  let s := console st in
  match students with
  | [] =>
      Returned
        {| model := model st; disk := disk st;
           console :=
             Pause {| cin := cin s;
                      cout := cout s ++ [nl] ++ lit "No students enrolled."
                              ++ [nl; nl] |} |}
  | _ :: _ =>
      match DisplayCardsGrid (map studentCard students) with
      | Some out =>
          Returned
            {| model := model st; disk := disk st;
               console :=
                 Pause {| cin := cin s;
                          cout := (cout s ++ [nl] ++ lit "--- Students ---"
                                   ++ [nl]) ++ out |} |}
      | None => Raised
      end
  end.

End Controller.

(** ** Further auxiliary definitions *)

(** A run of [AddStudent] calls, one per name, keeping the returned
    flags. *)
Fixpoint add_students (names : list str) (m : Model.t) (d : Disk)
  : list bool * Model.t * Disk :=
  match names with
  | [] => ([], m, d)
  | n :: names' =>
      let '(b, m1, d1) := AddStudent n m d in
      let '(bs, m2, d2) := add_students names' m1 d1 in
      (b :: bs, m2, d2)
  end.

(** The lines at the head of an input that are empty once trimmed. *)
Fixpoint leading_blanks (ls : list str) : nat :=
  match ls with
  | [] => 0
  | l :: ls' => if empty (trimmed l) then S (leading_blanks ls') else 0
  end.

(** The row that [DisplayCard] writes for a content line: the padding
    is clamped at zero. *)
Definition card_line (line : str) : str :=
  bar ++ [sp] ++ line
  ++ repeat sp (Z.to_nat (cardWidth - 3 - size line)) ++ bar.

(** The printable width of a printed line of a group of [n] cards. *)
Definition group_width (n : nat) : nat := (50 * n + 4 * (n - 1))%nat.

(** A card of one-column characters that the grid can render. *)
Definition plain_card (c : card) : Prop :=
  (size (fst c) <= cardWidth - 2)%Z /\ plain (fst c) /\
  Forall fits_row (firstn 3 (snd c)).

(** A row that holds no newline and leaves a reader of escape
    sequences in plain text. *)
Definition tidy (row : str) : Prop :=
  one_line row /\
  forall rest,
    visible_from Text (row ++ rest) = visible row ++ visible_from Text rest.

(** What a session keeps true: the entries are Names, the files can be
    written, and a restart from the files gives the lists in memory. *)
Definition in_sync (m : Model.t) (d : Disk) : Prop :=
  Forall name (classes m) /\ Forall name (students m) /\
  classes_writable d = true /\ students_writable d = true /\
  Model.new d = Some m.

(** A row of a rendered card, as the grid needs it. *)
Definition good_row (row : str) : Prop :=
  tidy row /\ printable_width row = 50%nat.

(** The printable widths of the lines that the grid prints for the
    cards, group by group: seven lines and an empty one. *)
Definition grid_widths {A : Type} (cards : list A) : list nat :=
  concat (map (fun g => repeat (group_width (length g)) 7 ++ [0%nat])
            (pairs cards)).

(** A line that fits a [std::string]. *)
Definition fit (l : str) : Prop := (size l < max_size)%Z.

(** A session on [roster1] with two lines typed ahead. *)
Definition session1 : Controller.state :=
  {| Controller.model := roster1;
     Controller.disk := SaveData roster1 disk0;
     Controller.console :=
       {| Console.cin := lit "Biology" ++ [nl; nl]; Console.cout := [] |} |}.

(** A session in which a class name of 49 bytes is typed. *)
Definition session2 : Controller.state :=
  {| Controller.model := roster1;
     Controller.disk := SaveData roster1 disk0;
     Controller.console :=
       {| Console.cin := long_title ++ [nl; nl]; Console.cout := [] |} |}.

(** A line of a file that holds the Name [n] between whitespace. *)
Definition padded (line n : str) : Prop :=
  name n /\ ~ In nl line /\ (size line < max_size)%Z /\
  exists a b,
    line = a ++ n ++ b /\
    forallb is_space a = true /\ forallb is_space b = true.

(** A classes file with Windows line ends, indentation and a last line
    without newline. *)
Definition disk_crlf : Disk :=
  {| classes_txt :=
       Some (lit "Math" ++ [byte 13; nl] ++ [byte 9] ++ lit "Art"
             ++ [sp; byte 13; nl] ++ lit "Biology");
     students_txt := None;
     classes_writable := true; students_writable := true |}.

(** A directory whose files cannot be written. *)
Definition disk_read_only : Disk :=
  {| classes_txt := Some (lit "Art" ++ [nl]); students_txt := None;
     classes_writable := false; students_writable := false |}.

(** ** The grid with the output of a call that raises *)

(** The loop of [DisplayCardsGrid] once more, keeping what has been
    written to [std::cout] when composing a card raises: the bytes
    written, and whether the function returned.  The cards of a group
    are all composed before its first line is printed. *)
Fixpoint grid_loop_written (fuel : nat) (cards : list card) (i : nat)
    (out : str) : option (str * bool) :=
  match fuel with
  | O => None
  | S fuel' =>
      if (i <? length cards)%nat then
        match compose cardsPerRow cards i 0 no_lines with
        | Some lines =>
            grid_loop_written fuel' cards (i + cardsPerRow)%nat
              (print_lines lines out ++ [nl])
        | None => Some (out, false)
        end
      else Some (out, true)
  end.

Definition DisplayCardsGrid_written (cards : list card) : option (str * bool) :=
  grid_loop_written (S (length cards)) cards 0 [].

(** The grid of groups that are given by the rows of their cards. *)
Definition grid_of_groups (groups : list (list (list str))) : str :=
  concat (map group_block groups).

(** The groups of cards, in order, up to the first one in which
    composing a card raises; and whether there is no such group. *)
Fixpoint whole_groups (groups : list (list card))
  : list (list (list str)) * bool :=
  match groups with
  | [] => ([], true)
  | g :: groups' =>
      match mapM card_rows g with
      | Some rowss =>
          let (done, all) := whole_groups groups' in (rowss :: done, all)
      | None => ([], false)
      end
  end.

(** A card that the grid composes without raising: a title of at most
    [W - 2] bytes and lines that [int] can measure. *)
Definition renders (c : card) : Prop :=
  (size (fst c) <= cardWidth - 2)%Z /\
  Forall (fun l => (size l <= INT_MAX)%Z) (firstn 3 (snd c)).

(** A card without newline in its title and in the lines it shows. *)
Definition one_line_card (c : card) : Prop :=
  one_line (fst c) /\ Forall one_line (firstn 3 (snd c)).

(** A line of 24 characters of two bytes each, 48 bytes. *)
Definition accented : str := concat (repeat e_acute 24).

(** A title of 2^32 + 50 bytes. *)
Definition giant_title : str := repeat "a"%char (Z.to_nat (2 ^ 32 + 50)).

(** The input that is left after [k] lines have been read. *)
Definition after_lines (k : nat) (fin : str) : str :=
  Nat.iter k Console.ignore_line fin.

(** [padding > 0 ? padding : 0] of [DisplayCard], [padding] being the
    [int] that [cardWidth - 3 - line.size()] is converted to. *)
Definition cardPadding (cardWidth : Z) (line : str) : Z :=
  let padding := to_int (to_size (cardWidth - 3 - size line)) in
  (if padding >? 0 then padding else 0)%Z.

(** The row that [DisplayCard] writes for a content line of any
    length, with its newline. *)
Definition card_row (cardWidth : Z) (line : str) : str :=
  (bar ++ [sp]) ++ line ++ repeat sp (Z.to_nat (cardPadding cardWidth line))
  ++ (bar ++ [nl]).

(** The three class cards and a fourth whose title has 49 bytes. *)
Definition four_cards : list card :=
  three_classes ++ [(long_title, [description])].

(** * Properties *)

(** ** String equality and [std::find] *)

Lemma str_eqb_eq (a b : str) : str_eqb a b = true <-> a = b.
Proof.
  revert b; induction a as [|x a IH]; intros [|y b]; simpl;
    try (split; [discriminate | discriminate]); try tauto.
  rewrite andb_true_iff, Ascii.eqb_eq, IH.
  split; [intros [-> ->]; reflexivity | intros H; inversion H; auto].
Qed.

Lemma str_eqb_refl (a : str) : str_eqb a a = true.
Proof. apply str_eqb_eq; reflexivity. Qed.

Lemma find_le (vec : list str) (val : str) : (find vec val <= length vec)%nat.
Proof.
  induction vec as [|x vec IH]; simpl; [lia|].
  destruct (str_eqb x val); lia.
Qed.

Lemma find_end (vec : list str) (val : str) :
  find vec val = length vec <-> ~ In val vec.
Proof.
  induction vec as [|x vec IH]; simpl; [tauto|].
  destruct (str_eqb x val) eqn:E.
  - apply str_eqb_eq in E. split; [discriminate | intros H; exfalso; auto].
  - assert (x <> val) by (intros ->; rewrite str_eqb_refl in E; discriminate).
    split.
    + intros H1 [H2|H2]; [auto|]. apply IH in H2; [exact H2 | lia].
    + intros H1. f_equal. apply IH. tauto.
Qed.

Lemma Exists_true (vec : list str) (val : str) :
  Model.Exists vec val = true <-> In val vec.
Proof.
  unfold Model.Exists. rewrite negb_true_iff, Nat.eqb_neq.
  split.
  - intros H. destruct (in_dec (list_eq_dec ascii_dec) val vec) as [i|n];
      [exact i|]. apply find_end in n. contradiction.
  - intros H E. apply find_end in E. contradiction.
Qed.

Lemma Exists_false (vec : list str) (val : str) :
  Model.Exists vec val = false <-> ~ In val vec.
Proof.
  rewrite <- Exists_true. destruct (Model.Exists vec val); split; intros;
    congruence.
Qed.

(** ** Adding names *)

Lemma AddClass_present (n : str) (m : Model.t) (d : Disk) :
  In n (classes m) -> AddClass n m d = (false, m, d).
Proof.
  intros H. unfold AddClass. apply Exists_true in H. rewrite H. reflexivity.
Qed.

Lemma AddClass_absent (n : str) (m : Model.t) (d : Disk) :
  ~ In n (classes m) ->
  AddClass n m d =
    (true, {| classes := classes m ++ [n]; students := students m |},
     SaveData {| classes := classes m ++ [n]; students := students m |} d).
Proof.
  intros H. unfold AddClass. apply Exists_false in H. rewrite H. reflexivity.
Qed.

Lemma AddStudent_present (n : str) (m : Model.t) (d : Disk) :
  In n (students m) -> AddStudent n m d = (false, m, d).
Proof.
  intros H. unfold AddStudent. apply Exists_true in H. rewrite H. reflexivity.
Qed.

Lemma AddStudent_absent (n : str) (m : Model.t) (d : Disk) :
  ~ In n (students m) ->
  AddStudent n m d =
    (true, {| classes := classes m; students := students m ++ [n] |},
     SaveData {| classes := classes m; students := students m ++ [n] |} d).
Proof.
  intros H. unfold AddStudent. apply Exists_false in H. rewrite H. reflexivity.
Qed.

Lemma count_occ_snoc (l : list str) (n : str) :
  ~ In n l -> count_occ str_dec (l ++ [n]) n = 1%nat.
Proof.
  intros H. rewrite count_occ_app.
  apply (count_occ_not_In str_dec) in H. rewrite H. simpl.
  destruct (str_dec n n); congruence.
Qed.

(** C1.  [AddClass] (and likewise [AddStudent]) on a name that is
    already in its list returns [false] and changes neither list (nor
    the files); on any other name it appends the name at the end of its
    list, leaves the other list alone and returns [true].  From a state
    without [n], two calls of [AddClass n] in a row return [true] and
    then [false], and [n] then occurs exactly once among the classes.
    This holds for every name, so for every non-empty trimmed one. *)
Theorem add_rejects_duplicates (n : str) (m : Model.t) (d : Disk) :
  (In n (classes m) -> AddClass n m d = (false, m, d)) /\
  (~ In n (classes m) ->
     exists d', AddClass n m d =
       (true, {| classes := classes m ++ [n]; students := students m |}, d')) /\
  (In n (students m) -> AddStudent n m d = (false, m, d)) /\
  (~ In n (students m) ->
     exists d', AddStudent n m d =
       (true, {| classes := classes m; students := students m ++ [n] |}, d')) /\
  (~ In n (classes m) ->
     let r1 := AddClass n m d in
     let r2 := AddClass n (snd (fst r1)) (snd r1) in
     fst (fst r1) = true /\ fst (fst r2) = false /\
     count_occ str_dec (GetClasses (snd (fst r2))) n = 1%nat).
Proof.
  split; [apply AddClass_present|].
  split; [intros H; eexists; apply AddClass_absent; exact H|].
  split; [apply AddStudent_present|].
  split; [intros H; eexists; apply AddStudent_absent; exact H|].
  intros H r1 r2. subst r2 r1.
  rewrite (AddClass_absent n m d H). cbn [fst snd].
  rewrite AddClass_present by (simpl; apply in_or_app; simpl; auto).
  cbn [fst snd GetClasses classes].
  split; [reflexivity|]. split; [reflexivity|].
  apply count_occ_snoc; exact H.
Qed.

Lemma add_rejects_duplicates_witness :
  ~ In (lit "Algebra I") (classes fresh) /\
  (let r1 := AddClass (lit "Algebra I") fresh disk0 in
   let r2 := AddClass (lit "Algebra I") (snd (fst r1)) (snd r1) in
   fst (fst r1) = true /\ fst (fst r2) = false /\
   count_occ str_dec (GetClasses (snd (fst r2))) (lit "Algebra I") = 1%nat).
Proof.
  assert (H : ~ In (lit "Algebra I") (classes fresh)) by (simpl; tauto).
  split; [exact H|].
  exact (proj2 (proj2 (proj2 (proj2
           (add_rejects_duplicates (lit "Algebra I") fresh disk0)))) H).
Defined.

(** ** Order of the names *)

Lemma add_classes_appends (names : list str) :
  forall (m : Model.t) (d : Disk),
    NoDup names ->
    (forall x, In x names -> ~ In x (classes m)) ->
    exists d',
      add_classes names m d =
        (repeat true (length names),
         {| classes := classes m ++ names; students := students m |}, d').
Proof.
  induction names as [|n names IH]; intros m d Hnd Hfresh; simpl.
  - exists d. rewrite app_nil_r. destruct m; reflexivity.
  - inversion Hnd as [|? ? Hn Hnd']; subst.
    rewrite AddClass_absent by (apply Hfresh; simpl; auto).
    set (m1 := {| classes := classes m ++ [n]; students := students m |}).
    destruct (IH m1 (SaveData m1 d) Hnd') as [d' E].
    + intros x Hx Hin. simpl in Hin. apply in_app_or in Hin.
      destruct Hin as [Hin|[->|[]]]; [|contradiction].
      apply (Hfresh x); simpl; auto.
    + rewrite E. exists d'. simpl. rewrite <- app_assoc. reflexivity.
Qed.

(** C4.  Starting from an empty list of classes, [AddClass] called on
    each name of a sequence of pairwise distinct names accepts every
    one of them, and [GetClasses] then returns exactly that sequence,
    in the order of the calls. *)
Theorem classes_keep_insertion_order (names : list str) (m : Model.t) (d : Disk) :
  classes m = [] ->
  NoDup names ->
  GetClasses (snd (fst (add_classes names m d))) = names /\
  fst (fst (add_classes names m d)) = repeat true (length names).
Proof.
  intros Hm Hnd.
  destruct (add_classes_appends names m d Hnd) as [d' E].
  - intros x _. rewrite Hm. simpl. tauto.
  - rewrite E. simpl. rewrite Hm. split; reflexivity.
Qed.

Lemma classes_keep_insertion_order_witness :
  GetClasses
    (snd (fst (add_classes [lit "Math"; lit "Art"; lit "Biology"] fresh disk0)))
  = [lit "Math"; lit "Art"; lit "Biology"].
Proof.
  apply (classes_keep_insertion_order
           [lit "Math"; lit "Art"; lit "Biology"] fresh disk0).
  - reflexivity.
  - repeat constructor; simpl; intuition discriminate.
Defined.

(** ** [Trim] *)

Lemma strip_right_firstn (s : str) :
  (length (strip_right s) <= length s)%nat /\
  firstn (length (strip_right s)) s = strip_right s.
Proof.
  induction s as [|c s [IH1 IH2]]; simpl; [split; [lia | reflexivity]|].
  destruct (strip_right s) as [|x r] eqn:E.
  - destruct (is_space c); simpl; split; try lia; reflexivity.
  - simpl in *. split; [lia|]. f_equal. exact IH2.
Qed.

Lemma strip_left_skipn (s : str) :
  (length (strip_left s) <= length s)%nat /\
  skipn (length s - length (strip_left s)) s = strip_left s.
Proof.
  induction s as [|c s [IH1 IH2]]; [split; [simpl; lia | reflexivity]|].
  cbn [strip_left]. destruct (is_space c); cbn [length].
  - split; [lia|].
    replace (S (length s) - length (strip_left s))%nat
      with (S (length s - length (strip_left s))) by lia.
    exact IH2.
  - split; [lia|]. rewrite Nat.sub_diag. reflexivity.
Qed.

Lemma last_not_of_spec (s : str) :
  forall pos found : Z,
    last_not_of whitespace pos found s =
      match strip_right s with
      | [] => found
      | r => (pos + Z.of_nat (length r) - 1)%Z
      end.
Proof.
  induction s as [|c s IH]; intros pos found; [reflexivity|].
  cbn [last_not_of strip_right]. rewrite IH. unfold is_space.
  destruct (strip_right s) as [|x r]; destruct (mem c whitespace);
    cbn [length]; try reflexivity; lia.
Qed.

Lemma first_not_of_spec (s : str) :
  forall pos : Z,
    first_not_of whitespace pos s =
      match strip_left s with
      | [] => npos
      | _ => (pos + Z.of_nat (length s - length (strip_left s)))%Z
      end.
Proof.
  induction s as [|c s IH]; intros pos; [reflexivity|].
  cbn [first_not_of strip_left]. unfold is_space.
  destruct (mem c whitespace) eqn:E.
  - rewrite IH. destruct (strip_left s) as [|x r] eqn:E'; [reflexivity|].
    pose proof (proj1 (strip_left_skipn s)) as Hle. rewrite E' in Hle.
    cbn [length] in *. lia.
  - rewrite Nat.sub_diag. cbn [Z.of_nat]. lia.
Qed.

Lemma max_size_small : (max_size < npos)%Z.
Proof. reflexivity. Qed.

Lemma erase_front_spec (s : str) :
  (size s <= max_size)%Z ->
  erase_front s (find_first_not_of s whitespace) = strip_left s.
Proof.
  intros Hs. unfold erase_front, find_first_not_of, size in *.
  rewrite first_not_of_spec.
  destruct (strip_left_skipn s) as [Hle Hskip].
  pose proof max_size_small as Hm.
  destruct (strip_left s) as [|x r] eqn:E.
  - rewrite Z.min_r by lia. rewrite Nat2Z.id.
    rewrite <- Hskip. simpl. rewrite Nat.sub_0_r. reflexivity.
  - rewrite Z.min_l by lia. simpl Z.add. rewrite Nat2Z.id. exact Hskip.
Qed.

(** [Trim] never raises on a string, and returns it trimmed. *)
Lemma Trim_spec (s : str) :
  (size s <= max_size)%Z -> Trim s = Some (trimmed s).
Proof.
  intros Hs. unfold Trim, find_last_not_of, trimmed.
  rewrite last_not_of_spec.
  destruct (strip_right_firstn s) as [Hle Hfirst].
  pose proof max_size_small as Hm.
  assert (Hr : (size (strip_right s) <= max_size)%Z)
    by (unfold size in *; lia).
  destruct (strip_right s) as [|x r] eqn:E.
  - replace (to_size (npos + 1)) with 0%Z by reflexivity.
    unfold erase_from. destruct (Z.leb_spec 0 (size s)) as [_|H];
      [|unfold size in H; lia].
    reflexivity.
  - unfold to_size.
    replace (0 + Z.of_nat (length (x :: r)) - 1 + 1)%Z
      with (Z.of_nat (length (x :: r))) by lia.
    rewrite Z.mod_small
      by (unfold size, npos in *; change size_modulus with (2 ^ 64)%Z in *; lia).
    unfold erase_from. destruct (Z.leb_spec (Z.of_nat (length (x :: r))) (size s))
      as [_|H]; [|unfold size in H; lia].
    rewrite Nat2Z.id, Hfirst. unfold bind.
    rewrite erase_front_spec by exact Hr. reflexivity.
Qed.

Lemma strip_right_id (s : str) : first_ok (rev s) = true -> strip_right s = s.
Proof.
  induction s as [|c s IH]; simpl; [discriminate|].
  destruct s as [|c' s'].
  - simpl. unfold first_ok. destruct (is_space c); [discriminate | reflexivity].
  - intros H.
    assert (H' : first_ok (rev (c' :: s')) = true).
    { destruct (rev (c' :: s')) as [|y l] eqn:E.
      - apply (f_equal (@length ascii)) in E. rewrite length_rev in E.
        discriminate.
      - exact H. }
    rewrite (IH H'). reflexivity.
Qed.

Lemma trimmed_name (s : str) :
  first_ok s = true -> first_ok (rev s) = true -> trimmed s = s.
Proof.
  intros H1 H2. unfold trimmed. rewrite (strip_right_id s H2).
  destruct s as [|c s]; [reflexivity|]. simpl in *.
  destruct (is_space c); [discriminate | reflexivity].
Qed.

(** ** The specification-level functions do what their names say *)

Lemma strip_left_spec (s : str) :
  exists a,
    s = a ++ strip_left s /\ forallb is_space a = true /\
    (strip_left s = [] \/ first_ok (strip_left s) = true).
Proof.
  induction s as [|c s (a & E & Ha & Hs)]; cbn [strip_left].
  - exists []. repeat split; auto.
  - destruct (is_space c) eqn:Ec.
    + exists (c :: a). cbn [app forallb]. rewrite <- E, Ec, Ha.
      repeat split; auto.
    + exists []. cbn [app forallb first_ok]. rewrite Ec. repeat split; auto.
Qed.

Lemma strip_right_spec (s : str) :
  exists b,
    s = strip_right s ++ b /\ forallb is_space b = true /\
    (strip_right s = [] \/ first_ok (rev (strip_right s)) = true).
Proof.
  induction s as [|c s (b & E & Hb & Hs)]; cbn [strip_right].
  - exists []. repeat split; auto.
  - destruct (strip_right s) as [|x r] eqn:Er.
    + cbn [app] in E. destruct (is_space c) eqn:Ec.
      * exists (c :: b). cbn [app forallb]. rewrite Ec, Hb, E.
        repeat split; auto.
      * exists b. cbn [app]. rewrite E. repeat split; auto.
        right. cbn [rev app first_ok]. rewrite Ec. reflexivity.
    + exists b. cbn [app] in *. rewrite <- E. repeat split; auto.
      right. destruct Hs as [Hs|Hs]; [discriminate|].
      cbn [rev] in *. destruct (rev r ++ [x]) as [|y l] eqn:El.
      * apply (f_equal (@length ascii)) in El. rewrite length_app in El.
        cbn [length] in El. lia.
      * exact Hs.
Qed.

(** [trimmed s] is [s] without a run of whitespace at each end, and it
    is empty or begins and ends with a byte that is not whitespace. *)
Lemma trimmed_spec (s : str) :
  exists a b,
    s = a ++ trimmed s ++ b /\
    forallb is_space a = true /\ forallb is_space b = true /\
    (trimmed s = [] \/
     (first_ok (trimmed s) = true /\ first_ok (rev (trimmed s)) = true)).
Proof.
  unfold trimmed.
  destruct (strip_right_spec s) as (b & Eb & Hb & Hr).
  destruct (strip_left_spec (strip_right s)) as (a & Ea & Ha & Hl).
  exists a, b. split; [rewrite app_assoc, <- Ea; exact Eb|].
  split; [exact Ha|]. split; [exact Hb|].
  destruct Hl as [Hl|Hl]; [left; exact Hl|]. right. split; [exact Hl|].
  destruct Hr as [Hr|Hr]; [rewrite Hr in Hl; discriminate|].
  rewrite Ea, rev_app_distr in Hr.
  destruct (rev (strip_left (strip_right s))) as [|y l] eqn:El.
  - apply (f_equal (@rev ascii)) in El. rewrite rev_involutive in El.
    rewrite El in Hl. discriminate.
  - exact Hr.
Qed.

(** The pieces of [split_nl s] hold no newline, and [s] is the pieces
    with one newline between neighbours. *)
Lemma split_nl_spec (s : str) :
  Forall (fun l => ~ In nl l) (split_nl s) /\
  side_by_side [nl] (split_nl s) = s.
Proof.
  induction s as [|c s [IH1 IH2]]; cbn [split_nl].
  - split; [repeat constructor; auto | reflexivity].
  - destruct (Ascii.eqb_spec c nl) as [->|Hc].
    + split; [constructor; auto|].
      destruct (split_nl s) as [|l ls] eqn:E; cbn [side_by_side app] in *;
        [subst s; discriminate E | rewrite IH2; reflexivity].
    + destruct (split_nl s) as [|l ls] eqn:E.
      * cbn [side_by_side] in IH2. subst s. discriminate E.
      * pose proof (Forall_inv IH1) as Hl.
        pose proof (Forall_inv_tail IH1) as Hls.
        split; [constructor; [intros [H|H]; auto | exact Hls]|].
        destruct ls as [|l' ls]; cbn [side_by_side app] in *;
          rewrite IH2; reflexivity.
Qed.

(** ** Reading a source *)

Lemma getline_scan_spec (fin : str) :
  exists ls,
    split_nl fin = fst (getline_scan fin) :: ls /\
    (ls = split_nl (snd (getline_scan fin))
     \/ (ls = [] /\ snd (getline_scan fin) = [])) /\
    (length (snd (getline_scan fin)) <= pred (length fin))%nat.
Proof.
  induction fin as [|c fin (ls & IH1 & IH2 & IH3)]; simpl.
  - exists []. split; [reflexivity|]. split; [right; split; reflexivity | lia].
  - destruct (Ascii.eqb c nl).
    + exists (split_nl fin). simpl. split; [reflexivity|].
      split; [left; reflexivity | lia].
    + rewrite IH1. destruct (getline_scan fin) as [line rest]. simpl in *.
      exists ls. split; [reflexivity|]. split; [exact IH2 | lia].
Qed.

Lemma entries_of_cons (line : str) (ls : list str) :
  filter (fun l => negb (empty l)) (map trimmed (line :: ls)) =
  keep (trimmed line) ++ filter (fun l => negb (empty l)) (map trimmed ls).
Proof.
  simpl. unfold keep. destruct (empty (trimmed line)); reflexivity.
Qed.

Lemma read_loop_spec (fuel : nat) :
  forall (fin : str) (vec : list str),
    (length fin < fuel)%nat ->
    Forall (fun l => (size l <= max_size)%Z) (split_nl fin) ->
    read_loop fuel fin vec = Some (vec ++ entries_of fin).
Proof.
  induction fuel as [|fuel IH]; intros fin vec Hfuel Hfit; [lia|].
  destruct fin as [|c fin'].
  - simpl. rewrite app_nil_r. reflexivity.
  - cbn [read_loop getline].
    destruct (getline_scan_spec (c :: fin')) as (ls & E & Hls & Hlen).
    destruct (getline_scan (c :: fin')) as [line rest]. cbn [fst snd] in *.
    rewrite E in Hfit. inversion Hfit as [|? ? Hline Hrest]; subst.
    rewrite (Trim_spec line Hline). cbn [bind].
    unfold entries_of at 1. rewrite E, entries_of_cons.
    rewrite IH.
    + f_equal. unfold keep.
      assert (Hent : filter (fun l => negb (empty l)) (map trimmed ls)
                     = entries_of rest).
      { destruct Hls as [->|[-> ->]]; reflexivity. }
      rewrite Hent.
      destruct (empty (trimmed line)); [reflexivity|].
      rewrite <- app_assoc. reflexivity.
    + simpl in Hlen, Hfuel. lia.
    + destruct Hls as [->|[-> ->]]; [exact Hrest|].
      repeat constructor. unfold size, max_size. simpl. lia.
Qed.

Lemma load_file_spec (file : option str) (vec : list str) :
  lines_fit file -> load_file file vec = Some (vec ++ entries file).
Proof.
  destruct file as [content|]; cbn [lines_fit load_file entries]; intros H.
  - apply read_loop_spec; [lia|].
    eapply Forall_impl; [|exact H]. cbn beta. intros l Hl. lia.
  - rewrite app_nil_r. reflexivity.
Qed.

Lemma LoadData_entries (m : Model.t) (d : Disk) :
  lines_fit (classes_txt d) -> lines_fit (students_txt d) ->
  LoadData m d =
    Some {| classes := classes m ++ entries (classes_txt d);
            students := students m ++ entries (students_txt d) |}.
Proof.
  intros Hc Hs. unfold LoadData.
  rewrite (load_file_spec _ _ Hc), (load_file_spec _ _ Hs). reflexivity.
Qed.

(** C8.  When every line of the two sources fits a string, [LoadData]
    raises nothing and appends to each list the entries of its source:
    the pieces between the newlines, each trimmed of leading and
    trailing whitespace, those that are empty after trimming left out,
    in the order of the file; a source that cannot be opened
    contributes no entry.  The constructor, which loads into empty
    lists, so yields exactly the entries of the two sources. *)
Theorem LoadData_reads_entries (m : Model.t) (d : Disk) :
  lines_fit (classes_txt d) -> lines_fit (students_txt d) ->
  LoadData m d =
    Some {| classes := classes m ++ entries (classes_txt d);
            students := students m ++ entries (students_txt d) |} /\
  Model.new d =
    Some {| classes := entries (classes_txt d);
            students := entries (students_txt d) |} /\
  (classes_txt d = None -> students_txt d = None -> Model.new d = Some fresh).
Proof.
  intros Hc Hs. split; [apply LoadData_entries; assumption|].
  assert (E : Model.new d =
    Some {| classes := entries (classes_txt d);
            students := entries (students_txt d) |})
    by (unfold Model.new; rewrite LoadData_entries by assumption; reflexivity).
  split; [exact E|].
  intros E1 E2. rewrite E, E1, E2. reflexivity.
Qed.

Lemma LoadData_reads_entries_witness :
  Model.new disk1 =
    Some {| classes := [lit "Math"; lit "Art"; lit "Modern Dance"];
            students := [] |}.
Proof.
  refine (proj1 (proj2 (LoadData_reads_entries fresh disk1 _ _))).
  - repeat constructor; unfold size, max_size; simpl; lia.
  - exact I.
Defined.

(** ** Saving, then loading *)

Lemma write_lines_unlines (vec : list str) :
  forall fout : str, write_lines vec fout = fout ++ unlines vec.
Proof.
  unfold write_lines, unlines.
  induction vec as [|c vec IH]; intros fout; simpl.
  - rewrite app_nil_r. reflexivity.
  - rewrite IH. repeat rewrite <- app_assoc. reflexivity.
Qed.

Lemma split_nl_line (x rest : str) :
  ~ In nl x -> split_nl (x ++ nl :: rest) = x :: split_nl rest.
Proof.
  induction x as [|c x IH]; intros H; cbn [app split_nl].
  - rewrite Ascii.eqb_refl. reflexivity.
  - destruct (Ascii.eqb_spec c nl) as [->|_]; [exfalso; apply H; left; reflexivity|].
    rewrite IH by (intros Hin; apply H; right; exact Hin). reflexivity.
Qed.

Lemma split_nl_unlines (names : list str) :
  Forall name names -> split_nl (unlines names) = names ++ [[]].
Proof.
  unfold unlines. induction 1 as [|x names (_ & _ & Hnl & _) _ IH]; simpl.
  - reflexivity.
  - rewrite <- app_assoc. simpl. rewrite (split_nl_line _ _ Hnl), IH.
    reflexivity.
Qed.

Lemma entries_of_unlines (names : list str) :
  Forall name names -> entries_of (unlines names) = names.
Proof.
  intros H. unfold entries_of. rewrite (split_nl_unlines names H).
  induction H as [|x names (H1 & H2 & _ & _) _ IH]; simpl; [reflexivity|].
  rewrite (trimmed_name x H1 H2).
  destruct x as [|c x]; [discriminate|]. simpl. f_equal. exact IH.
Qed.

Lemma lines_fit_unlines (names : list str) :
  Forall name names -> lines_fit (Some (unlines names)).
Proof.
  intros H. simpl. rewrite (split_nl_unlines names H).
  apply Forall_app. split.
  - eapply Forall_impl; [|exact H]. intros x (_ & _ & _ & Hx). exact Hx.
  - constructor; [reflexivity | constructor].
Qed.

(** C3.  For a roster whose entries are Names (non-empty, without
    leading or trailing whitespace, without newline, each fitting a
    string), when both files can be opened for writing, [SaveData]
    followed by a load into a new [Model] from the same two files
    raises nothing and gives back both lists, entry for entry and in
    the same order. *)
Theorem save_then_load (m : Model.t) (d : Disk) :
  Forall name (classes m) ->
  Forall name (students m) ->
  classes_writable d = true ->
  students_writable d = true ->
  Model.new (SaveData m d) = Some m.
Proof.
  intros Hc Hs Wc Ws. unfold Model.new.
  assert (Ec : classes_txt (SaveData m d) = Some (unlines (classes m)))
    by (simpl; rewrite Wc, write_lines_unlines; reflexivity).
  assert (Es : students_txt (SaveData m d) = Some (unlines (students m)))
    by (simpl; rewrite Ws, write_lines_unlines; reflexivity).
  rewrite LoadData_entries.
  - rewrite Ec, Es. simpl.
    rewrite (entries_of_unlines _ Hc), (entries_of_unlines _ Hs).
    destruct m; reflexivity.
  - rewrite Ec. apply lines_fit_unlines; exact Hc.
  - rewrite Es. apply lines_fit_unlines; exact Hs.
Qed.

Ltac name_ok :=
  repeat constructor; unfold size, max_size; simpl;
  try lia; intuition discriminate.

Lemma save_then_load_witness : Model.new (SaveData roster1 disk0) = Some roster1.
Proof.
  apply (save_then_load roster1 disk0).
  - name_ok.
  - name_ok.
  - reflexivity.
  - reflexivity.
Defined.

(** ** Machine arithmetic *)

Local Open Scope Z_scope.

Lemma to_size_small (z : Z) : 0 <= z < size_modulus -> to_size z = z.
Proof. intros H. unfold to_size. apply Z.mod_small. exact H. Qed.

Lemma to_size_neg (z : Z) :
  - size_modulus <= z < 0 -> to_size z = z + size_modulus.
Proof.
  intros H. unfold to_size. symmetry.
  apply (Z.mod_unique z size_modulus (-1) (z + size_modulus)); lia.
Qed.

Lemma to_int_small (z : Z) : - 2 ^ 31 <= z <= INT_MAX -> to_int z = z.
Proof.
  unfold to_int, INT_MAX, int_modulus. intros H.
  rewrite Z.mod_small by lia. lia.
Qed.

Lemma to_int_range (z : Z) : - 2 ^ 31 <= to_int z <= INT_MAX.
Proof.
  unfold to_int, INT_MAX, int_modulus.
  pose proof (Z.mod_pos_bound (z + 2 ^ 31) (2 ^ 32) ltac:(lia)). lia.
Qed.

Lemma fill_small (n : Z) (c : ascii) :
  0 <= n <= max_size -> fill (to_size n) c = Some (repeat c (Z.to_nat n)).
Proof.
  intros H. rewrite to_size_small
    by (unfold max_size, size_modulus in *; lia).
  unfold fill. destruct (Z.leb_spec n max_size); [reflexivity | lia].
Qed.

Lemma fill_ok (n : Z) (c : ascii) :
  0 <= n <= max_size -> fill n c = Some (repeat c (Z.to_nat n)).
Proof.
  intros H. unfold fill. destruct (Z.leb_spec n max_size); [reflexivity | lia].
Qed.

Lemma fill_negative (n : Z) (c : ascii) :
  - 2 ^ 63 <= n < 0 -> fill (to_size n) c = None.
Proof.
  intros H. rewrite to_size_neg by (unfold size_modulus; lia).
  unfold fill. destruct (Z.leb_spec (n + size_modulus) max_size) as [H'|];
    [|reflexivity].
  unfold size_modulus, max_size in H'. lia.
Qed.

Lemma size_nonneg (s : str) : 0 <= size s.
Proof. unfold size. lia. Qed.

Lemma size_app (a b : str) : size (a ++ b) = size a + size b.
Proof. unfold size. rewrite length_app. lia. Qed.

Lemma size_repeat (c : ascii) (n : Z) : 0 <= n -> size (repeat c (Z.to_nat n)) = n.
Proof. intros H. unfold size. rewrite repeat_length. lia. Qed.

(** ** The title row *)

Lemma titlePadLeft_fits (title : str) :
  size title <= cardWidth - 2 ->
  titlePadLeft title = (cardWidth - 2 - size title) / 2.
Proof.
  intros H. pose proof (size_nonneg title) as H0.
  unfold titlePadLeft, cardWidth in *.
  rewrite to_size_small by (unfold size_modulus; lia).
  apply to_int_small. unfold INT_MAX.
  assert (0 <= (50 - 2 - size title) / 2 <= 24)
    by (split; [apply Z.div_pos; lia | apply Z.div_le_upper_bound; lia]).
  lia.
Qed.

Lemma titlePadRight_fits (title : str) :
  size title <= cardWidth - 2 ->
  titlePadRight title =
    cardWidth - 2 - size title - (cardWidth - 2 - size title) / 2.
Proof.
  intros H. pose proof (size_nonneg title) as H0.
  unfold titlePadRight. rewrite (titlePadLeft_fits title H).
  unfold cardWidth in *.
  assert (0 <= (50 - 2 - size title) / 2 <= 24)
    by (split; [apply Z.div_pos; lia | apply Z.div_le_upper_bound; lia]).
  assert ((50 - 2 - size title) / 2 * 2 <= 50 - 2 - size title)
    by (rewrite Z.mul_comm; apply Z.mul_div_le; lia).
  rewrite (to_size_small (50 - 2 - size title)) by (unfold size_modulus; lia).
  rewrite (to_size_small ((50 - 2 - size title) / 2))
    by (unfold size_modulus; lia).
  rewrite to_size_small by (unfold size_modulus; lia).
  apply to_int_small. unfold INT_MAX. lia.
Qed.

Lemma half_bounds (k : Z) :
  0 <= k -> 0 <= k / 2 /\ 0 <= k - k / 2 /\
  (Z.odd k = true -> k - k / 2 = k / 2 + 1) /\
  (Z.even k = true -> k - k / 2 = k / 2).
Proof.
  intros H. pose proof (Z.div_mod k 2 ltac:(lia)) as E.
  pose proof (Z.mod_pos_bound k 2 ltac:(lia)) as B.
  rewrite Zodd_mod, Zeven_mod.
  repeat split; lia.
Qed.

Lemma title_line_fits (title : str) :
  size title <= cardWidth - 2 ->
  title_line title =
    Some (bar ++ repeat sp (Z.to_nat (titlePadLeft title)) ++ COLOR_BOLD
          ++ title ++ COLOR_RESET
          ++ repeat sp (Z.to_nat (titlePadRight title)) ++ bar).
Proof.
  intros H. pose proof (size_nonneg title) as H0.
  destruct (half_bounds (cardWidth - 2 - size title) ltac:(lia))
    as (B1 & B2 & _).
  assert (cardWidth - 2 - size title <= 48) by (unfold cardWidth in *; lia).
  assert ((cardWidth - 2 - size title) / 2 <= 48)
    by (apply Z.div_le_upper_bound; lia).
  unfold title_line.
  rewrite fill_small
    by (rewrite titlePadLeft_fits by exact H; unfold max_size; lia).
  rewrite fill_small
    by (rewrite titlePadRight_fits by exact H; unfold max_size; lia).
  reflexivity.
Qed.

Lemma cardPads_fit (title : str) :
  size title <= cardWidth - 2 ->
  cardPadLeft cardWidth title = titlePadLeft title /\
  cardPadRight cardWidth title = titlePadRight title.
Proof.
  intros H. pose proof (size_nonneg title) as H0.
  rewrite (titlePadLeft_fits title H), (titlePadRight_fits title H).
  unfold cardPadLeft, cardPadRight.
  assert (cardWidth - 2 - size title <= 48) by (unfold cardWidth in *; lia).
  rewrite (to_size_small (cardWidth - 2 - size title))
    by (unfold size_modulus; lia).
  rewrite to_size_small by (unfold size_modulus; lia).
  split; [reflexivity|].
  pose proof (Z.div_mod (cardWidth - 2 - size title) 2 ltac:(lia)).
  pose proof (Z.mod_pos_bound (cardWidth - 2 - size title) 2 ltac:(lia)).
  pose proof (Z.div_mod (cardWidth - 2 - size title + 1) 2 ltac:(lia)).
  pose proof (Z.mod_pos_bound (cardWidth - 2 - size title + 1) 2 ltac:(lia)).
  lia.
Qed.


(** ** Content rows *)

Lemma content_line_short (line : str) :
  size line <= cardWidth - 3 ->
  content_line line =
    Some (bar ++ [sp] ++ line
          ++ repeat sp (Z.to_nat (cardWidth - 3 - size line)) ++ bar).
Proof.
  intros H. pose proof (size_nonneg line) as H0.
  unfold content_line, cardWidth in *.
  rewrite (to_int_small (size line)) by (unfold INT_MAX; lia).
  destruct (Z.gtb_spec (size line) (50 - 3)) as [Hgt|_]; [lia|].
  rewrite (to_size_small (50 - 3 - size line)) by (unfold size_modulus; lia).
  rewrite to_int_small by (unfold INT_MAX; lia).
  rewrite fill_small by (unfold max_size; lia).
  reflexivity.
Qed.

Lemma size_truncated (line : str) :
  cardWidth - 3 < size line ->
  size (substr0 line (to_size (cardWidth - 6)) ++ lit "...") = cardWidth - 3.
Proof.
  intros H. change (to_size (cardWidth - 6)) with 44.
  unfold substr0, cardWidth, size in *.
  rewrite length_app, length_firstn.
  change (length (lit "...")) with 3%nat. lia.
Qed.

Lemma content_line_long (line : str) :
  cardWidth - 3 < size line ->
  size line <= INT_MAX ->
  content_line line =
    Some (bar ++ [sp]
          ++ (firstn (Z.to_nat (cardWidth - 6)) line ++ lit "...") ++ bar).
Proof.
  intros H Hmax. unfold content_line.
  rewrite (to_int_small (size line))
    by (unfold INT_MAX, cardWidth in *; lia).
  destruct (Z.gtb_spec (size line) (cardWidth - 3)) as [_|Hle]; [|lia].
  rewrite (size_truncated line H).
  replace (cardWidth - 3 - (cardWidth - 3)) with 0 by lia.
  reflexivity.
Qed.

(** A line whose size does not fit [int] is not truncated: the cast
    [(int)content.size()] is negative, and so is [padRight]. *)
Lemma content_line_overflow (line : str) :
  size line = 2 ^ 31 -> content_line line = None.
Proof.
  intros H. unfold content_line. rewrite H.
  replace (to_int (2 ^ 31) >? cardWidth - 3) with false by reflexivity.
  rewrite H.
  replace (to_size (to_int (to_size (cardWidth - 3 - 2 ^ 31))))
    with (size_modulus - 2 ^ 31 + 47) by reflexivity.
  unfold fill.
  replace (size_modulus - 2 ^ 31 + 47 <=? max_size) with false by reflexivity.
  reflexivity.
Qed.

Lemma nth_in_firstn3 (body : list str) (k : nat) :
  (k < 3)%nat -> (k < length body)%nat -> In (nth k body []) (firstn 3 body).
Proof.
  intros H3 Hk.
  destruct body as [|a [|b [|c r]]]; destruct k as [|[|[|k]]];
    simpl in *; auto; lia.
Qed.

Lemma content_slot_index (body : list str) (ln : Z) :
  0 <= ln < contentLines ->
  (ln <? to_int (Z.of_nat (length body))) = true ->
  (Z.to_nat ln < 3)%nat /\ (Z.to_nat ln < length body)%nat.
Proof.
  unfold contentLines. intros Hln Hlt. apply Z.ltb_lt in Hlt.
  split; [lia|].
  destruct (Z_lt_le_dec ln (Z.of_nat (length body))) as [H|H]; [lia|].
  rewrite to_int_small in Hlt by (unfold INT_MAX; lia). lia.
Qed.

Lemma content_slot_present (body : list str) (ln : nat) (line : str) :
  (length body <= 3)%nat ->
  nth_error body ln = Some line ->
  content_slot body (Z.of_nat ln) = content_line line.
Proof.
  intros Hlen Hnth. unfold content_slot.
  assert (Hlt : (ln < length body)%nat)
    by (apply nth_error_Some; rewrite Hnth; discriminate).
  rewrite to_int_small by (unfold INT_MAX; lia).
  destruct (Z.ltb_spec (Z.of_nat ln) (Z.of_nat (length body))) as [_|H]; [|lia].
  rewrite Nat2Z.id. rewrite (nth_error_nth body ln [] Hnth). reflexivity.
Qed.

Lemma size_huge_line : size huge_line = 2 ^ 31.
Proof. unfold huge_line. apply size_repeat. lia. Qed.

(** Beyond the range of [int] the length test fails its own comment
    ("truncate content if too long"): a body line of 2^31 bytes is
    longer than [W - 3], and it is not rendered as 44 bytes and three
    dots: the renderer raises. *)
Lemma body_line_not_truncated :
  cardWidth - 3 < size huge_line /\
  content_slot [huge_line] 0 = None.
Proof.
  split.
  - rewrite size_huge_line. reflexivity.
  - unfold content_slot.
    replace (0 <? to_int (Z.of_nat (length [huge_line]))) with true
      by reflexivity.
    change (nth (Z.to_nat 0) [huge_line] []) with huge_line.
    apply content_line_overflow. exact size_huge_line.
Qed.

(** ** Printable width *)

Lemma printable_not_ESC (c : ascii) :
  printable c = true -> Ascii.eqb c ESC = false.
Proof.
  intros H. destruct (Ascii.eqb_spec c ESC) as [->|_]; [|reflexivity].
  vm_compute in H. discriminate.
Qed.

Lemma printable_not_continuation (c : ascii) :
  printable c = true -> continuation c = false.
Proof.
  unfold printable, continuation. intros H.
  apply andb_true_iff in H. destruct H as [_ H]. apply Nat.leb_le in H.
  destruct (Nat.leb_spec 128 (nat_of_ascii c)); [lia | reflexivity].
Qed.

Lemma plain_app (a b : str) : plain a -> plain b -> plain (a ++ b).
Proof.
  unfold plain. intros Ha Hb. rewrite forallb_app, Ha, Hb. reflexivity.
Qed.

Lemma plain_repeat (c : ascii) (n : nat) :
  printable c = true -> plain (repeat c n).
Proof.
  intros H. unfold plain. induction n as [|n IH]; simpl; [reflexivity|].
  rewrite H, IH. reflexivity.
Qed.

Lemma plain_firstn (n : nat) (s : str) : plain s -> plain (firstn n s).
Proof.
  unfold plain. revert s. induction n as [|n IH]; intros [|c s]; simpl;
    try reflexivity.
  intros H. apply andb_true_iff in H. destruct H as [Hc Hs].
  rewrite Hc, (IH s Hs). reflexivity.
Qed.

Lemma visible_plain (s rest : str) :
  plain s -> visible_from Text (s ++ rest) = s ++ visible_from Text rest.
Proof.
  unfold plain. induction s as [|c s IH]; cbn [app forallb visible_from];
    [reflexivity|].
  intros H. apply andb_true_iff in H. destruct H as [Hc Hs].
  rewrite (printable_not_ESC c Hc), (IH Hs). reflexivity.
Qed.

Lemma columns_app (a b : str) : columns (a ++ b) = (columns a + columns b)%nat.
Proof. unfold columns. rewrite filter_app, length_app. reflexivity. Qed.

Lemma columns_plain (s : str) : plain s -> columns s = length s.
Proof.
  unfold plain, columns. induction s as [|c s IH]; cbn [forallb filter length];
    [reflexivity|].
  intros H. apply andb_true_iff in H. destruct H as [Hc Hs].
  rewrite (printable_not_continuation c Hc). cbn [negb length].
  rewrite (IH Hs). reflexivity.
Qed.

Lemma visible_bar (rest : str) :
  visible_from Text (bar ++ rest) = bar ++ visible_from Text rest.
Proof. reflexivity. Qed.

Lemma visible_bold (rest : str) :
  visible_from Text (COLOR_BOLD ++ rest) = visible_from Text rest.
Proof. reflexivity. Qed.

Lemma visible_reset (rest : str) :
  visible_from Text (COLOR_RESET ++ rest) = visible_from Text rest.
Proof. reflexivity. Qed.

Lemma visible_gray (rest : str) :
  visible_from Text (COLOR_GRAY ++ rest) = visible_from Text rest.
Proof. reflexivity. Qed.

(** A row of plain text between the two borders. *)
Lemma width_framed (mid : str) :
  plain mid -> printable_width (bar ++ mid ++ bar) = (2 + length mid)%nat.
Proof.
  intros H. unfold printable_width, visible.
  rewrite visible_bar, (visible_plain mid bar H).
  change (visible_from Text bar) with bar.
  rewrite !columns_app, (columns_plain mid H).
  change (columns bar) with 1%nat. lia.
Qed.

Lemma width_title_row (left title right : str) :
  plain left -> plain title -> plain right ->
  printable_width
    (bar ++ left ++ COLOR_BOLD ++ title ++ COLOR_RESET ++ right ++ bar) =
  (2 + length left + length title + length right)%nat.
Proof.
  intros Hl Ht Hr. unfold printable_width, visible.
  rewrite visible_bar, (visible_plain left _ Hl), visible_bold,
    (visible_plain title _ Ht), visible_reset, (visible_plain right bar Hr).
  change (visible_from Text bar) with bar.
  rewrite !columns_app, (columns_plain left Hl), (columns_plain title Ht),
    (columns_plain right Hr).
  change (columns bar) with 1%nat. lia.
Qed.

Lemma width_title_line (title : str) :
  size title <= cardWidth - 2 -> plain title ->
  exists row,
    title_line title = Some row /\ Z.of_nat (printable_width row) = cardWidth.
Proof.
  intros H Hp. eexists. split; [apply title_line_fits; exact H|].
  rewrite width_title_row
    by first [ exact Hp | apply plain_repeat; reflexivity ].
  rewrite !repeat_length.
  rewrite (titlePadLeft_fits title H), (titlePadRight_fits title H).
  pose proof (size_nonneg title).
  destruct (half_bounds (cardWidth - 2 - size title) ltac:(lia)) as (B1 & B2 & _).
  unfold size in *. lia.
Qed.

Lemma width_content_row (content pad : str) :
  plain content -> plain pad ->
  printable_width (bar ++ [sp] ++ content ++ pad ++ bar) =
  (3 + length content + length pad)%nat.
Proof.
  intros Hc Hp.
  replace (bar ++ [sp] ++ content ++ pad ++ bar)
    with (bar ++ ([sp] ++ content ++ pad) ++ bar)
    by (rewrite <- !app_assoc; reflexivity).
  rewrite width_framed
    by (apply plain_app; [reflexivity|]; apply plain_app; assumption).
  rewrite !length_app. change (length [sp]) with 1%nat. lia.
Qed.

Lemma width_content_line (line : str) :
  plain line -> size line <= INT_MAX ->
  exists row,
    content_line line = Some row /\ Z.of_nat (printable_width row) = cardWidth.
Proof.
  intros Hp Hmax. pose proof (size_nonneg line) as H0.
  destruct (Z_lt_le_dec (cardWidth - 3) (size line)) as [Hlong|Hshort].
  - eexists. split; [apply content_line_long; assumption|].
    pose proof (size_truncated line Hlong) as Hsz.
    change (to_size (cardWidth - 6)) with (cardWidth - 6) in Hsz.
    unfold substr0, size in Hsz.
    change (Z.of_nat (printable_width
              (bar ++ [sp]
               ++ (firstn (Z.to_nat (cardWidth - 6)) line ++ lit "...")
               ++ [] ++ bar)) = cardWidth).
    rewrite width_content_row
      by first [ reflexivity
               | apply plain_app; [apply plain_firstn; exact Hp | reflexivity] ].
    cbn [length]. lia.
  - eexists. split; [apply content_line_short; exact Hshort|].
    rewrite width_content_row
      by first [ exact Hp | apply plain_repeat; reflexivity ].
    rewrite repeat_length. unfold size in *. lia.
Qed.

Lemma width_content_slot (body : list str) (ln : Z) :
  0 <= ln < contentLines ->
  Forall fits_row (firstn 3 body) ->
  exists row,
    content_slot body ln = Some row /\ Z.of_nat (printable_width row) = cardWidth.
Proof.
  intros Hln Hbody. unfold content_slot.
  destruct (ln <? to_int (Z.of_nat (length body))) eqn:E.
  - destruct (content_slot_index body ln Hln E) as [H3 Hk].
    pose proof (nth_in_firstn3 body (Z.to_nat ln) H3 Hk) as Hin.
    rewrite Forall_forall in Hbody. destruct (Hbody _ Hin) as [Hp Hmax].
    apply width_content_line; assumption.
  - eexists. split; [reflexivity|]. reflexivity.
Qed.

(** C2, for titles that fit and text of one-column characters.  A card
    whose title has at most [W - 2] bytes, all printable ASCII, and
    whose first three body lines are printable ASCII of at most
    [INT_MAX] bytes, is rendered as exactly seven rows, each of
    printable width [W]. *)
Theorem card_seven_rows_of_width (title : str) (body : list str) :
  size title <= cardWidth - 2 ->
  plain title ->
  Forall fits_row (firstn 3 body) ->
  exists rows,
    card_rows (title, body) = Some rows /\
    length rows = 7%nat /\
    Forall (fun row => Z.of_nat (printable_width row) = cardWidth) rows /\
    exists t s0 s1 s2,
      rows = [top_border; t; blank_row; s0; s1; s2; bottom_border] /\
      title_line title = Some t /\
      content_slot body 0 = Some s0 /\
      content_slot body 1 = Some s1 /\
      content_slot body 2 = Some s2.
Proof.
  intros Ht Hp Hbody.
  destruct (width_title_line title Ht Hp) as (l1 & E1 & W1).
  destruct (width_content_slot body 0 ltac:(unfold contentLines; lia) Hbody)
    as (l3 & E3 & W3).
  destruct (width_content_slot body 1 ltac:(unfold contentLines; lia) Hbody)
    as (l4 & E4 & W4).
  destruct (width_content_slot body 2 ltac:(unfold contentLines; lia) Hbody)
    as (l5 & E5 & W5).
  unfold card_rows. cbn [fst snd]. rewrite E1, E3, E4, E5.
  eexists. split; [reflexivity|]. split; [reflexivity|].
  split.
  - repeat (constructor; [first [assumption | reflexivity]|]). constructor.
  - exists l1, l3, l4, l5. repeat split; reflexivity.
Qed.

Lemma card_seven_rows_of_width_witness :
  exists rows,
    card_rows (lit "Math", [description]) = Some rows /\
    length rows = 7%nat /\
    Forall (fun row => Z.of_nat (printable_width row) = cardWidth) rows.
Proof.
  destruct (card_seven_rows_of_width (lit "Math") [description])
    as (rows & E & L & W & _).
  - vm_compute. discriminate.
  - reflexivity.
  - repeat constructor. vm_compute. discriminate.
  - exists rows. split; [exact E|]. split; [exact L | exact W].
Defined.

(** C2 as stated fails: a title of 49 bytes has no rendering at all,
    and a title of one two-byte character gets a title row that is 49
    columns wide. *)
Lemma card_width_fails :
  card_rows (long_title, []) = None /\
  option_map (map printable_width) (card_rows (e_acute, [])) =
    Some [50; 49; 50; 50; 50; 50; 50]%nat.
Proof. split; reflexivity. Qed.

(** ** The title-length precondition *)

Lemma content_line_defined (line : str) :
  size line <= INT_MAX -> exists row, content_line line = Some row.
Proof.
  intros Hmax.
  destruct (Z_lt_le_dec (cardWidth - 3) (size line)) as [Hlong|Hshort].
  - eexists. apply content_line_long; assumption.
  - eexists. apply content_line_short; assumption.
Qed.

Lemma content_slot_defined (body : list str) (ln : Z) :
  0 <= ln < contentLines ->
  Forall (fun l => size l <= INT_MAX) (firstn 3 body) ->
  exists row, content_slot body ln = Some row.
Proof.
  intros Hln Hbody. unfold content_slot.
  destruct (ln <? to_int (Z.of_nat (length body))) eqn:E.
  - destruct (content_slot_index body ln Hln E) as [H3 Hk].
    pose proof (nth_in_firstn3 body (Z.to_nat ln) H3 Hk) as Hin.
    rewrite Forall_forall in Hbody.
    apply content_line_defined. apply (Hbody _ Hin).
  - eexists. reflexivity.
Qed.

Lemma card_rows_defined (title : str) (body : list str) :
  size title <= cardWidth - 2 ->
  Forall (fun l => size l <= INT_MAX) (firstn 3 body) ->
  exists rows, card_rows (title, body) = Some rows.
Proof.
  intros Ht Hbody.
  destruct (content_slot_defined body 0 ltac:(unfold contentLines; lia) Hbody)
    as (l3 & E3).
  destruct (content_slot_defined body 1 ltac:(unfold contentLines; lia) Hbody)
    as (l4 & E4).
  destruct (content_slot_defined body 2 ltac:(unfold contentLines; lia) Hbody)
    as (l5 & E5).
  unfold card_rows. cbn [fst snd].
  rewrite (title_line_fits title Ht), E3, E4, E5.
  eexists. reflexivity.
Qed.

Lemma title_line_whole (title row : str) :
  title_line title = Some row ->
  exists left right,
    row = bar ++ left ++ COLOR_BOLD ++ title ++ COLOR_RESET ++ right ++ bar.
Proof.
  unfold title_line. intros H.
  destruct (fill (to_size (titlePadLeft title)) sp) as [left|]; [|discriminate].
  destruct (fill (to_size (titlePadRight title)) sp) as [right|];
    [|discriminate].
  cbn [bind] in H. injection H as <-. exists left, right. reflexivity.
Qed.

Lemma title_underflow (title : str) :
  cardWidth - 2 < size title <= max_size ->
  to_size (cardWidth - 2 - size title) =
    size_modulus + (cardWidth - 2 - size title).
Proof.
  intros H. rewrite to_size_neg; [lia|].
  unfold size_modulus, max_size, cardWidth in *. lia.
Qed.

Lemma titlePadLeft_negative (title : str) :
  cardWidth - 2 < size title <= 2 ^ 32 ->
  - 2 ^ 31 <= titlePadLeft title < 0.
Proof.
  intros H. unfold titlePadLeft.
  rewrite title_underflow by (unfold max_size; lia).
  unfold to_int, size_modulus, int_modulus, cardWidth in *.
  set (n := size title) in *.
  assert (E : (2 ^ 64 + (50 - 2 - n)) / 2 + 2 ^ 31 =
              2 ^ 32 * 2 ^ 31 + (2 ^ 31 - (n - 48 + 1) / 2)).
  { pose proof (Z.div_mod (2 ^ 64 + (50 - 2 - n)) 2 ltac:(lia)).
    pose proof (Z.mod_pos_bound (2 ^ 64 + (50 - 2 - n)) 2 ltac:(lia)).
    pose proof (Z.div_mod (n - 48 + 1) 2 ltac:(lia)).
    pose proof (Z.mod_pos_bound (n - 48 + 1) 2 ltac:(lia)).
    lia. }
  rewrite E.
  assert (B : 1 <= (n - 48 + 1) / 2 <= 2 ^ 31).
  { split; [apply Z.div_le_lower_bound; lia|].
    apply Z.div_le_upper_bound; lia. }
  rewrite Z.add_comm, Z.mul_comm, Z_mod_plus_full.
  rewrite Z.mod_small by lia. lia.
Qed.

Lemma title_line_raises (title : str) :
  cardWidth - 2 < size title <= 2 ^ 32 -> title_line title = None.
Proof.
  intros H. unfold title_line.
  rewrite fill_negative; [reflexivity|].
  pose proof (titlePadLeft_negative title H). lia.
Qed.

Lemma DisplayCard_raises (title : str) (lines : list str) :
  cardWidth - 2 < size title <= max_size ->
  DisplayCard title lines cardWidth = None.
Proof.
  intros H. unfold DisplayCard.
  change (fill (to_size (cardWidth - 2)) underscore)
    with (Some (repeat underscore 48)).
  cbn [bind]. unfold cardPadLeft.
  rewrite (title_underflow title H).
  unfold fill.
  destruct (Z.leb_spec ((size_modulus + (cardWidth - 2 - size title)) / 2)
              max_size) as [Hle|_]; [|reflexivity].
  exfalso.
  assert (max_size + 1 <= (size_modulus + (cardWidth - 2 - size title)) / 2).
  { apply Z.div_le_lower_bound; [lia|].
    unfold size_modulus, max_size, cardWidth in *. lia. }
  lia.
Qed.

Lemma fill_int_count (p : Z) (c : ascii) :
  - 2 ^ 31 <= p <= INT_MAX ->
  ((exists s, fill (to_size p) c = Some s) <-> 0 <= p).
Proof.
  intros R. split.
  - intros [s E]. destruct (Z_lt_le_dec p 0) as [Hn|Hp]; [|exact Hp].
    rewrite fill_negative in E by lia. discriminate E.
  - intros Hp. rewrite fill_small by (unfold max_size, INT_MAX in *; lia).
    eexists. reflexivity.
Qed.

Lemma title_line_defined_iff (title : str) :
  (exists row, title_line title = Some row) <->
  0 <= titlePadLeft title /\ 0 <= titlePadRight title.
Proof.
  assert (RL : - 2 ^ 31 <= titlePadLeft title <= INT_MAX)
    by apply to_int_range.
  assert (RR : - 2 ^ 31 <= titlePadRight title <= INT_MAX)
    by apply to_int_range.
  unfold title_line. split.
  - intros [row E].
    destruct (fill (to_size (titlePadLeft title)) sp) as [left|] eqn:EL;
      cbn [bind] in E; [|discriminate E].
    destruct (fill (to_size (titlePadRight title)) sp) as [right|] eqn:ER;
      cbn [bind] in E; [|discriminate E].
    split.
    + apply (fill_int_count _ sp RL). exists left. exact EL.
    + apply (fill_int_count _ sp RR). exists right. exact ER.
  - intros [HL HR].
    rewrite !fill_small by (unfold max_size, INT_MAX in *; lia).
    eexists. reflexivity.
Qed.

(** C9.  For a title of at most [W - 2] bytes the two repeat counts of
    the title row are nonnegative and the title row is rendered, as is
    the whole card when its first three body lines fit [int].  A
    title row that is rendered holds the whole title, whatever its
    length: the renderer never truncates a title.  The title row is
    rendered exactly when the two repeat counts, as the [int] values
    they are stored in, are nonnegative.  For a title longer than
    [W - 2] the unsigned subtraction [cardWidth - 2 - size] wraps
    around: [DisplayCard] raises for every such title; a title row that
    the grid renders for one is wider than [W]; and for every such
    title up to 2^32 bytes the left repeat count is negative, so the
    title row, and with it the card, raises. *)
Theorem title_padding_safe (title : str) :
  (size title <= cardWidth - 2 ->
     0 <= titlePadLeft title /\ 0 <= titlePadRight title /\
     (exists row, title_line title = Some row) /\
     (forall body,
        Forall (fun l => size l <= INT_MAX) (firstn 3 body) ->
        exists rows, card_rows (title, body) = Some rows)) /\
  (forall row,
     title_line title = Some row ->
     exists left right,
       row = bar ++ left ++ COLOR_BOLD ++ title ++ COLOR_RESET ++ right ++ bar) /\
  ((exists row, title_line title = Some row) <->
   0 <= titlePadLeft title /\ 0 <= titlePadRight title) /\
  (cardWidth - 2 < size title <= max_size ->
     to_size (cardWidth - 2 - size title) =
       size_modulus + (cardWidth - 2 - size title) /\
     (forall lines, DisplayCard title lines cardWidth = None) /\
     (forall row,
        title_line title = Some row ->
        exists left right,
          row = bar ++ left ++ COLOR_BOLD ++ title ++ COLOR_RESET
                ++ right ++ bar /\
          cardWidth - 2 < size left + size title + size right) /\
     (size title <= 2 ^ 32 ->
        titlePadLeft title < 0 /\
        title_line title = None /\
        forall body, card_rows (title, body) = None)).
Proof.
  split; [|split; [|split]].
  - intros H. pose proof (size_nonneg title) as H0.
    rewrite (titlePadLeft_fits title H), (titlePadRight_fits title H).
    destruct (half_bounds (cardWidth - 2 - size title) ltac:(lia))
      as (B1 & B2 & _).
    split; [exact B1|]. split; [exact B2|].
    split; [eexists; apply title_line_fits; exact H|].
    intros body Hbody. apply card_rows_defined; assumption.
  - apply title_line_whole.
  - apply title_line_defined_iff.
  - intros H. split; [apply title_underflow; exact H|].
    split; [intros lines; apply DisplayCard_raises; exact H|].
    split.
    { intros row Hrow.
      destruct (title_line_whole title row Hrow) as (left & right & E).
      exists left, right. split; [exact E|].
      pose proof (size_nonneg left). pose proof (size_nonneg right). lia. }
    intros H32.
    assert (H' : cardWidth - 2 < size title <= 2 ^ 32) by lia.
    split; [apply titlePadLeft_negative; exact H'|].
    split; [apply title_line_raises; exact H'|].
    intros body. unfold card_rows. cbn [fst snd].
    rewrite (title_line_raises title H').
    destruct (border top_left top_right); reflexivity.
Qed.

Lemma title_padding_safe_witness :
  (0 <= titlePadLeft (lit "Math") /\ 0 <= titlePadRight (lit "Math") /\
   (exists row, title_line (lit "Math") = Some row) /\
   (forall body,
      Forall (fun l => size l <= INT_MAX) (firstn 3 body) ->
      exists rows, card_rows (lit "Math", body) = Some rows)) /\
  (titlePadLeft long_title < 0 /\
   title_line long_title = None /\
   forall body, card_rows (long_title, body) = None).
Proof.
  split.
  - apply (proj1 (title_padding_safe (lit "Math"))).
    vm_compute. discriminate.
  - refine (proj2 (proj2 (proj2 (proj2 (proj2 (proj2
              (title_padding_safe long_title))) _))) _).
    + split; vm_compute; [reflexivity | discriminate].
    + vm_compute. discriminate.
Defined.

(** ** The grid *)

Lemma card_rows_seven (c : card) (rows : list str) :
  card_rows c = Some rows ->
  exists l0 l1 l2 l3 l4 l5 l6, rows = [l0; l1; l2; l3; l4; l5; l6].
Proof.
  unfold card_rows. intros H.
  repeat match type of H with
         | bind ?m _ = Some _ =>
             destruct m; [cbn [bind] in H | discriminate H]
         end.
  injection H as <-. repeat eexists.
Qed.

Lemma print_one (ra : list str) (out : str) :
  length ra = 7%nat ->
  print_lines (push_rows no_lines ra) out = out ++ unlines (group_lines [ra]).
Proof.
  intros H.
  destruct ra as [|l0 [|l1 [|l2 [|l3 [|l4 [|l5 [|l6 [|l7 r]]]]]]]];
    try discriminate H.
  unfold unlines, group_lines, group_line, colored, no_lines.
  cbn [print_lines print_cells push_rows repeat app length Nat.eqb Nat.sub
       map seq nth side_by_side concat].
  rewrite <- !app_assoc. rewrite ?app_nil_r. reflexivity.
Qed.

Lemma print_two (ra rb : list str) (out : str) :
  length ra = 7%nat -> length rb = 7%nat ->
  print_lines (push_rows (push_rows no_lines ra) rb) out =
  out ++ unlines (group_lines [ra; rb]).
Proof.
  intros Ha Hb.
  destruct ra as [|a0 [|a1 [|a2 [|a3 [|a4 [|a5 [|a6 [|a7 ra]]]]]]]];
    try discriminate Ha.
  destruct rb as [|b0 [|b1 [|b2 [|b3 [|b4 [|b5 [|b6 [|b7 rb]]]]]]]];
    try discriminate Hb.
  unfold unlines, group_lines, group_line, colored, no_lines.
  cbn [print_lines print_cells push_rows repeat app length Nat.eqb Nat.sub
       map seq nth side_by_side concat].
  rewrite <- !app_assoc. rewrite ?app_nil_r. reflexivity.
Qed.

Lemma card_rows_length (c : card) (rows : list str) :
  card_rows c = Some rows -> length rows = 7%nat.
Proof.
  intros H. destruct (card_rows_seven c rows H)
    as (l0 & l1 & l2 & l3 & l4 & l5 & l6 & ->). reflexivity.
Qed.

Lemma nth_error_here (pre rest : list card) (k : nat) :
  nth_error (pre ++ rest) (length pre + k) = nth_error rest k.
Proof.
  rewrite nth_error_app2 by lia. f_equal. lia.
Qed.

Lemma grid_loop_done (fuel : nat) (cards : list card) (i : nat) (out : str) :
  (0 < fuel)%nat -> (length cards <= i)%nat ->
  grid_loop fuel cards i out = Some out.
Proof.
  intros Hf Hi. destruct fuel as [|fuel]; [lia|]. cbn [grid_loop].
  destruct (Nat.ltb_spec i (length cards)); [lia | reflexivity].
Qed.

Lemma grid_loop_spec (fuel : nat) :
  forall (rest pre : list card) (out : str),
    (length rest < fuel)%nat ->
    grid_loop fuel (pre ++ rest) (length pre) out =
    option_map (fun rowss => out ++ grid rowss) (mapM card_rows rest).
Proof.
  induction fuel as [|fuel IH]; intros rest pre out Hfuel; [lia|].
  destruct rest as [|a [|b rest]].
  - rewrite grid_loop_done by (rewrite ?app_nil_r; lia).
    cbn. rewrite app_nil_r. reflexivity.
  - cbn [grid_loop]. rewrite length_app. cbn [length].
    destruct (Nat.ltb_spec (length pre) (length pre + 1)) as [_|]; [|lia].
    unfold cardsPerRow. cbn [compose].
    rewrite !nth_error_here. cbn [nth_error mapM].
    destruct (card_rows a) as [ra|] eqn:Ea; [|reflexivity].
    cbn [bind option_map].
    rewrite grid_loop_done by (rewrite ?length_app; cbn [length] in *; lia).
    rewrite (print_one ra out (card_rows_length a ra Ea)).
    unfold grid, group_block. cbn [pairs map concat].
    rewrite <- !app_assoc. rewrite ?app_nil_r. reflexivity.
  - cbn [grid_loop]. rewrite length_app. cbn [length].
    destruct (Nat.ltb_spec (length pre) (length pre + S (S (length rest))))
      as [_|]; [|lia].
    unfold cardsPerRow. cbn [compose].
    rewrite !nth_error_here. cbn [nth_error mapM].
    destruct (card_rows a) as [ra|] eqn:Ea; [|reflexivity].
    cbn [bind].
    destruct (card_rows b) as [rb|] eqn:Eb; [|reflexivity].
    cbn [bind].
    replace (pre ++ a :: b :: rest) with ((pre ++ [a; b]) ++ rest)
      by (rewrite <- app_assoc; reflexivity).
    replace (length pre + 2)%nat with (length (pre ++ [a; b]))
      by (rewrite length_app; reflexivity).
    rewrite IH by (cbn [length] in Hfuel; lia).
    rewrite (print_two ra rb out (card_rows_length a ra Ea)
               (card_rows_length b rb Eb)).
    destruct (mapM card_rows rest) as [rowss|]; [|reflexivity].
    cbn [bind option_map]. unfold grid, group_block. cbn [pairs map concat].
    rewrite <- !app_assoc. reflexivity.
Qed.

(** Three classes: seven lines of two cards, an empty line, seven lines
    of one card, an empty line. *)
Lemma three_classes_widths :
  option_map (fun out => map printable_width (rows_of out))
    (DisplayCardsGrid three_classes) =
  Some [104; 104; 104; 104; 104; 104; 104; 0;
        50; 50; 50; 50; 50; 50; 50; 0]%nat.
Proof. vm_compute. reflexivity. Qed.

(** ** [DisplayCard] and the rows of the grid *)

Lemma one_line_app (a b : str) : one_line a -> one_line b -> one_line (a ++ b).
Proof.
  unfold one_line. intros Ha Hb. rewrite forallb_app, Ha, Hb. reflexivity.
Qed.

Lemma one_line_repeat (c : ascii) (n : nat) :
  Ascii.eqb c nl = false -> one_line (repeat c n).
Proof.
  intros H. unfold one_line. induction n as [|n IH]; cbn [repeat forallb];
    [reflexivity|].
  rewrite H, IH. reflexivity.
Qed.

Lemma rows_from_line (a : str) :
  one_line a ->
  forall cur rest,
    rows_from cur (a ++ nl :: rest) = (rev cur ++ a) :: rows_from [] rest.
Proof.
  unfold one_line. induction a as [|c a IH]; intros H cur rest.
  - cbn [app rows_from]. rewrite Ascii.eqb_refl, app_nil_r. reflexivity.
  - cbn [forallb] in H. apply andb_true_iff in H. destruct H as [Hc Ha].
    apply negb_true_iff in Hc.
    cbn [app rows_from]. rewrite Hc, (IH Ha). cbn [rev].
    rewrite <- app_assoc. reflexivity.
Qed.

Lemma rows_of_line (a rest : str) :
  one_line a -> rows_of (a ++ nl :: rest) = a :: rows_of rest.
Proof. intros H. unfold rows_of. rewrite (rows_from_line a H). reflexivity. Qed.

Lemma rows_of_tail (a : str) : one_line a -> rows_of a = [].
Proof.
  unfold rows_of, one_line. generalize (@nil ascii).
  induction a as [|c a IH]; intros cur H; cbn [rows_from]; [reflexivity|].
  cbn [forallb] in H. apply andb_true_iff in H. destruct H as [Hc Ha].
  apply negb_true_iff in Hc. rewrite Hc. apply IH. exact Ha.
Qed.

Lemma Some_inj (A : Type) (a b : A) : Some a = Some b -> a = b.
Proof. congruence. Qed.

Lemma card_content_short (line : str) (lines : list str) (out : str) :
  size line <= cardWidth - 3 ->
  card_content cardWidth (line :: lines) out =
  card_content cardWidth lines
    (out ++ (bar ++ [sp] ++ line
             ++ repeat sp (Z.to_nat (cardWidth - 3 - size line)) ++ bar)
         ++ [nl]).
Proof.
  intros H. pose proof (size_nonneg line) as H0. cbn [card_content].
  unfold cardWidth in *.
  rewrite (to_size_small (50 - 3 - size line)) by (unfold size_modulus; lia).
  rewrite to_int_small by (unfold INT_MAX; lia).
  replace (if 50 - 3 - size line >? 0 then 50 - 3 - size line else 0)
    with (50 - 3 - size line)
    by (destruct (Z.gtb_spec (50 - 3 - size line) 0); lia).
  rewrite fill_small by (unfold max_size; lia).
  cbn [bind]. f_equal. rewrite <- !app_assoc. reflexivity.
Qed.

(** What [DisplayCard] writes for three short lines: seven lines, the
    reset sequence of the top border at the start of the second one,
    and the reset sequence of the bottom border after the last one. *)
Lemma DisplayCard_three (title l1 l2 l3 t c1 c2 c3 : str) :
  size title <= cardWidth - 2 ->
  size l1 <= cardWidth - 3 ->
  size l2 <= cardWidth - 3 ->
  size l3 <= cardWidth - 3 ->
  title_line title = Some t ->
  content_line l1 = Some c1 ->
  content_line l2 = Some c2 ->
  content_line l3 = Some c3 ->
  DisplayCard title [l1; l2; l3] cardWidth =
    Some ((COLOR_GRAY ++ top_border) ++ nl ::
          (COLOR_RESET ++ t) ++ nl ::
          blank_row ++ nl :: c1 ++ nl :: c2 ++ nl :: c3 ++ nl ::
          (COLOR_GRAY ++ bottom_border) ++ nl :: COLOR_RESET).
Proof.
  intros Ht H1 H2 H3 Et E1 E2 E3.
  rewrite (title_line_fits title Ht) in Et. apply Some_inj in Et. subst t.
  rewrite (content_line_short l1 H1) in E1. apply Some_inj in E1. subst c1.
  rewrite (content_line_short l2 H2) in E2. apply Some_inj in E2. subst c2.
  rewrite (content_line_short l3 H3) in E3. apply Some_inj in E3. subst c3.
  destruct (cardPads_fit title Ht) as [PL PR].
  unfold DisplayCard. rewrite PL, PR.
  change (fill (to_size (cardWidth - 2)) underscore)
    with (Some (repeat underscore 48)).
  change (fill (to_size (cardWidth - 2)) sp) with (Some (repeat sp 48)).
  pose proof (size_nonneg title) as H0.
  destruct (half_bounds (cardWidth - 2 - size title) ltac:(lia))
    as (B1 & B2 & _).
  assert (cardWidth - 2 - size title <= 48) by (unfold cardWidth in *; lia).
  assert ((cardWidth - 2 - size title) / 2 <= 48)
    by (apply Z.div_le_upper_bound; lia).
  rewrite (fill_ok (titlePadLeft title))
    by (rewrite titlePadLeft_fits by exact Ht; unfold max_size; lia).
  rewrite (fill_ok (titlePadRight title))
    by (rewrite titlePadRight_fits by exact Ht; unfold max_size; lia).
  cbn [bind].
  rewrite (card_content_short l1 _ _ H1), (card_content_short l2 _ _ H2),
    (card_content_short l3 _ _ H3).
  cbn [card_content bind]. f_equal.
  unfold top_border, bottom_border, blank_row.
  rewrite <- !app_assoc. reflexivity.
Qed.

Ltac one_line_tac :=
  repeat match goal with
         | |- one_line (repeat _ _) => apply one_line_repeat; reflexivity
         | |- one_line (_ ++ _) => apply one_line_app
         | |- one_line _ => first [assumption | reflexivity]
         end.

Lemma one_line_title_row (left title right : str) :
  one_line left -> one_line title -> one_line right ->
  one_line (bar ++ left ++ COLOR_BOLD ++ title ++ COLOR_RESET ++ right ++ bar).
Proof. intros. one_line_tac. Qed.

Lemma one_line_content_row (line pad : str) :
  one_line line -> one_line pad -> one_line (bar ++ [sp] ++ line ++ pad ++ bar).
Proof. intros. one_line_tac. Qed.

(** C10, for the cards on which the two renderers agree.  For a title
    of at most [W - 2] bytes and a body of exactly three lines of at
    most [W - 3] bytes each, none of them holding a newline,
    [DisplayCard] at width [W] writes seven lines whose visible parts
    are, in order, the visible parts of the seven rows that
    [DisplayCardsGrid] composes for the card. *)
Theorem DisplayCard_matches_grid (title : str) (body : list str) :
  size title <= cardWidth - 2 ->
  one_line title ->
  length body = 3%nat ->
  Forall (fun l => size l <= cardWidth - 3 /\ one_line l) body ->
  exists out rows,
    DisplayCard title body cardWidth = Some out /\
    card_rows (title, body) = Some rows /\
    map visible (rows_of out) = map visible rows.
Proof.
  intros Ht Lt Hlen Hbody.
  destruct body as [|l1 [|l2 [|l3 [|l4 body]]]]; try discriminate Hlen.
  inversion Hbody as [|? ? [H1 L1] Hbody1]; subst.
  inversion Hbody1 as [|? ? [H2 L2] Hbody2]; subst.
  inversion Hbody2 as [|? ? [H3 L3] _]; subst.
  pose proof (title_line_fits title Ht) as Et.
  pose proof (content_line_short l1 H1) as E1.
  pose proof (content_line_short l2 H2) as E2.
  pose proof (content_line_short l3 H3) as E3.
  eexists. eexists.
  split; [apply (DisplayCard_three title l1 l2 l3 _ _ _ _ Ht H1 H2 H3 Et E1 E2 E3)|].
  split.
  - unfold card_rows. cbn [fst snd]. rewrite Et.
    change (border top_left top_right) with (Some top_border).
    change (border bottom_left bottom_right) with (Some bottom_border).
    change blank_line with (Some blank_row).
    pose proof (content_slot_present [l1; l2; l3] 0 l1 ltac:(simpl; lia) eq_refl)
      as S0.
    pose proof (content_slot_present [l1; l2; l3] 1 l2 ltac:(simpl; lia) eq_refl)
      as S1.
    pose proof (content_slot_present [l1; l2; l3] 2 l3 ltac:(simpl; lia) eq_refl)
      as S2.
    change (Z.of_nat 0) with 0 in S0. change (Z.of_nat 1) with 1 in S1.
    change (Z.of_nat 2) with 2 in S2.
    rewrite S0, S1, S2, E1, E2, E3. reflexivity.
  - rewrite rows_of_line by reflexivity.
    rewrite rows_of_line
      by (apply one_line_app; [reflexivity|];
          apply one_line_title_row; one_line_tac).
    rewrite rows_of_line by reflexivity.
    do 3 (rewrite rows_of_line by (apply one_line_content_row; one_line_tac)).
    rewrite rows_of_line by reflexivity.
    rewrite rows_of_tail by reflexivity.
    cbn [map]. unfold visible. rewrite !visible_gray, visible_reset.
    reflexivity.
Qed.

Lemma DisplayCard_matches_grid_witness :
  exists out rows,
    DisplayCard (lit "Math") [description; lit "Room 12"; []] cardWidth
      = Some out /\
    card_rows (lit "Math", [description; lit "Room 12"; []]) = Some rows /\
    map visible (rows_of out) = map visible rows.
Proof.
  apply (DisplayCard_matches_grid (lit "Math")
           [description; lit "Room 12"; []]).
  - vm_compute. discriminate.
  - reflexivity.
  - reflexivity.
  - repeat constructor; vm_compute; try reflexivity; discriminate.
Defined.

(** C10 as stated fails.  For the card of the class view, a title and
    one description line, [DisplayCard] writes five lines where the
    grid composes seven rows, so the visible rows differ; and a line of
    56 bytes is written whole by [DisplayCard], in a row of 59 columns,
    where the grid truncates it to a row of 50. *)
Lemma DisplayCard_differs :
  size (lit "Math") <= 48 /\
  option_map (fun out => map visible (rows_of out))
    (DisplayCard (lit "Math") [description] 50)
  <> option_map (map visible) (card_rows (lit "Math", [description])) /\
  option_map (fun out => length (rows_of out))
    (DisplayCard (lit "Math") [description] 50) = Some 5%nat /\
  option_map (@length str) (card_rows (lit "Math", [description]))
    = Some 7%nat /\
  option_map (fun out => map printable_width (rows_of out))
    (DisplayCard (lit "Math") [long_line; []; []] 50)
    = Some [50; 50; 50; 59; 50; 50; 50]%nat /\
  option_map (map printable_width)
    (card_rows (lit "Math", [long_line; []; []]))
    = Some [50; 50; 50; 50; 50; 50; 50]%nat.
Proof.
  split; [vm_compute; discriminate|].
  split.
  - intros H.
    apply (f_equal (option_map (@length str))) in H.
    vm_compute in H. discriminate H.
  - repeat split; vm_compute; reflexivity.
Qed.

(** * Further properties of the roster store *)

(** ** Membership *)

(** X1.  [Exists] decides membership: it is [true] exactly when some
    element of the vector is byte for byte the value, and [false]
    exactly when none is. *)
Theorem Exists_decides_membership (vec : list str) (val : str) :
  (Model.Exists vec val = true <-> In val vec) /\
  (Model.Exists vec val = false <-> ~ In val vec).
Proof. split; [apply Exists_true | apply Exists_false]. Qed.

(** ** Uniqueness *)

Lemma NoDup_snoc (l : list str) (n : str) :
  NoDup l -> ~ In n l -> NoDup (l ++ [n]).
Proof.
  intros Hl Hn. apply NoDup_app.
  - exact Hl.
  - repeat constructor. simpl. tauto.
  - intros x Hx [<-|[]]. exact (Hn Hx).
Qed.

(** X2.  Neither [AddClass] nor [AddStudent] creates a duplicate: lists
    without repeated names stay without repeated names. *)
Theorem add_keeps_unique (n : str) (m : Model.t) (d : Disk) :
  NoDup (classes m) -> NoDup (students m) ->
  NoDup (classes (snd (fst (AddClass n m d)))) /\
  NoDup (students (snd (fst (AddClass n m d)))) /\
  NoDup (classes (snd (fst (AddStudent n m d)))) /\
  NoDup (students (snd (fst (AddStudent n m d)))).
Proof.
  intros Hc Hs.
  destruct (in_dec str_dec n (classes m)) as [Hin|Hin];
    [rewrite (AddClass_present n m d Hin)
    |rewrite (AddClass_absent n m d Hin)];
  (destruct (in_dec str_dec n (students m)) as [Hin'|Hin'];
    [rewrite (AddStudent_present n m d Hin')
    |rewrite (AddStudent_absent n m d Hin')]);
  cbn [fst snd classes students]; repeat split;
    try assumption; apply NoDup_snoc; assumption.
Qed.

Lemma add_keeps_unique_witness :
  NoDup (classes (snd (fst (AddClass (lit "Art") roster1 disk0)))) /\
  NoDup (students (snd (fst (AddClass (lit "Art") roster1 disk0)))) /\
  NoDup (classes (snd (fst (AddStudent (lit "Art") roster1 disk0)))) /\
  NoDup (students (snd (fst (AddStudent (lit "Art") roster1 disk0)))).
Proof.
  apply (add_keeps_unique (lit "Art") roster1 disk0).
  - repeat constructor; simpl; intuition discriminate.
  - repeat constructor; simpl; intuition discriminate.
Defined.

(** ** Runs of additions *)

(** X3.  A run of [AddClass] calls over any names, repeated or already
    present ones included, keeps the classes it started with as a
    prefix and appends exactly the names that were not there, each
    once; the calls that return [true] are as many as the names
    appended; the students are not touched. *)
Theorem add_classes_adds_new_once (names : list str) :
  forall (m : Model.t) (d : Disk),
  exists added,
    classes (snd (fst (add_classes names m d))) = classes m ++ added /\
    students (snd (fst (add_classes names m d))) = students m /\
    (forall x, In x added <-> In x names /\ ~ In x (classes m)) /\
    NoDup added /\
    length added =
      count_occ bool_dec (fst (fst (add_classes names m d))) true /\
    length (fst (fst (add_classes names m d))) = length names.
Proof.
  induction names as [|n names IH]; intros m d.
  - exists []. cbn. rewrite app_nil_r.
    refine (conj eq_refl (conj eq_refl (conj _ (conj _ (conj eq_refl eq_refl))))).
    + intros x. tauto.
    + constructor.
  - cbn [add_classes].
    destruct (in_dec str_dec n (classes m)) as [Hin|Hin].
    + rewrite (AddClass_present n m d Hin).
      destruct (IH m d) as (added & E1 & E2 & E3 & E4 & E5 & E6).
      destruct (add_classes names m d) as [[bs m2] d2]. cbn [fst snd] in *.
      exists added.
      refine (conj E1 (conj E2 (conj _ (conj E4 (conj _ _))))).
      * intros x. rewrite (E3 x). simpl. split; [tauto|].
        intros [[<-|Hx] Hn]; [contradiction | tauto].
      * cbn [count_occ]. destruct (bool_dec false true); [discriminate|].
        exact E5.
      * cbn [length]. rewrite E6. reflexivity.
    + rewrite (AddClass_absent n m d Hin).
      set (m1 := {| classes := classes m ++ [n]; students := students m |}).
      destruct (IH m1 (SaveData m1 d)) as (added & E1 & E2 & E3 & E4 & E5 & E6).
      destruct (add_classes names m1 (SaveData m1 d)) as [[bs m2] d2].
      cbn [fst snd classes students m1] in *.
      exists (n :: added).
      refine (conj _ (conj E2 (conj _ (conj _ (conj _ _))))).
      * rewrite E1, <- app_assoc. reflexivity.
      * intros x. split.
        -- intros [<-|Hx]; [simpl; auto|]. apply E3 in Hx.
           destruct Hx as [Hx Hn]. split; [simpl; auto|].
           intros Hc. apply Hn. apply in_or_app. left. exact Hc.
        -- intros [[<-|Hx] Hn]; [left; reflexivity|].
           destruct (str_dec n x) as [<-|Hne]; [left; reflexivity|].
           right. apply E3. split; [exact Hx|].
           intros Hc. apply in_app_or in Hc. simpl in Hc. tauto.
      * constructor; [|exact E4].
        intros Hx. apply E3 in Hx. apply (proj2 Hx).
        apply in_or_app. right. simpl. auto.
      * cbn [length count_occ]. destruct (bool_dec true true); [|congruence].
        rewrite E5. reflexivity.
      * cbn [length]. rewrite E6. reflexivity.
Qed.

Lemma add_students_appends (names : list str) :
  forall (m : Model.t) (d : Disk),
    NoDup names ->
    (forall x, In x names -> ~ In x (students m)) ->
    exists d',
      add_students names m d =
        (repeat true (length names),
         {| classes := classes m; students := students m ++ names |}, d').
Proof.
  induction names as [|n names IH]; intros m d Hnd Hfresh; simpl.
  - exists d. rewrite app_nil_r. destruct m; reflexivity.
  - inversion Hnd as [|? ? Hn Hnd']; subst.
    rewrite AddStudent_absent by (apply Hfresh; simpl; auto).
    set (m1 := {| classes := classes m; students := students m ++ [n] |}).
    destruct (IH m1 (SaveData m1 d) Hnd') as [d' E].
    + intros x Hx Hin. simpl in Hin. apply in_app_or in Hin.
      destruct Hin as [Hin|[->|[]]]; [|contradiction].
      apply (Hfresh x); simpl; auto.
    + rewrite E. exists d'. simpl. rewrite <- app_assoc. reflexivity.
Qed.

(** X4.  Students keep the order of insertion: from an empty list of
    students, [AddStudent] called on each name of a sequence of
    pairwise distinct names accepts every one, [GetStudents] then
    returns exactly that sequence, and the classes are as before. *)
Theorem students_keep_insertion_order
    (names : list str) (m : Model.t) (d : Disk) :
  students m = [] ->
  NoDup names ->
  GetStudents (snd (fst (add_students names m d))) = names /\
  GetClasses (snd (fst (add_students names m d))) = GetClasses m /\
  fst (fst (add_students names m d)) = repeat true (length names).
Proof.
  intros Hm Hnd.
  destruct (add_students_appends names m d Hnd) as [d' E].
  - intros x _. rewrite Hm. simpl. tauto.
  - rewrite E. simpl. rewrite Hm. repeat split; reflexivity.
Qed.

Lemma students_keep_insertion_order_witness :
  GetStudents
    (snd (fst (add_students [lit "Ada"; lit "Alan"; lit "Grace"] fresh disk0)))
  = [lit "Ada"; lit "Alan"; lit "Grace"].
Proof.
  apply (students_keep_insertion_order
           [lit "Ada"; lit "Alan"; lit "Grace"] fresh disk0).
  - reflexivity.
  - repeat constructor; simpl; intuition discriminate.
Defined.

(** ** What an addition leaves on the disk *)

Lemma new_after_save (m : Model.t) (d : Disk) :
  Forall name (classes m) ->
  Forall name (students m) ->
  classes_writable d = true ->
  students_writable d = true ->
  Model.new (SaveData m d) = Some m.
Proof.
  intros Hc Hs Wc Ws. unfold Model.new.
  assert (Ec : classes_txt (SaveData m d) = Some (unlines (classes m)))
    by (simpl; rewrite Wc, write_lines_unlines; reflexivity).
  assert (Es : students_txt (SaveData m d) = Some (unlines (students m)))
    by (simpl; rewrite Ws, write_lines_unlines; reflexivity).
  rewrite LoadData_entries.
  - rewrite Ec, Es. simpl.
    rewrite (entries_of_unlines _ Hc), (entries_of_unlines _ Hs).
    destruct m; reflexivity.
  - rewrite Ec. apply lines_fit_unlines; exact Hc.
  - rewrite Es. apply lines_fit_unlines; exact Hs.
Qed.

(** X5.  An accepted addition rewrites both files in full: when both
    can be opened for writing, after [AddClass] (or [AddStudent]) has
    accepted a name each file holds every entry of its list, the new
    one last, one entry per line. *)
Theorem add_rewrites_both_files (n : str) (m : Model.t) (d : Disk) :
  classes_writable d = true ->
  students_writable d = true ->
  (~ In n (classes m) ->
     classes_txt (snd (AddClass n m d)) = Some (unlines (classes m ++ [n])) /\
     students_txt (snd (AddClass n m d)) = Some (unlines (students m))) /\
  (~ In n (students m) ->
     classes_txt (snd (AddStudent n m d)) = Some (unlines (classes m)) /\
     students_txt (snd (AddStudent n m d))
       = Some (unlines (students m ++ [n]))).
Proof.
  intros Wc Ws. split; intros Hin.
  - rewrite (AddClass_absent n m d Hin). cbn [snd SaveData classes_txt
      students_txt classes students].
    rewrite Wc, Ws, !write_lines_unlines. split; reflexivity.
  - rewrite (AddStudent_absent n m d Hin). cbn [snd SaveData classes_txt
      students_txt classes students].
    rewrite Wc, Ws, !write_lines_unlines. split; reflexivity.
Qed.

Lemma add_rewrites_both_files_witness :
  classes_txt (snd (AddClass (lit "Biology") roster1 disk0))
    = Some (lit "Algebra I" ++ [nl] ++ lit "Art" ++ [nl] ++ lit "Biology"
            ++ [nl]) /\
  students_txt (snd (AddClass (lit "Biology") roster1 disk0))
    = Some (lit "Ada Lovelace" ++ [nl]).
Proof.
  refine (proj1 (add_rewrites_both_files (lit "Biology") roster1 disk0
                   eq_refl eq_refl) _).
  simpl. intuition discriminate.
Defined.

Lemma AddClass_in_sync (n : str) (m : Model.t) (d : Disk) :
  in_sync m d -> name n ->
  in_sync (snd (fst (AddClass n m d))) (snd (AddClass n m d)).
Proof.
  intros (Hc & Hs & Wc & Ws & Hnew) Hn.
  destruct (in_dec str_dec n (classes m)) as [Hin|Hin].
  - rewrite (AddClass_present n m d Hin). cbn [fst snd].
    repeat split; assumption.
  - rewrite (AddClass_absent n m d Hin). cbn [fst snd].
    assert (Hc' : Forall name (classes m ++ [n]))
      by (apply Forall_app; split; [exact Hc | constructor; [exact Hn | constructor]]).
    split; [exact Hc'|]. split; [exact Hs|].
    split; [exact Wc|]. split; [exact Ws|].
    apply new_after_save; assumption.
Qed.

Lemma AddStudent_in_sync (n : str) (m : Model.t) (d : Disk) :
  in_sync m d -> name n ->
  in_sync (snd (fst (AddStudent n m d))) (snd (AddStudent n m d)).
Proof.
  intros (Hc & Hs & Wc & Ws & Hnew) Hn.
  destruct (in_dec str_dec n (students m)) as [Hin|Hin].
  - rewrite (AddStudent_present n m d Hin). cbn [fst snd].
    repeat split; assumption.
  - rewrite (AddStudent_absent n m d Hin). cbn [fst snd].
    assert (Hs' : Forall name (students m ++ [n]))
      by (apply Forall_app; split; [exact Hs | constructor; [exact Hn | constructor]]).
    split; [exact Hc|]. split; [exact Hs'|].
    split; [exact Wc|]. split; [exact Ws|].
    apply new_after_save; assumption.
Qed.

(** X6.  Memory and disk stay in step.  When the entries are Names,
    the files can be written and a restart from the files gives the
    lists in memory, the same holds after [AddClass] or [AddStudent]
    of a Name, whether the name was accepted or rejected: a [Model]
    constructed from the files afterwards has the lists the running
    one has. *)
Theorem add_keeps_in_sync (n : str) (m : Model.t) (d : Disk) :
  in_sync m d -> name n ->
  in_sync (snd (fst (AddClass n m d))) (snd (AddClass n m d)) /\
  in_sync (snd (fst (AddStudent n m d))) (snd (AddStudent n m d)) /\
  Model.new (snd (AddClass n m d)) = Some (snd (fst (AddClass n m d))) /\
  Model.new (snd (AddStudent n m d)) = Some (snd (fst (AddStudent n m d))).
Proof.
  intros H Hn.
  pose proof (AddClass_in_sync n m d H Hn) as Hc.
  pose proof (AddStudent_in_sync n m d H Hn) as Hs.
  split; [exact Hc|]. split; [exact Hs|].
  split; [apply Hc | apply Hs].
Qed.

Lemma roster1_in_sync : in_sync roster1 (SaveData roster1 disk0).
Proof.
  assert (Hc : Forall name (classes roster1)) by name_ok.
  assert (Hs : Forall name (students roster1)) by name_ok.
  split; [exact Hc|]. split; [exact Hs|].
  split; [reflexivity|]. split; [reflexivity|].
  apply new_after_save; [exact Hc | exact Hs | reflexivity | reflexivity].
Defined.

Lemma add_keeps_in_sync_witness :
  Model.new (snd (AddClass (lit "Biology") roster1 (SaveData roster1 disk0)))
  = Some (snd (fst (AddClass (lit "Biology") roster1
                      (SaveData roster1 disk0)))).
Proof.
  refine (proj1 (proj2 (proj2
    (add_keeps_in_sync (lit "Biology") roster1 (SaveData roster1 disk0)
       roster1_in_sync _)))).
  name_ok.
Defined.

(** X7.  A failed write is not noticed.  When the classes file cannot
    be opened for writing, [AddClass] of a new name still returns
    [true] and appends the name in memory, and the classes file is
    what it was before, so a [Model] constructed afterwards does not
    have the name unless the old file had it. *)
Theorem add_ignores_write_failure (n : str) (m : Model.t) (d : Disk) :
  classes_writable d = false ->
  ~ In n (classes m) ->
  fst (fst (AddClass n m d)) = true /\
  classes (snd (fst (AddClass n m d))) = classes m ++ [n] /\
  classes_txt (snd (AddClass n m d)) = classes_txt d /\
  (lines_fit (classes_txt d) ->
   lines_fit (students_txt (snd (AddClass n m d))) ->
   exists m',
     Model.new (snd (AddClass n m d)) = Some m' /\
     classes m' = entries (classes_txt d)).
Proof.
  intros W Hin. rewrite (AddClass_absent n m d Hin). cbn [fst snd classes].
  set (m1 := {| classes := classes m ++ [n]; students := students m |}).
  assert (E : classes_txt (SaveData m1 d) = classes_txt d)
    by (cbn [SaveData classes_txt]; rewrite W; reflexivity).
  split; [reflexivity|]. split; [reflexivity|]. split; [exact E|].
  intros Hc Hs. eexists. unfold Model.new.
  rewrite LoadData_entries; [|rewrite E; exact Hc | exact Hs].
  split; [reflexivity|]. cbn [classes fresh app]. rewrite E. reflexivity.
Qed.

Lemma add_ignores_write_failure_witness :
  fst (fst (AddClass (lit "Biology") fresh disk_read_only)) = true /\
  classes (snd (fst (AddClass (lit "Biology") fresh disk_read_only)))
    = [lit "Biology"] /\
  classes_txt (snd (AddClass (lit "Biology") fresh disk_read_only))
    = Some (lit "Art" ++ [nl]).
Proof.
  destruct (add_ignores_write_failure (lit "Biology") fresh disk_read_only)
    as (H1 & H2 & H3 & _).
  - reflexivity.
  - simpl. tauto.
  - split; [exact H1|]. split; [exact H2 | exact H3].
Defined.

(** ** Trimming and loading *)

Lemma trimmed_idempotent (s : str) : trimmed (trimmed s) = trimmed s.
Proof.
  destruct (trimmed_spec s) as (a & b & _ & _ & _ & [E|[H1 H2]]).
  - rewrite E. reflexivity.
  - apply trimmed_name; assumption.
Qed.

Lemma size_trimmed (s : str) : size (trimmed s) <= size s.
Proof.
  destruct (trimmed_spec s) as (a & b & E & _).
  rewrite E at 2. rewrite !size_app.
  pose proof (size_nonneg a). pose proof (size_nonneg b). lia.
Qed.

(** X8.  [Trim], in both its copies, removes a run of whitespace at
    each end of a string and nothing else: the result is empty or
    begins and ends with a byte that is not whitespace, and trimming it
    again changes nothing.  A string of whitespace only becomes
    empty. *)
Theorem Trim_strips_both_ends (s : str) :
  size s <= max_size ->
  exists a t b,
    Model.Trim s = Some t /\ Console.Trim s = Some t /\
    s = a ++ t ++ b /\
    forallb is_space a = true /\ forallb is_space b = true /\
    (t = [] \/ (first_ok t = true /\ first_ok (rev t) = true)) /\
    Model.Trim t = Some t /\
    (forallb is_space s = true -> t = []).
Proof.
  intros Hs.
  destruct (trimmed_spec s) as (a & b & E & Ha & Hb & Ht).
  exists a, (trimmed s), b.
  pose proof (Trim_spec s Hs) as HT.
  split; [exact HT|]. split; [exact HT|]. split; [exact E|].
  split; [exact Ha|]. split; [exact Hb|]. split; [exact Ht|].
  split.
  - rewrite Trim_spec by (pose proof (size_trimmed s); lia).
    rewrite trimmed_idempotent. reflexivity.
  - intros Hall. destruct Ht as [Ht|[Ht _]]; [exact Ht|].
    rewrite E in Hall. rewrite !forallb_app in Hall.
    apply andb_true_iff in Hall. destruct Hall as [_ Hall].
    apply andb_true_iff in Hall. destruct Hall as [Hall _].
    destruct (trimmed s) as [|c r]; [reflexivity|].
    cbn [first_ok forallb] in *. apply andb_true_iff in Hall.
    destruct Hall as [Hc _]. rewrite Hc in Ht. discriminate.
Qed.

Lemma Trim_strips_both_ends_witness :
  Model.Trim ([byte 9; sp] ++ lit "Modern Dance" ++ [sp; byte 13])
  = Some (lit "Modern Dance").
Proof.
  destruct (Trim_strips_both_ends
              ([byte 9; sp] ++ lit "Modern Dance" ++ [sp; byte 13]))
    as (a & t & b & H & _).
  - vm_compute. discriminate.
  - rewrite H. f_equal.
    assert (E : Model.Trim ([byte 9; sp] ++ lit "Modern Dance" ++ [sp; byte 13])
                = Some (lit "Modern Dance")) by reflexivity.
    rewrite E in H. injection H as <-. reflexivity.
Defined.

Lemma entries_of_names (content : str) :
  Forall (fun l => size l < max_size) (split_nl content) ->
  Forall name (entries_of content).
Proof.
  intros Hfit. unfold entries_of. apply Forall_forall. intros x Hx.
  apply filter_In in Hx. destruct Hx as [Hx Hne].
  apply in_map_iff in Hx. destruct Hx as (l & <- & Hl).
  rewrite Forall_forall in Hfit. pose proof (Hfit l Hl) as Hsz.
  pose proof (proj1 (split_nl_spec content)) as Hnl.
  rewrite Forall_forall in Hnl. pose proof (Hnl l Hl) as Hnl_l.
  destruct (trimmed_spec l) as (a & b & E & _ & _ & Ht).
  destruct Ht as [Ht|[H1 H2]]; [rewrite Ht in Hne; discriminate|].
  split; [exact H1|]. split; [exact H2|]. split.
  - intros Hin. apply Hnl_l. rewrite E.
    apply in_or_app. right. apply in_or_app. left. exact Hin.
  - pose proof (size_trimmed l). lia.
Qed.

Lemma entries_names (source : option str) :
  lines_fit source -> Forall name (entries source).
Proof.
  destruct source as [content|]; cbn [lines_fit entries]; intros H.
  - apply entries_of_names; exact H.
  - constructor.
Qed.

(** X9.  What a load puts in the lists are Names: when every line of
    the two files fits a string, each entry of a [Model] constructed
    from them is non-empty, begins and ends with a byte that is not
    whitespace, and holds no newline. *)
Theorem loaded_entries_are_names (d : Disk) (m : Model.t) :
  lines_fit (classes_txt d) -> lines_fit (students_txt d) ->
  Model.new d = Some m ->
  Forall name (classes m) /\ Forall name (students m).
Proof.
  intros Hc Hs Hnew. unfold Model.new in Hnew.
  rewrite (LoadData_entries fresh d Hc Hs) in Hnew.
  apply Some_inj in Hnew. subst m. cbn [classes students fresh app].
  split; apply entries_names; assumption.
Qed.

Lemma loaded_entries_are_names_witness :
  Forall name [lit "Math"; lit "Art"; lit "Modern Dance"] /\
  Forall name (@nil str).
Proof.
  refine (loaded_entries_are_names disk1
            {| classes := [lit "Math"; lit "Art"; lit "Modern Dance"];
               students := [] |} _ _ _).
  - repeat constructor.
  - exact I.
  - reflexivity.
Defined.

(** X10.  Saving what was loaded changes nothing more: when the files
    can be written, a [Model] constructed from them, saved, and
    constructed again from the saved files has the same lists, so
    memory and disk are in step from the first save on. *)
Theorem load_save_load (d : Disk) (m : Model.t) :
  lines_fit (classes_txt d) -> lines_fit (students_txt d) ->
  classes_writable d = true -> students_writable d = true ->
  Model.new d = Some m ->
  Model.new (SaveData m d) = Some m /\ in_sync m (SaveData m d).
Proof.
  intros Hc Hs Wc Ws Hnew.
  assert (Hc' : Forall name (classes m) /\ Forall name (students m)).
  { unfold Model.new in Hnew.
    rewrite (LoadData_entries fresh d Hc Hs) in Hnew.
    apply Some_inj in Hnew. subst m. cbn [classes students fresh app].
    split; apply entries_names; assumption. }
  destruct Hc' as [Nc Ns].
  pose proof (new_after_save m d Nc Ns Wc Ws) as E.
  split; [exact E|].
  split; [exact Nc|]. split; [exact Ns|].
  split; [exact Wc|]. split; [exact Ws | exact E].
Qed.

Lemma load_save_load_witness :
  Model.new
    (SaveData {| classes := [lit "Math"; lit "Art"; lit "Modern Dance"];
                 students := [] |} disk1)
  = Some {| classes := [lit "Math"; lit "Art"; lit "Modern Dance"];
            students := [] |}.
Proof.
  refine (proj1 (load_save_load disk1
            {| classes := [lit "Math"; lit "Art"; lit "Modern Dance"];
               students := [] |} _ _ _ _ _)).
  - repeat constructor.
  - exact I.
  - reflexivity.
  - reflexivity.
  - reflexivity.
Defined.

(** * Further properties of the card renderer *)

(** ** The three body slots *)

Lemma content_slot_firstn (body : list str) (ln : Z) :
  ln = 0 \/ ln = 1 \/ ln = 2 ->
  Z.of_nat (length body) <= INT_MAX ->
  content_slot body ln = content_slot (firstn 3 body) ln.
Proof.
  intros Hln Hlen.
  destruct body as [|a [|b [|c r]]]; try reflexivity.
  unfold content_slot.
  rewrite (to_int_small (Z.of_nat (length (a :: b :: c :: r))))
    by (unfold INT_MAX in *; lia).
  change (to_int (Z.of_nat (length (firstn 3 (a :: b :: c :: r))))) with 3.
  cbn [length] in *.
  set (n := Z.of_nat (S (S (S (length r))))) in *.
  destruct Hln as [->|[->| ->]];
    [destruct (Z.ltb_spec 0 n) | destruct (Z.ltb_spec 1 n)
    |destruct (Z.ltb_spec 2 n)];
    try reflexivity; unfold n in *; lia.
Qed.

(** X11.  The grid renders the first three body lines of a card and no
    others: a card with more lines gets the rows of the card cut to its
    first three lines (the number of lines being within [int]). *)
Theorem only_three_lines_rendered (title : str) (body : list str) :
  Z.of_nat (length body) <= INT_MAX ->
  card_rows (title, body) = card_rows (title, firstn 3 body).
Proof.
  intros Hlen. unfold card_rows. cbn [fst snd].
  rewrite (content_slot_firstn body 0), (content_slot_firstn body 1),
    (content_slot_firstn body 2) by (auto; exact Hlen).
  reflexivity.
Qed.

Lemma only_three_lines_rendered_witness :
  card_rows (lit "Math", [lit "one"; lit "two"; lit "three"; lit "four"]) =
  card_rows (lit "Math", [lit "one"; lit "two"; lit "three"]).
Proof.
  apply (only_three_lines_rendered (lit "Math")
           [lit "one"; lit "two"; lit "three"; lit "four"]).
  vm_compute. discriminate.
Defined.

(** ** [DisplayCard] on any number of lines *)

Lemma to_int_wrapped (z : Z) :
  - 2 ^ 31 <= z < 0 -> to_int (to_size z) = z.
Proof.
  intros H. rewrite to_size_neg by (unfold size_modulus; lia).
  unfold to_int, size_modulus, int_modulus.
  replace (z + 2 ^ 64 + 2 ^ 31) with (z + 2 ^ 31 + 2 ^ 32 * 2 ^ 32) by lia.
  rewrite Z_mod_plus_full. rewrite Z.mod_small by lia. lia.
Qed.

Lemma card_padding (line : str) :
  size line <= INT_MAX ->
  fill (to_size
          (if to_int (to_size (cardWidth - 3 - size line)) >? 0
           then to_int (to_size (cardWidth - 3 - size line)) else 0)) sp
  = Some (repeat sp (Z.to_nat (cardWidth - 3 - size line))).
Proof.
  intros Hmax. pose proof (size_nonneg line) as H0.
  unfold cardWidth, INT_MAX in *.
  destruct (Z_lt_le_dec (50 - 3 - size line) 0) as [Hneg|Hpos].
  - rewrite to_int_wrapped by lia.
    destruct (Z.gtb_spec (50 - 3 - size line) 0) as [H|_]; [lia|].
    replace (Z.to_nat (50 - 3 - size line)) with 0%nat by lia. reflexivity.
  - rewrite (to_size_small (50 - 3 - size line)) by (unfold size_modulus; lia).
    rewrite to_int_small by (unfold INT_MAX; lia).
    destruct (Z.gtb_spec (50 - 3 - size line) 0) as [H|H].
    + apply fill_small. unfold max_size. lia.
    + replace (50 - 3 - size line) with 0 by lia. reflexivity.
Qed.

Lemma card_content_spec (lines : list str) :
  Forall (fun l => size l <= INT_MAX) lines ->
  forall out,
    card_content cardWidth lines out =
    Some (out ++ concat (map (fun l => card_line l ++ [nl]) lines)).
Proof.
  induction 1 as [|line lines Hline _ IH]; intros out; cbn [card_content].
  - cbn [map concat]. rewrite app_nil_r. reflexivity.
  - rewrite (card_padding line Hline). cbn [bind]. rewrite IH.
    f_equal. cbn [map concat]. unfold card_line.
    rewrite <- !app_assoc. reflexivity.
Qed.

(** X12.  [DisplayCard] at the default width, for a title of at most
    [W - 2] bytes and lines within [int], raises nothing and writes the
    top border, the title row, a blank row, one row for every line
    given, however many, and the bottom border.  A line is never cut: a
    line of [W - 3] bytes or more is written whole between the borders,
    without padding, so its row is wider than the card. *)
Theorem DisplayCard_writes_every_line (title : str) (lines : list str) :
  size title <= cardWidth - 2 ->
  Forall (fun l => size l <= INT_MAX) lines ->
  exists t,
    title_line title = Some t /\
    DisplayCard title lines cardWidth =
      Some ((COLOR_GRAY ++ top_border) ++ nl ::
            (COLOR_RESET ++ t) ++ nl ::
            blank_row ++ nl ::
            concat (map (fun l => card_line l ++ [nl]) lines)
            ++ (COLOR_GRAY ++ bottom_border) ++ nl :: COLOR_RESET) /\
    (forall l, cardWidth - 3 <= size l -> card_line l = bar ++ [sp] ++ l ++ bar).
Proof.
  intros Ht Hlines. eexists. split; [apply title_line_fits; exact Ht|].
  split.
  - destruct (cardPads_fit title Ht) as [PL PR].
    unfold DisplayCard. rewrite PL, PR.
    change (fill (to_size (cardWidth - 2)) underscore)
      with (Some (repeat underscore 48)).
    change (fill (to_size (cardWidth - 2)) sp) with (Some (repeat sp 48)).
    pose proof (size_nonneg title) as H0.
    destruct (half_bounds (cardWidth - 2 - size title) ltac:(lia))
      as (B1 & B2 & _).
    assert (cardWidth - 2 - size title <= 48) by (unfold cardWidth in *; lia).
    assert ((cardWidth - 2 - size title) / 2 <= 48)
      by (apply Z.div_le_upper_bound; lia).
    rewrite (fill_ok (titlePadLeft title))
      by (rewrite titlePadLeft_fits by exact Ht; unfold max_size; lia).
    rewrite (fill_ok (titlePadRight title))
      by (rewrite titlePadRight_fits by exact Ht; unfold max_size; lia).
    cbn [bind]. rewrite (card_content_spec lines Hlines). cbn [bind].
    f_equal. unfold top_border, bottom_border, blank_row.
    rewrite <- !app_assoc. reflexivity.
  - intros l Hl. unfold card_line.
    replace (Z.to_nat (cardWidth - 3 - size l)) with 0%nat by lia.
    reflexivity.
Qed.

Lemma DisplayCard_writes_every_line_witness :
  option_map (fun out => length (rows_of out))
    (DisplayCard (lit "Math")
       [lit "one"; long_line; lit "three"; lit "four"; lit "five"] cardWidth)
  = Some 9%nat.
Proof.
  destruct (DisplayCard_writes_every_line (lit "Math")
              [lit "one"; long_line; lit "three"; lit "four"; lit "five"])
    as (t & Et & E & _).
  - vm_compute. discriminate.
  - repeat constructor; vm_compute; discriminate.
  - rewrite E. cbn [option_map]. f_equal.
    assert (Et' : title_line (lit "Math") =
                  Some (bar ++ repeat sp 22 ++ COLOR_BOLD ++ lit "Math"
                        ++ COLOR_RESET ++ repeat sp 22 ++ bar))
      by reflexivity.
    rewrite Et' in Et. apply Some_inj in Et. subst t.
    vm_compute. reflexivity.
Defined.

(** ** The printed lines of the grid *)

Lemma printable_not_nl (c : ascii) :
  printable c = true -> Ascii.eqb c nl = false.
Proof.
  intros H. destruct (Ascii.eqb_spec c nl) as [->|_]; [|reflexivity].
  vm_compute in H. discriminate.
Qed.

Lemma plain_one_line (s : str) : plain s -> one_line s.
Proof.
  unfold plain, one_line. induction s as [|c s IH]; cbn [forallb];
    [reflexivity|].
  intros H. apply andb_true_iff in H. destruct H as [Hc Hs].
  rewrite (printable_not_nl c Hc), (IH Hs). reflexivity.
Qed.

Lemma tidy_plain (s : str) : plain s -> tidy s.
Proof.
  intros H. split; [apply plain_one_line; exact H|].
  intros rest. unfold visible.
  rewrite (visible_plain s rest H).
  pose proof (visible_plain s [] H) as E. rewrite app_nil_r in E.
  rewrite E. cbn [visible_from]. rewrite app_nil_r. reflexivity.
Qed.

Lemma tidy_app (a b : str) : tidy a -> tidy b -> tidy (a ++ b).
Proof.
  intros [La Va] [Lb Vb]. split; [apply one_line_app; assumption|].
  intros rest. unfold visible in *.
  rewrite <- app_assoc, Va, Vb, (Va b). apply app_assoc.
Qed.

Lemma tidy_closed (s : str) :
  one_line s ->
  (forall rest,
     visible_from Text (s ++ rest) = visible s ++ visible_from Text rest) ->
  tidy s.
Proof. intros H1 H2. split; assumption. Qed.

Lemma tidy_bar : tidy bar.
Proof. apply tidy_closed; [reflexivity | intros; reflexivity]. Qed.

Lemma tidy_bold : tidy COLOR_BOLD.
Proof. apply tidy_closed; [reflexivity | intros; reflexivity]. Qed.

Lemma tidy_reset : tidy COLOR_RESET.
Proof. apply tidy_closed; [reflexivity | intros; reflexivity]. Qed.

Lemma tidy_gray : tidy COLOR_GRAY.
Proof. apply tidy_closed; [reflexivity | intros; reflexivity]. Qed.

Lemma tidy_top_border : tidy top_border.
Proof. apply tidy_closed; [reflexivity | intros; reflexivity]. Qed.

Lemma tidy_bottom_border : tidy bottom_border.
Proof. apply tidy_closed; [reflexivity | intros; reflexivity]. Qed.

Lemma tidy_blank_row : tidy blank_row.
Proof. apply tidy_closed; [reflexivity | intros; reflexivity]. Qed.

Lemma width_app (a b : str) :
  tidy a ->
  printable_width (a ++ b) = (printable_width a + printable_width b)%nat.
Proof.
  intros [_ Va]. unfold printable_width, visible in *.
  rewrite Va, columns_app. reflexivity.
Qed.

Lemma tidy_title_line (title : str) :
  size title <= cardWidth - 2 -> plain title ->
  exists row,
    title_line title = Some row /\ tidy row /\
    printable_width row = 50%nat.
Proof.
  intros Ht Hp.
  destruct (width_title_line title Ht Hp) as (row & E & W).
  exists row. split; [exact E|]. split.
  - rewrite (title_line_fits title Ht) in E. apply Some_inj in E. subst row.
    repeat first
      [ apply tidy_app
      | apply tidy_bar | apply tidy_bold | apply tidy_reset
      | apply tidy_plain; first [exact Hp | apply plain_repeat; reflexivity] ].
  - unfold cardWidth in W. lia.
Qed.

Lemma tidy_content_line (line : str) :
  plain line -> size line <= INT_MAX ->
  exists row,
    content_line line = Some row /\ tidy row /\
    printable_width row = 50%nat.
Proof.
  intros Hp Hmax.
  destruct (width_content_line line Hp Hmax) as (row & E & W).
  exists row. split; [exact E|]. split; [|unfold cardWidth in W; lia].
  destruct (Z_lt_le_dec (cardWidth - 3) (size line)) as [Hlong|Hshort].
  - rewrite (content_line_long line Hlong Hmax) in E.
    apply Some_inj in E. subst row.
    apply tidy_app; [apply tidy_bar|].
    apply tidy_app; [apply tidy_plain; reflexivity|].
    apply tidy_app; [|apply tidy_bar].
    apply tidy_plain. apply plain_app;
      [apply plain_firstn; exact Hp | reflexivity].
  - rewrite (content_line_short line Hshort) in E.
    apply Some_inj in E. subst row.
    apply tidy_app; [apply tidy_bar|].
    apply tidy_app; [apply tidy_plain; reflexivity|].
    apply tidy_app; [apply tidy_plain; exact Hp|].
    apply tidy_app; [|apply tidy_bar].
    apply tidy_plain. apply plain_repeat. reflexivity.
Qed.

Lemma tidy_content_slot (body : list str) (ln : Z) :
  0 <= ln < contentLines ->
  Forall fits_row (firstn 3 body) ->
  exists row,
    content_slot body ln = Some row /\ tidy row /\
    printable_width row = 50%nat.
Proof.
  intros Hln Hbody. unfold content_slot.
  destruct (ln <? to_int (Z.of_nat (length body))) eqn:E.
  - destruct (content_slot_index body ln Hln E) as [H3 Hk].
    pose proof (nth_in_firstn3 body (Z.to_nat ln) H3 Hk) as Hin.
    rewrite Forall_forall in Hbody. destruct (Hbody _ Hin) as [Hp Hmax].
    apply tidy_content_line; assumption.
  - exists blank_row. split; [reflexivity|].
    split; [apply tidy_blank_row | reflexivity].
Qed.

Lemma plain_card_rows (c : card) :
  plain_card c ->
  exists l0 l1 l2 l3 l4 l5 l6,
    card_rows c = Some [l0; l1; l2; l3; l4; l5; l6] /\
    good_row l0 /\ good_row l1 /\ good_row l2 /\ good_row l3 /\
    good_row l4 /\ good_row l5 /\ good_row l6.
Proof.
  intros (Ht & Hp & Hbody).
  destruct (tidy_title_line (fst c) Ht Hp) as (l1 & E1 & T1 & W1).
  destruct (tidy_content_slot (snd c) 0 ltac:(unfold contentLines; lia) Hbody)
    as (l3 & E3 & T3 & W3).
  destruct (tidy_content_slot (snd c) 1 ltac:(unfold contentLines; lia) Hbody)
    as (l4 & E4 & T4 & W4).
  destruct (tidy_content_slot (snd c) 2 ltac:(unfold contentLines; lia) Hbody)
    as (l5 & E5 & T5 & W5).
  exists top_border, l1, blank_row, l3, l4, l5, bottom_border.
  split.
  - unfold card_rows. rewrite E1, E3, E4, E5. reflexivity.
  - unfold good_row.
    repeat split; try assumption;
      first [ apply tidy_top_border | apply tidy_blank_row
            | apply tidy_bottom_border | reflexivity | apply T1 | apply T3
            | apply T4 | apply T5 ].
Qed.

Lemma tidy_colored (row : str) : tidy row -> tidy (colored row).
Proof.
  intros H. unfold colored.
  apply tidy_app; [apply tidy_gray|]. apply tidy_app; [exact H|].
  apply tidy_reset.
Qed.

Lemma width_colored (row : str) :
  tidy row -> printable_width (colored row) = printable_width row.
Proof.
  intros H. unfold colored.
  rewrite (width_app COLOR_GRAY _ tidy_gray), (width_app row _ H).
  change (printable_width COLOR_GRAY) with 0%nat.
  change (printable_width COLOR_RESET) with 0%nat. lia.
Qed.

Lemma single_line (a : str) :
  good_row a ->
  one_line (colored a) /\ printable_width (colored a) = group_width 1.
Proof.
  intros [Ta Wa]. split; [apply (tidy_colored a Ta)|].
  rewrite (width_colored a Ta), Wa. reflexivity.
Qed.

Lemma pair_line (a b : str) :
  good_row a -> good_row b ->
  one_line (colored a ++ lit "    " ++ colored b) /\
  printable_width (colored a ++ lit "    " ++ colored b) = group_width 2.
Proof.
  intros [Ta Wa] [Tb Wb].
  assert (Tg : tidy (lit "    ")) by (apply tidy_plain; reflexivity).
  split.
  - apply (tidy_app _ _ (tidy_colored a Ta)
             (tidy_app _ _ Tg (tidy_colored b Tb))).
  - rewrite (width_app _ _ (tidy_colored a Ta)), (width_app _ _ Tg),
      (width_colored a Ta), (width_colored b Tb), Wa, Wb.
    reflexivity.
Qed.

Lemma rows_of_unlines (ls : list str) (rest : str) :
  Forall one_line ls -> rows_of (unlines ls ++ rest) = ls ++ rows_of rest.
Proof.
  unfold unlines. induction 1 as [|l ls Hl _ IH]; cbn [map concat app];
    [reflexivity|].
  rewrite <- !app_assoc. cbn [app].
  rewrite (rows_of_line l _ Hl), IH. reflexivity.
Qed.

Lemma rows_of_group (group : list (list str)) (rest : str) :
  Forall one_line (group_lines group) ->
  rows_of (group_block group ++ rest) =
  group_lines group ++ [] :: rows_of rest.
Proof.
  intros H. unfold group_block. rewrite <- app_assoc.
  rewrite (rows_of_unlines _ _ H). cbn [app].
  pose proof (rows_of_line [] rest eq_refl) as E. cbn [app] in E.
  rewrite E. reflexivity.
Qed.

Lemma group_one_lines (l0 l1 l2 l3 l4 l5 l6 : str) :
  good_row l0 -> good_row l1 -> good_row l2 -> good_row l3 ->
  good_row l4 -> good_row l5 -> good_row l6 ->
  Forall one_line (group_lines [[l0; l1; l2; l3; l4; l5; l6]]) /\
  map printable_width (group_lines [[l0; l1; l2; l3; l4; l5; l6]])
    = repeat (group_width 1) 7.
Proof.
  intros G0 G1 G2 G3 G4 G5 G6.
  unfold group_lines, group_line.
  cbn [map seq nth side_by_side repeat].
  destruct (single_line l0 G0), (single_line l1 G1), (single_line l2 G2),
    (single_line l3 G3), (single_line l4 G4), (single_line l5 G5),
    (single_line l6 G6).
  split; [repeat (constructor; [assumption|]); constructor|].
  congruence.
Qed.

Lemma group_two_lines (a0 a1 a2 a3 a4 a5 a6 b0 b1 b2 b3 b4 b5 b6 : str) :
  good_row a0 -> good_row a1 -> good_row a2 -> good_row a3 ->
  good_row a4 -> good_row a5 -> good_row a6 ->
  good_row b0 -> good_row b1 -> good_row b2 -> good_row b3 ->
  good_row b4 -> good_row b5 -> good_row b6 ->
  Forall one_line
    (group_lines [[a0; a1; a2; a3; a4; a5; a6]; [b0; b1; b2; b3; b4; b5; b6]])
  /\
  map printable_width
    (group_lines [[a0; a1; a2; a3; a4; a5; a6]; [b0; b1; b2; b3; b4; b5; b6]])
    = repeat (group_width 2) 7.
Proof.
  intros A0 A1 A2 A3 A4 A5 A6 B0 B1 B2 B3 B4 B5 B6.
  unfold group_lines, group_line.
  cbn [map seq nth side_by_side repeat].
  destruct (pair_line a0 b0 A0 B0), (pair_line a1 b1 A1 B1),
    (pair_line a2 b2 A2 B2), (pair_line a3 b3 A3 B3),
    (pair_line a4 b4 A4 B4), (pair_line a5 b5 A5 B5),
    (pair_line a6 b6 A6 B6).
  split; [repeat (constructor; [assumption|]); constructor|].
  congruence.
Qed.

Lemma pairs_ind (A : Type) (P : list A -> Prop) :
  P [] -> (forall a, P [a]) -> (forall a b l, P l -> P (a :: b :: l)) ->
  forall l, P l.
Proof.
  intros H0 H1 H2 l.
  assert (H : P l /\ forall a, P (a :: l)).
  { induction l as [|x l [IH1 IH2]]; [split; [exact H0 | exact H1]|].
    split; [apply IH2|]. intros a. apply H2. exact IH1. }
  apply H.
Qed.

Lemma grid_widths_spec (cards : list card) :
  Forall plain_card cards ->
  exists rowss,
    mapM card_rows cards = Some rowss /\
    map printable_width (rows_of (grid rowss)) = grid_widths cards.
Proof.
  induction cards as [|a|a b cards IH] using pairs_ind; intros H.
  - exists []. split; reflexivity.
  - inversion H as [|? ? Ha _]; subst.
    destruct (plain_card_rows a Ha)
      as (l0 & l1 & l2 & l3 & l4 & l5 & l6 & E & G0 & G1 & G2 & G3 & G4
          & G5 & G6).
    exists [[l0; l1; l2; l3; l4; l5; l6]].
    split; [cbn [mapM]; rewrite E; reflexivity|].
    destruct (group_one_lines l0 l1 l2 l3 l4 l5 l6 G0 G1 G2 G3 G4 G5 G6)
      as [L W].
    unfold grid. cbn [pairs map concat].
    rewrite (rows_of_group _ [] L). rewrite map_app, W. reflexivity.
  - inversion H as [|? ? Ha H']; subst.
    inversion H' as [|? ? Hb H'']; subst.
    destruct (IH H'') as (rowss & E & W).
    destruct (plain_card_rows a Ha)
      as (a0 & a1 & a2 & a3 & a4 & a5 & a6 & Ea & A0 & A1 & A2 & A3 & A4
          & A5 & A6).
    destruct (plain_card_rows b Hb)
      as (b0 & b1 & b2 & b3 & b4 & b5 & b6 & Eb & B0 & B1 & B2 & B3 & B4
          & B5 & B6).
    exists ([a0; a1; a2; a3; a4; a5; a6] :: [b0; b1; b2; b3; b4; b5; b6]
            :: rowss).
    split; [cbn [mapM]; rewrite Ea, Eb, E; reflexivity|].
    destruct (group_two_lines a0 a1 a2 a3 a4 a5 a6 b0 b1 b2 b3 b4 b5 b6
                A0 A1 A2 A3 A4 A5 A6 B0 B1 B2 B3 B4 B5 B6) as [L Wg].
    unfold grid, grid_widths in *. cbn [pairs map concat].
    rewrite (rows_of_group _ _ L). rewrite map_app, Wg. cbn [map].
    rewrite W. cbn [length]. rewrite <- app_assoc. reflexivity.
Qed.

Lemma grid_widths_length (A : Type) (cards : list A) :
  length (grid_widths cards) = (8 * length (pairs cards))%nat.
Proof.
  unfold grid_widths. induction (pairs cards) as [|g gs IH];
    cbn [map concat length]; [reflexivity|].
  rewrite length_app, IH. cbn [repeat app length]. lia.
Qed.

(** X13.  The lines of the grid line up.  For cards whose titles have
    at most [W - 2] bytes and whose titles and first three body lines
    are printable ASCII, these lines of at most [INT_MAX] bytes each,
    [DisplayCardsGrid] raises nothing and prints,
    for each group of cards in turn, seven lines of printable width
    104 when the group has two cards and 50 when it has one, then an
    empty line: eight lines for each group. *)
Theorem grid_lines_line_up (cards : list card) :
  Forall plain_card cards ->
  exists out,
    DisplayCardsGrid cards = Some out /\
    map printable_width (rows_of out) = grid_widths cards /\
    length (rows_of out) = (8 * length (pairs cards))%nat.
Proof.
  intros H. destruct (grid_widths_spec cards H) as (rowss & E & W).
  exists (grid rowss).
  assert (Eo : DisplayCardsGrid cards = Some (grid rowss)).
  { unfold DisplayCardsGrid.
    pose proof (grid_loop_spec (S (length cards)) cards [] []
                  (Nat.lt_succ_diag_r _)) as Eg.
    cbn [app length] in Eg. rewrite Eg, E. reflexivity. }
  split; [exact Eo|]. split; [exact W|].
  rewrite <- (length_map printable_width), W. apply grid_widths_length.
Qed.

Lemma grid_lines_line_up_witness :
  option_map (fun out => map printable_width (rows_of out))
    (DisplayCardsGrid three_classes)
  = Some (grid_widths three_classes).
Proof.
  destruct (grid_lines_line_up three_classes) as (out & E & W & _).
  - repeat constructor; vm_compute; discriminate.
  - rewrite E. cbn [option_map]. rewrite W. reflexivity.
Defined.

(** * Properties of the console and of the flows *)

(** ** [PromptNonEmptyString] *)

Lemma fit_rest (fin : str) :
  Forall fit (split_nl fin) -> Forall fit (split_nl (snd (getline_scan fin))).
Proof.
  intros H. destruct (getline_scan_spec fin) as (ls & E & Hls & _).
  rewrite E in H. destruct Hls as [->|[_ ->]].
  - exact (Forall_inv_tail H).
  - repeat constructor.
Qed.

Lemma getline_step (c : ascii) (fin : str) :
  Forall fit (split_nl (c :: fin)) ->
  exists line rest ls,
    getline (c :: fin) = Some (line, rest) /\
    rest = snd (getline_scan (c :: fin)) /\
    split_nl (c :: fin) = line :: ls /\
    (ls = split_nl rest \/ (ls = [] /\ rest = [])) /\
    Console.Trim line = Some (trimmed line) /\
    entries_of (c :: fin) = keep (trimmed line) ++ entries_of rest /\
    (length rest <= length fin)%nat.
Proof.
  intros H.
  destruct (getline_scan_spec (c :: fin)) as (ls & E & Hls & Hlen).
  cbn [getline].
  destruct (getline_scan (c :: fin)) as [line rest]. cbn [fst snd] in *.
  exists line, rest, ls. split; [reflexivity|]. split; [reflexivity|].
  split; [exact E|]. split; [exact Hls|].
  rewrite E in H. pose proof (Forall_inv H) as Hline. unfold fit in Hline.
  split; [exact (Trim_spec line ltac:(lia))|].
  split; [|cbn [length] in Hlen; lia].
  unfold entries_of at 1. rewrite E, entries_of_cons. f_equal.
  destruct Hls as [->|[-> ->]]; reflexivity.
Qed.

Lemma empty_nil (s : str) : empty s = true -> s = [].
Proof. destruct s; [reflexivity | discriminate]. Qed.

Lemma prompt_loop_spec (prompt : str) (fuel : nat) :
  forall (fin out : str) (e : str) (es : list str),
    Forall fit (split_nl fin) ->
    entries_of fin = e :: es ->
    (length fin < fuel)%nat ->
    exists rest,
      Console.prompt_loop fuel prompt []
        {| Console.cin := fin; Console.cout := out |} =
      Console.Returned
        (e, {| Console.cin := rest;
               Console.cout :=
                 out ++ prompt
                 ++ concat (repeat (Console.complaint ++ prompt)
                              (leading_blanks (split_nl fin))) |}) /\
      entries_of rest = es /\
      Forall fit (split_nl rest).
Proof.
  induction fuel as [|fuel IH]; intros fin out e es Hfit He Hfuel; [lia|].
  destruct fin as [|c fin]; [discriminate He|].
  destruct (getline_step c fin Hfit)
    as (line & rest & ls & Eg & Er & Es & Hls & Et & Ee & Hlen).
  cbn [Console.prompt_loop Console.cin Console.cout].
  rewrite Eg, Et. rewrite Es. cbn [leading_blanks].
  pose proof (fit_rest (c :: fin) Hfit) as Hfit'. rewrite <- Er in Hfit'.
  rewrite Ee in He. unfold keep in He.
  destruct (empty (trimmed line)) eqn:Eempty.
  - cbn [app] in He. rewrite (empty_nil _ Eempty).
    destruct Hls as [->|[_ ->]]; [|discriminate He].
    destruct (IH rest ((out ++ prompt) ++ Console.complaint) e es Hfit' He
                ltac:(cbn [length] in Hfuel; lia))
      as (rest' & E & Hes & Hfit'').
    exists rest'. rewrite E. split; [|split; assumption].
    f_equal. f_equal. f_equal. cbn [repeat concat].
    rewrite <- !app_assoc. reflexivity.
  - cbn [app] in He. injection He as <- <-.
    exists rest. cbn [repeat concat]. rewrite app_nil_r.
    split; [reflexivity|]. split; [reflexivity | exact Hfit'].
Qed.

Lemma prompt_loop_blank (prompt : str) (fuel : nat) :
  forall fin out,
    Forall fit (split_nl fin) ->
    entries_of fin = [] ->
    Console.prompt_loop fuel prompt []
      {| Console.cin := fin; Console.cout := out |} = Console.Unfinished.
Proof.
  induction fuel as [|fuel IH]; intros fin out Hfit He; [reflexivity|].
  destruct fin as [|c fin].
  - cbn [Console.prompt_loop Console.cin Console.cout getline].
    change (Console.Trim []) with (Some (@nil ascii)). cbn [empty].
    apply IH; [exact Hfit | reflexivity].
  - destruct (getline_step c fin Hfit)
      as (line & rest & ls & Eg & Er & Es & Hls & Et & Ee & Hlen).
    cbn [Console.prompt_loop Console.cin Console.cout].
    rewrite Eg, Et.
    pose proof (fit_rest (c :: fin) Hfit) as Hfit'. rewrite <- Er in Hfit'.
    rewrite Ee in He. unfold keep in He.
    destruct (empty (trimmed line)) eqn:Eempty; [|discriminate He].
    rewrite (empty_nil _ Eempty). apply IH; [exact Hfit' | exact He].
Qed.

(** X15.  On an input whose lines are all blank, and so on an input
    that has ended, [PromptNonEmptyString] does not return: it asks
    again for ever, whatever fuel it is given. *)
Theorem prompt_never_returns_on_blank_input (prompt fin out : str) :
  lines_fit (Some fin) ->
  entries_of fin = [] ->
  forall fuel,
    Console.PromptNonEmptyString fuel prompt
      {| Console.cin := fin; Console.cout := out |} = Console.Unfinished.
Proof.
  intros Hfit He fuel. apply prompt_loop_blank; assumption.
Qed.

Lemma prompt_never_returns_on_blank_input_witness :
  Console.PromptNonEmptyString 1000 (lit "> ")
    {| Console.cin := [sp; nl; byte 9]; Console.cout := [] |}
  = Console.Unfinished.
Proof.
  apply (prompt_never_returns_on_blank_input (lit "> ") [sp; nl; byte 9] []).
  - repeat constructor.
  - reflexivity.
Defined.

(** ** The flows *)

Lemma prompt_loop_name (prompt : str) (fuel : nat) :
  forall fin out r s',
    Forall fit (split_nl fin) ->
    Console.prompt_loop fuel prompt []
      {| Console.cin := fin; Console.cout := out |} = Console.Returned (r, s') ->
    name r /\ Forall fit (split_nl (Console.cin s')) /\
    exists es, entries_of fin = r :: es.
Proof.
  induction fuel as [|fuel IH]; intros fin out r s' Hfit H; [discriminate H|].
  destruct fin as [|c fin].
  - cbn [Console.prompt_loop Console.cin Console.cout getline] in H.
    change (Console.Trim []) with (Some (@nil ascii)) in H. cbn [empty] in H.
    destruct (IH _ _ _ _ Hfit H) as (_ & _ & es & He). discriminate He.
  - destruct (getline_step c fin Hfit)
      as (line & rest & ls & Eg & Er & Es & Hls & Et & Ee & Hlen).
    cbn [Console.prompt_loop Console.cin Console.cout] in H.
    rewrite Eg, Et in H.
    pose proof (fit_rest (c :: fin) Hfit) as Hfit'. rewrite <- Er in Hfit'.
    pose proof (entries_of_names (c :: fin) Hfit) as Hnames.
    rewrite Ee in *. unfold keep in *.
    destruct (empty (trimmed line)) eqn:Eempty.
    + rewrite (empty_nil _ Eempty) in H.
      destruct (IH _ _ _ _ Hfit' H) as (Hn & Hf & es & He).
      split; [exact Hn|]. split; [exact Hf|]. exists es. exact He.
    + injection H as <- <-. cbn [Console.cin app] in *.
      split; [exact (Forall_inv Hnames)|]. split; [exact Hfit'|].
      eexists. reflexivity.
Qed.

Lemma Pause_fit (s : Console.io) :
  Forall fit (split_nl (Console.cin s)) ->
  Forall fit (split_nl (Console.cin (Console.Pause s))).
Proof. intros H. apply fit_rest. exact H. Qed.

Lemma AddClassFlow_in_sync (fuel : nat) (st st' : Controller.state) :
  Forall fit (split_nl (Console.cin (Controller.console st))) ->
  in_sync (Controller.model st) (Controller.disk st) ->
  Controller.AddClassFlow fuel st = Console.Returned st' ->
  in_sync (Controller.model st') (Controller.disk st') /\
  Forall fit (split_nl (Console.cin (Controller.console st'))) /\
  (NoDup (classes (Controller.model st)) ->
   NoDup (classes (Controller.model st'))) /\
  students (Controller.model st') = students (Controller.model st).
Proof.
  intros Hfit Hsync H.
  destruct st as [m d [fin out]]. cbn [Controller.model Controller.disk
    Controller.console Console.cin] in *.
  unfold Controller.AddClassFlow, Console.PromptNonEmptyString in H.
  cbn [Controller.model Controller.disk Controller.console] in H.
  destruct (Console.prompt_loop fuel (lit "Enter new class name: ") []
              {| Console.cin := fin; Console.cout := out |})
    as [[r s1]| |] eqn:Ep; try discriminate H.
  destruct (prompt_loop_name _ _ _ _ _ _ Hfit Ep) as (Hn & Hf & _).
  pose proof (AddClass_in_sync r m d Hsync Hn) as Hs.
  destruct (in_dec str_dec r (classes m)) as [Hin|Hin].
  - rewrite (AddClass_present r m d Hin) in *. cbn [fst snd] in *.
    injection H as <-. cbn [Controller.model Controller.disk
      Controller.console].
    split; [exact Hs|]. split; [apply Pause_fit; exact Hf|].
    split; [auto | reflexivity].
  - rewrite (AddClass_absent r m d Hin) in *. cbn [fst snd] in *.
    injection H as <-. cbn [Controller.model Controller.disk
      Controller.console classes students].
    split; [exact Hs|]. split; [apply Pause_fit; exact Hf|].
    split; [intros Hnd; apply NoDup_snoc; assumption | reflexivity].
Qed.

Lemma AddStudentFlow_in_sync (fuel : nat) (st st' : Controller.state) :
  Forall fit (split_nl (Console.cin (Controller.console st))) ->
  in_sync (Controller.model st) (Controller.disk st) ->
  Controller.AddStudentFlow fuel st = Console.Returned st' ->
  in_sync (Controller.model st') (Controller.disk st') /\
  Forall fit (split_nl (Console.cin (Controller.console st'))) /\
  (NoDup (students (Controller.model st)) ->
   NoDup (students (Controller.model st'))) /\
  classes (Controller.model st') = classes (Controller.model st).
Proof.
  intros Hfit Hsync H.
  destruct st as [m d [fin out]]. cbn [Controller.model Controller.disk
    Controller.console Console.cin] in *.
  unfold Controller.AddStudentFlow, Console.PromptNonEmptyString in H.
  cbn [Controller.model Controller.disk Controller.console] in H.
  destruct (Console.prompt_loop fuel (lit "Enter new student name: ") []
              {| Console.cin := fin; Console.cout := out |})
    as [[r s1]| |] eqn:Ep; try discriminate H.
  destruct (prompt_loop_name _ _ _ _ _ _ Hfit Ep) as (Hn & Hf & _).
  pose proof (AddStudent_in_sync r m d Hsync Hn) as Hs.
  destruct (in_dec str_dec r (students m)) as [Hin|Hin].
  - rewrite (AddStudent_present r m d Hin) in *. cbn [fst snd] in *.
    injection H as <-. cbn [Controller.model Controller.disk
      Controller.console].
    split; [exact Hs|]. split; [apply Pause_fit; exact Hf|].
    split; [auto | reflexivity].
  - rewrite (AddStudent_absent r m d Hin) in *. cbn [fst snd] in *.
    injection H as <-. cbn [Controller.model Controller.disk
      Controller.console classes students].
    split; [exact Hs|]. split; [apply Pause_fit; exact Hf|].
    split; [intros Hnd; apply NoDup_snoc; assumption | reflexivity].
Qed.

(** X16.  The add flows keep memory and disk in step.  From a state
    where the entries are Names, the files can be written and a restart
    gives the lists in memory, a returning [AddClassFlow] or
    [AddStudentFlow] leads to such a state again, whatever was typed; a
    list without repeated names stays so; and each flow leaves the
    other list as it was. *)
Theorem add_flows_keep_in_sync (fuel : nat) (st st' : Controller.state) :
  lines_fit (Some (Console.cin (Controller.console st))) ->
  in_sync (Controller.model st) (Controller.disk st) ->
  (Controller.AddClassFlow fuel st = Console.Returned st' ->
   in_sync (Controller.model st') (Controller.disk st') /\
   lines_fit (Some (Console.cin (Controller.console st'))) /\
   (NoDup (classes (Controller.model st)) ->
    NoDup (classes (Controller.model st'))) /\
   students (Controller.model st') = students (Controller.model st)) /\
  (Controller.AddStudentFlow fuel st = Console.Returned st' ->
   in_sync (Controller.model st') (Controller.disk st') /\
   lines_fit (Some (Console.cin (Controller.console st'))) /\
   (NoDup (students (Controller.model st)) ->
    NoDup (students (Controller.model st'))) /\
   classes (Controller.model st') = classes (Controller.model st)).
Proof.
  intros Hfit Hsync. cbn [lines_fit] in *. split; intros H.
  - apply (AddClassFlow_in_sync fuel st st' Hfit Hsync H).
  - apply (AddStudentFlow_in_sync fuel st st' Hfit Hsync H).
Qed.

Lemma add_flows_keep_in_sync_witness :
  exists st',
    Controller.AddClassFlow 20 session1 = Console.Returned st' /\
    classes (Controller.model st')
      = [lit "Algebra I"; lit "Art"; lit "Biology"] /\
    in_sync (Controller.model st') (Controller.disk st').
Proof.
  destruct (Controller.AddClassFlow 20 session1) as [st'| |] eqn:E;
    try (vm_compute in E; discriminate E).
  exists st'. split; [reflexivity|]. split.
  - vm_compute in E. injection E as <-. reflexivity.
  - refine (proj1 (proj1 (add_flows_keep_in_sync 20 session1 st' _ _) E)).
    + repeat constructor.
    + exact roster1_in_sync.
Defined.

Lemma mapM_None (A B : Type) (f : A -> option B) (l : list A) (x : A) :
  In x l -> f x = None -> mapM f l = None.
Proof.
  induction l as [|a l IH]; intros Hin Hx; [contradiction|].
  cbn [mapM]. destruct Hin as [->|Hin].
  - rewrite Hx. reflexivity.
  - rewrite (IH Hin Hx). destruct (f a); reflexivity.
Qed.

Lemma mapM_Some (A B : Type) (f : A -> option B) (l : list A) :
  Forall (fun a => exists b, f a = Some b) l ->
  exists bs, mapM f l = Some bs.
Proof.
  induction 1 as [|a l [b Hb] _ [bs IH]]; cbn [mapM].
  - eexists. reflexivity.
  - rewrite Hb, IH. eexists. reflexivity.
Qed.

Lemma DisplayCardsGrid_mapM (cards : list card) :
  DisplayCardsGrid cards = option_map grid (mapM card_rows cards).
Proof.
  unfold DisplayCardsGrid.
  pose proof (grid_loop_spec (S (length cards)) cards [] []
                (Nat.lt_succ_diag_r _)) as E.
  cbn [app length] in E. rewrite E.
  destruct (mapM card_rows cards); reflexivity.
Qed.

Lemma grid_raises_on_long_title (cards : list card) (c : card) :
  In c cards ->
  cardWidth - 2 < size (fst c) <= 2 ^ 32 ->
  DisplayCardsGrid cards = None.
Proof.
  intros Hin Hc. rewrite DisplayCardsGrid_mapM.
  rewrite (mapM_None _ _ card_rows cards c Hin); [reflexivity|].
  unfold card_rows. rewrite (title_line_raises (fst c) Hc).
  destruct (border top_left top_right); reflexivity.
Qed.

Lemma grid_defined (cards : list card) :
  Forall (fun c => size (fst c) <= cardWidth - 2 /\
                   Forall (fun l => size l <= INT_MAX) (firstn 3 (snd c)))
    cards ->
  exists out, DisplayCardsGrid cards = Some out.
Proof.
  intros H. rewrite DisplayCardsGrid_mapM.
  destruct (mapM_Some _ _ card_rows cards) as [rowss E].
  - eapply Forall_impl; [|exact H]. intros [title body] [Ht Hb].
    apply card_rows_defined; assumption.
  - rewrite E. eexists. reflexivity.
Qed.

(** X17.  Viewing depends on the lengths of the names.  When every
    class name has at most [W - 2] = 48 bytes, [ViewClassesFlow]
    returns, with the model and the files as they were and the input
    consumed up to the next newline; when some class name is longer
    (up to 2^32 bytes), it raises, and nothing in the program catches
    it.  [ViewStudentsFlow] does the same with the student names. *)
Theorem view_flows_need_short_names (st : Controller.state) :
  (Forall (fun c => size c <= cardWidth - 2) (classes (Controller.model st)) ->
   exists st',
     Controller.ViewClassesFlow st = Console.Returned st' /\
     Controller.model st' = Controller.model st /\
     Controller.disk st' = Controller.disk st /\
     Console.cin (Controller.console st')
       = Console.ignore_line (Console.cin (Controller.console st))) /\
  (forall c, In c (classes (Controller.model st)) ->
             cardWidth - 2 < size c <= 2 ^ 32 ->
             Controller.ViewClassesFlow st = Console.Raised) /\
  (Forall (fun c => size c <= cardWidth - 2) (students (Controller.model st)) ->
   exists st',
     Controller.ViewStudentsFlow st = Console.Returned st' /\
     Controller.model st' = Controller.model st /\
     Controller.disk st' = Controller.disk st /\
     Console.cin (Controller.console st')
       = Console.ignore_line (Console.cin (Controller.console st))) /\
  (forall c, In c (students (Controller.model st)) ->
             cardWidth - 2 < size c <= 2 ^ 32 ->
             Controller.ViewStudentsFlow st = Console.Raised).
Proof.
  destruct st as [[cs ss] d io]. cbn [Controller.model classes students].
  split; [|split; [|split]].
  - intros H. unfold Controller.ViewClassesFlow.
    cbn [Controller.model Controller.disk Controller.console GetClasses
         classes].
    destruct cs as [|c cs]; [eexists; repeat split|].
    destruct (grid_defined (map Controller.classCard (c :: cs))) as [out E].
    + apply Forall_map. eapply Forall_impl; [|exact H].
      intros x Hx. cbn [Controller.classCard fst snd]. split; [exact Hx|].
      repeat constructor. vm_compute. discriminate.
    + rewrite E. eexists. repeat split.
  - intros c Hin Hc. unfold Controller.ViewClassesFlow.
    cbn [Controller.model GetClasses classes].
    destruct cs as [|c0 cs]; [contradiction|].
    rewrite (grid_raises_on_long_title _ (Controller.classCard c));
      [reflexivity | apply in_map; exact Hin | exact Hc].
  - intros H. unfold Controller.ViewStudentsFlow.
    cbn [Controller.model Controller.disk Controller.console GetStudents
         students].
    destruct ss as [|c ss]; [eexists; repeat split|].
    destruct (grid_defined (map Controller.studentCard (c :: ss))) as [out E].
    + apply Forall_map. eapply Forall_impl; [|exact H].
      intros x Hx. cbn [Controller.studentCard fst snd]. split; [exact Hx|].
      repeat constructor. vm_compute. discriminate.
    + rewrite E. eexists. repeat split.
  - intros c Hin Hc. unfold Controller.ViewStudentsFlow.
    cbn [Controller.model GetStudents students].
    destruct ss as [|c0 ss]; [contradiction|].
    rewrite (grid_raises_on_long_title _ (Controller.studentCard c));
      [reflexivity | apply in_map; exact Hin | exact Hc].
Qed.

Lemma view_flows_need_short_names_witness :
  (exists st',
     Controller.ViewClassesFlow session1 = Console.Returned st' /\
     Controller.model st' = Controller.model session1 /\
     Controller.disk st' = Controller.disk session1 /\
     Console.cin (Controller.console st') = [nl]).
Proof.
  apply (proj1 (view_flows_need_short_names session1)).
  repeat constructor; vm_compute; discriminate.
Defined.

Lemma ViewClassesFlow_raises (st : Controller.state) (c : str) :
  In c (classes (Controller.model st)) ->
  cardWidth - 2 < size c <= 2 ^ 32 ->
  Controller.ViewClassesFlow st = Console.Raised.
Proof.
  intros Hin Hc. unfold Controller.ViewClassesFlow, GetClasses.
  destruct (classes (Controller.model st)) as [|c0 cs];
    [contradiction|].
  rewrite (grid_raises_on_long_title _ (Controller.classCard c));
    [reflexivity | apply in_map; exact Hin | exact Hc].
Qed.

(** X18.  A long class name breaks the class view for good.  When the
    first line typed that is not blank has, once trimmed, more than
    [W - 2] = 48 bytes (and at most 2^32), [AddClassFlow] returns with
    that name among the classes, accepted without complaint about its
    length, and [ViewClassesFlow] raises from then on; the name is in
    the file as well, so a [Model] constructed from the files has it
    too. *)
Theorem long_class_name_breaks_view
    (fuel : nat) (st : Controller.state) (e : str) (es : list str) :
  lines_fit (Some (Console.cin (Controller.console st))) ->
  entries_of (Console.cin (Controller.console st)) = e :: es ->
  (length (Console.cin (Controller.console st)) < fuel)%nat ->
  cardWidth - 2 < size e <= 2 ^ 32 ->
  exists st',
    Controller.AddClassFlow fuel st = Console.Returned st' /\
    In e (classes (Controller.model st')) /\
    Controller.ViewClassesFlow st' = Console.Raised /\
    (in_sync (Controller.model st) (Controller.disk st) ->
     exists m,
       Model.new (Controller.disk st') = Some m /\ In e (classes m) /\
       forall io,
         Controller.ViewClassesFlow
           {| Controller.model := m; Controller.disk := Controller.disk st';
              Controller.console := io |} = Console.Raised).
Proof.
  intros Hfit He Hfuel Hlong. cbn [lines_fit] in Hfit.
  destruct st as [m d [fin out]]. cbn [Controller.model Controller.disk
    Controller.console Console.cin] in *.
  destruct (prompt_loop_spec (lit "Enter new class name: ") fuel fin out e es
              Hfit He Hfuel) as (rest & Ep & _ & _).
  assert (Hname : name e).
  { pose proof (entries_of_names fin Hfit) as Hn. rewrite He in Hn.
    exact (Forall_inv Hn). }
  unfold Controller.AddClassFlow, Console.PromptNonEmptyString.
  cbn [Controller.model Controller.disk Controller.console].
  rewrite Ep.
  assert (Hin : In e (classes (snd (fst (AddClass e m d))))).
  { destruct (in_dec str_dec e (classes m)) as [H|H].
    - rewrite (AddClass_present e m d H). exact H.
    - rewrite (AddClass_absent e m d H). cbn [fst snd classes].
      apply in_or_app. right. left. reflexivity. }
  pose proof (AddClass_in_sync e m d) as Hsync.
  destruct (AddClass e m d) as [[added m1] d1]. cbn [fst snd] in *.
  eexists. split; [reflexivity|].
  cbn [Controller.model Controller.disk].
  split; [exact Hin|].
  split; [apply (ViewClassesFlow_raises _ e); [exact Hin | exact Hlong]|].
  intros Hs. destruct (Hsync Hs Hname) as (_ & _ & _ & _ & Hnew).
  exists m1. split; [exact Hnew|]. split; [exact Hin|].
  intros io. apply (ViewClassesFlow_raises _ e); [exact Hin | exact Hlong].
Qed.

Lemma long_class_name_breaks_view_witness :
  exists st',
    Controller.AddClassFlow 60 session2 = Console.Returned st' /\
    In long_title (classes (Controller.model st')) /\
    Controller.ViewClassesFlow st' = Console.Raised.
Proof.
  destruct (long_class_name_breaks_view 60 session2 long_title [])
    as (st' & E & Hin & Hv & _).
  - repeat constructor.
  - reflexivity.
  - simpl. lia.
  - split; vm_compute; [reflexivity | discriminate].
  - exists st'. split; [exact E|]. split; [exact Hin | exact Hv].
Defined.

(** * Whitespace in the files *)

Lemma strip_left_pad (a n : str) :
  forallb is_space a = true -> first_ok n = true -> strip_left (a ++ n) = n.
Proof.
  intros Ha Hn. induction a as [|c a IH]; cbn [app].
  - destruct n as [|c n]; [discriminate|]. cbn [strip_left first_ok] in *.
    destruct (is_space c); [discriminate | reflexivity].
  - cbn [forallb] in Ha. apply andb_true_iff in Ha. destruct Ha as [Hc Ha].
    cbn [strip_left]. rewrite Hc. exact (IH Ha).
Qed.

Lemma strip_right_spaces (b : str) :
  forallb is_space b = true -> strip_right b = [].
Proof.
  induction b as [|c b IH]; [reflexivity|]. cbn [forallb strip_right].
  intros H. apply andb_true_iff in H. destruct H as [Hc Hb].
  rewrite (IH Hb), Hc. reflexivity.
Qed.

Lemma strip_right_pad (x b : str) :
  forallb is_space b = true -> strip_right (x ++ b) = strip_right x.
Proof.
  intros Hb. induction x as [|c x IH]; cbn [app].
  - rewrite (strip_right_spaces b Hb). reflexivity.
  - cbn [strip_right]. rewrite IH. reflexivity.
Qed.

Lemma first_ok_app (x y : str) : x <> [] -> first_ok (x ++ y) = first_ok x.
Proof. destruct x; [congruence | reflexivity]. Qed.

Lemma trimmed_pad (a n b : str) :
  forallb is_space a = true -> forallb is_space b = true ->
  first_ok n = true -> first_ok (rev n) = true ->
  trimmed (a ++ n ++ b) = n.
Proof.
  intros Ha Hb H1 H2. unfold trimmed.
  rewrite app_assoc, (strip_right_pad (a ++ n) b Hb).
  rewrite strip_right_id.
  - apply strip_left_pad; assumption.
  - rewrite rev_app_distr, first_ok_app; [exact H2|].
    destruct (rev n); [discriminate | congruence].
Qed.

Lemma split_nl_lines (lines : list str) :
  Forall (fun l => ~ In nl l) lines -> split_nl (unlines lines) = lines ++ [[]].
Proof.
  unfold unlines. induction 1 as [|x lines Hnl _ IH]; simpl.
  - reflexivity.
  - rewrite <- app_assoc. simpl. rewrite (split_nl_line _ _ Hnl), IH.
    reflexivity.
Qed.

Lemma split_nl_open (lines : list str) (last : str) :
  Forall (fun l => ~ In nl l) lines -> ~ In nl last ->
  split_nl (unlines lines ++ last) = lines ++ [last].
Proof.
  unfold unlines. intros H Hlast.
  induction H as [|x lines Hnl _ IH]; cbn [map concat app].
  - pose proof (split_nl_spec last) as [_ E].
    clear E. induction last as [|c last IHl]; [reflexivity|].
    cbn [split_nl].
    destruct (Ascii.eqb_spec c nl) as [->|_];
      [exfalso; apply Hlast; left; reflexivity|].
    rewrite IHl by (intros Hin; apply Hlast; right; exact Hin).
    reflexivity.
  - rewrite <- !app_assoc. cbn [app]. rewrite (split_nl_line _ _ Hnl), IH.
    reflexivity.
Qed.

Lemma entries_padded (lines names : list str) :
  Forall2 padded lines names ->
  filter (fun l => negb (empty l)) (map trimmed lines) = names.
Proof.
  induction 1 as [|line n lines names Hp _ IH]; cbn [map filter];
    [reflexivity|].
  destruct Hp as ((H1 & H2 & _ & _) & _ & _ & a & b & -> & Ha & Hb).
  rewrite (trimmed_pad a n b Ha Hb H1 H2).
  destruct n as [|c n]; [discriminate|]. cbn [empty negb].
  rewrite IH. reflexivity.
Qed.

Lemma padded_lines (lines names : list str) :
  Forall2 padded lines names ->
  Forall (fun l => ~ In nl l) lines /\ Forall fit lines.
Proof.
  induction 1 as [|line n lines names (_ & Hnl & Hsz & _) _ [IH1 IH2]].
  - split; constructor.
  - split; constructor; assumption.
Qed.

(** X19.  Whitespace around the entries of a file does not matter, and
    neither does the newline after the last one.  When each line of
    the classes file holds a Name between runs of whitespace (a
    carriage return before the newline, indentation), a [Model]
    constructed from the file has exactly those Names as its classes,
    in the order of the lines, whether or not a last line that holds a
    Name is followed by a newline. *)
Theorem load_ignores_padding
    (d : Disk) (lines names : list str) (last lastname : str) :
  Forall2 padded lines names ->
  padded last lastname ->
  lines_fit (students_txt d) ->
  (classes_txt d = Some (unlines lines) ->
   exists m, Model.new d = Some m /\ classes m = names) /\
  (classes_txt d = Some (unlines lines ++ last) ->
   exists m, Model.new d = Some m /\ classes m = names ++ [lastname]) /\
  (classes_txt d = Some (unlines (lines ++ [last])) ->
   exists m, Model.new d = Some m /\ classes m = names ++ [lastname]).
Proof.
  intros Hp Hl Hs.
  destruct (padded_lines lines names Hp) as [Hnl Hfit].
  pose proof Hl as (_ & Hnl_last & Hfit_last & _).
  assert (Hp' : Forall2 padded (lines ++ [last]) (names ++ [lastname]))
    by (apply Forall2_app; [exact Hp | constructor; [exact Hl | constructor]]).
  destruct (padded_lines _ _ Hp') as [Hnl' Hfit'].
  assert (Hempty : fit []) by reflexivity.
  split; [|split]; intros E; eexists; unfold Model.new.
  - rewrite LoadData_entries; [split; [reflexivity|] | | exact Hs].
    + cbn [classes fresh app]. rewrite E. cbn [entries]. unfold entries_of.
      rewrite (split_nl_lines lines Hnl), map_app, filter_app.
      rewrite (entries_padded lines names Hp). cbn. apply app_nil_r.
    + rewrite E. cbn [lines_fit]. rewrite (split_nl_lines lines Hnl).
      apply Forall_app. split; [exact Hfit | repeat constructor].
  - rewrite LoadData_entries; [split; [reflexivity|] | | exact Hs].
    + cbn [classes fresh app]. rewrite E. cbn [entries]. unfold entries_of.
      rewrite (split_nl_open lines last Hnl Hnl_last).
      apply (entries_padded _ _ Hp').
    + rewrite E. cbn [lines_fit].
      rewrite (split_nl_open lines last Hnl Hnl_last). exact Hfit'.
  - rewrite LoadData_entries; [split; [reflexivity|] | | exact Hs].
    + cbn [classes fresh app]. rewrite E. cbn [entries]. unfold entries_of.
      rewrite (split_nl_lines _ Hnl'), map_app, filter_app.
      rewrite (entries_padded _ _ Hp'). cbn. apply app_nil_r.
    + rewrite E. cbn [lines_fit]. rewrite (split_nl_lines _ Hnl').
      apply Forall_app. split; [exact Hfit' | repeat constructor].
Qed.

Ltac padded_ok a b :=
  split; [name_ok|]; split; [simpl; intuition discriminate|];
  split; [reflexivity|]; exists a, b;
  split; [reflexivity|]; split; reflexivity.

Lemma load_ignores_padding_witness :
  exists m,
    Model.new disk_crlf = Some m /\
    classes m = [lit "Math"; lit "Art"; lit "Biology"].
Proof.
  refine (proj1 (proj2
    (load_ignores_padding disk_crlf
       [lit "Math" ++ [byte 13]; [byte 9] ++ lit "Art" ++ [sp; byte 13]]
       [lit "Math"; lit "Art"] (lit "Biology") (lit "Biology") _ _ _)) _).
  - constructor; [padded_ok (@nil ascii) [byte 13]|].
    constructor; [padded_ok [byte 9] [sp; byte 13] | constructor].
  - padded_ok (@nil ascii) (@nil ascii).
  - exact I.
  - reflexivity.
Defined.

(** * Body lines, the title row and the grid in full *)

(** ** Body lines, in bytes and in columns *)

Lemma width_plain (s : str) : plain s -> printable_width s = length s.
Proof.
  intros H. unfold printable_width, visible.
  pose proof (visible_plain s [] H) as E. rewrite app_nil_r in E.
  rewrite E. cbn [visible_from]. rewrite app_nil_r.
  apply columns_plain. exact H.
Qed.

(** C5, in bytes and within the range of [int].  A body line of a card
    (a card has at most three) of at most [INT_MAX] bytes is rendered
    between the border, a space and the border as follows.  A line
    longer than [W - 3] bytes gives its first [W - 6] bytes followed by
    three dots, [W - 3] bytes in all and no padding; a line of at most
    [W - 3] bytes is rendered whole and padded with spaces on the right
    to [W - 3] bytes.  When the line is printable ASCII, one column a
    byte, the content with its padding occupies exactly [W - 3] columns
    and the row [W]. *)
Theorem body_line_truncated (body : list str) (ln : nat) (line : str) :
  (length body <= 3)%nat ->
  nth_error body ln = Some line ->
  size line <= INT_MAX ->
  exists shown pad,
    content_slot body (Z.of_nat ln) = Some (bar ++ [sp] ++ shown ++ pad ++ bar) /\
    size shown + size pad = cardWidth - 3 /\
    (cardWidth - 3 < size line ->
       shown = firstn (Z.to_nat (cardWidth - 6)) line ++ lit "..." /\
       size (firstn (Z.to_nat (cardWidth - 6)) line) = cardWidth - 6 /\
       pad = []) /\
    (size line <= cardWidth - 3 ->
       shown = line /\
       pad = repeat sp (Z.to_nat (cardWidth - 3 - size line))) /\
    (plain line ->
       Z.of_nat (printable_width (shown ++ pad)) = cardWidth - 3 /\
       Z.of_nat (printable_width (bar ++ [sp] ++ shown ++ pad ++ bar))
         = cardWidth).
Proof.
  intros Hlen Hnth Hmax.
  rewrite (content_slot_present body ln line Hlen Hnth).
  pose proof (size_nonneg line) as H0.
  destruct (Z_lt_le_dec (cardWidth - 3) (size line)) as [Hlong|Hshort].
  - exists (firstn (Z.to_nat (cardWidth - 6)) line ++ lit "..."), [].
    split; [rewrite (content_line_long line Hlong Hmax); reflexivity|].
    pose proof (size_truncated line Hlong) as Hsz.
    change (to_size (cardWidth - 6)) with (cardWidth - 6) in Hsz.
    unfold substr0 in Hsz.
    split; [rewrite Hsz; reflexivity|].
    split; [|split; [intros; lia|]].
    + intros _. split; [reflexivity|]. split; [|reflexivity].
      rewrite size_app in Hsz. change (size (lit "...")) with 3 in Hsz. lia.
    + intros Hp.
      assert (Hshown : plain (firstn (Z.to_nat (cardWidth - 6)) line
                              ++ lit "..."))
        by (apply plain_app; [apply plain_firstn; exact Hp | reflexivity]).
      rewrite app_nil_r. rewrite (width_plain _ Hshown).
      rewrite width_content_row by first [exact Hshown | reflexivity].
      cbn [length]. unfold size in Hsz. unfold cardWidth in *. lia.
  - exists line, (repeat sp (Z.to_nat (cardWidth - 3 - size line))).
    split; [apply content_line_short; exact Hshort|].
    split; [rewrite size_repeat by lia; lia|].
    split; [intros; lia|]. split; [intros _; split; reflexivity|].
    intros Hp.
    assert (Hpad : plain (repeat sp (Z.to_nat (cardWidth - 3 - size line))))
      by (apply plain_repeat; reflexivity).
    rewrite (width_plain _ (plain_app _ _ Hp Hpad)).
    rewrite width_content_row by assumption.
    rewrite length_app, repeat_length. unfold size, cardWidth in *. lia.
Qed.

Lemma body_line_truncated_witness :
  content_slot [lit "short"; long_line] 1 =
    Some (bar ++ [sp] ++ lit "The quick brown fox jumps over the lazy dog,..."
          ++ bar) /\
  printable_width
    (bar ++ [sp] ++ lit "The quick brown fox jumps over the lazy dog,..."
     ++ bar) = 50%nat.
Proof.
  destruct (body_line_truncated [lit "short"; long_line] 1 long_line)
    as (shown & pad & E & _ & Hlong & _ & Hw).
  - simpl. lia.
  - reflexivity.
  - vm_compute. discriminate.
  - destruct Hlong as (-> & _ & ->); [vm_compute; reflexivity|].
    split; [exact E|]. vm_compute. reflexivity.
Defined.

(** C5 as stated fails.  The renderer counts bytes: a line of 24
    characters of two bytes each, no longer than [W - 3] characters,
    has 48 bytes, more than [W - 3]; it is not rendered unmodified but
    cut to its first 44 bytes and three dots, which are 25 characters,
    so the visible content occupies 25 columns, not [W - 3], and the
    row 28, not [W]. *)
Lemma body_line_counts_bytes :
  columns accented = 24%nat /\
  cardWidth - 3 < size accented /\
  content_slot [accented] 0 =
    Some (bar ++ [sp] ++ (firstn 44 accented ++ lit "...") ++ bar) /\
  printable_width (firstn 44 accented ++ lit "...") = 25%nat /\
  option_map printable_width (content_slot [accented] 0) = Some 28%nat.
Proof. repeat split. Qed.

(** ** The title row of the grid and of [DisplayCard] *)

Lemma cardPadding_range (w : Z) (line : str) :
  0 <= cardPadding w line <= INT_MAX.
Proof.
  unfold cardPadding.
  pose proof (to_int_range (to_size (w - 3 - size line))) as R.
  destruct (Z.gtb_spec (to_int (to_size (w - 3 - size line))) 0);
    unfold INT_MAX in *; lia.
Qed.

Lemma card_content_total (w : Z) (lines : list str) :
  forall out,
    card_content w lines out = Some (out ++ concat (map (card_row w) lines)).
Proof.
  induction lines as [|line lines IH]; intros out; cbn [card_content].
  - cbn [map concat]. rewrite app_nil_r. reflexivity.
  - change (if to_int (to_size (w - 3 - size line)) >? 0
            then to_int (to_size (w - 3 - size line)) else 0)
      with (cardPadding w line).
    pose proof (cardPadding_range w line) as R.
    rewrite fill_small by (unfold max_size, INT_MAX in *; lia).
    cbn [bind]. rewrite IH. f_equal. cbn [map concat]. unfold card_row.
    rewrite <- !app_assoc. reflexivity.
Qed.

Lemma card_rows_title (c : card) (rows : list str) :
  card_rows c = Some rows ->
  option_map Some (nth_error rows 1) = Some (title_line (fst c)).
Proof.
  unfold card_rows. intros H.
  repeat match type of H with
         | bind ?m _ = Some _ =>
             destruct m; [cbn [bind] in H | discriminate H]
         end.
  apply Some_inj in H. subst rows. reflexivity.
Qed.

(** C7.  For a title of at most [W - 2] bytes the title row is the
    left border, the left pad, the emphasized title, the right pad and
    the right border, the two pads and the title making up [W - 2]
    columns; the pads are equal when [W - 2] minus the title length is
    even, and the right pad is one space longer when it is odd.  That
    row is the second of the seven rows the grid composes for a card
    with this title.  [DisplayCard] at width [W] computes the same two
    pads and, whatever the lines, raises nothing and writes the top
    border, that same title row, the blank row, one row for every line
    and the bottom border. *)
Theorem title_centered (title : str) :
  size title <= cardWidth - 2 ->
  let left := titlePadLeft title in
  let right := titlePadRight title in
  let row :=
    bar ++ repeat sp (Z.to_nat left) ++ COLOR_BOLD ++ title
    ++ COLOR_RESET ++ repeat sp (Z.to_nat right) ++ bar in
  title_line title = Some row /\
  0 <= left /\ 0 <= right /\
  left + size title + right = cardWidth - 2 /\
  (Z.odd (cardWidth - 2 - size title) = true -> right = left + 1) /\
  (Z.even (cardWidth - 2 - size title) = true -> right = left) /\
  (forall body rows,
     card_rows (title, body) = Some rows -> nth_error rows 1 = Some row) /\
  cardPadLeft cardWidth title = left /\
  cardPadRight cardWidth title = right /\
  (forall lines,
     DisplayCard title lines cardWidth =
       Some ((COLOR_GRAY ++ top_border) ++ nl ::
             (COLOR_RESET ++ row) ++ nl ::
             blank_row ++ nl ::
             concat (map (card_row cardWidth) lines)
             ++ (COLOR_GRAY ++ bottom_border) ++ nl :: COLOR_RESET)).
Proof.
  intros H left right row. subst left right row.
  pose proof (size_nonneg title) as H0.
  pose proof (title_line_fits title H) as Erow.
  split; [exact Erow|].
  destruct (cardPads_fit title H) as [PL PR].
  pose proof (titlePadLeft_fits title H) as EL.
  pose proof (titlePadRight_fits title H) as ER.
  destruct (half_bounds (cardWidth - 2 - size title) ltac:(lia))
    as (B1 & B2 & B3 & B4).
  split; [rewrite EL; exact B1|]. split; [rewrite ER; exact B2|].
  split; [rewrite EL, ER; lia|].
  split; [rewrite EL, ER; exact B3|].
  split; [rewrite EL, ER; exact B4|].
  split.
  { intros body rows Hrows. apply card_rows_title in Hrows.
    cbn [fst] in Hrows. rewrite Erow in Hrows.
    destruct (nth_error rows 1) as [r|]; [|discriminate Hrows].
    cbn [option_map] in Hrows. apply Some_inj in Hrows. exact Hrows. }
  split; [exact PL|]. split; [exact PR|].
  intros lines. unfold DisplayCard. rewrite PL, PR.
  change (fill (to_size (cardWidth - 2)) underscore)
    with (Some (repeat underscore 48)).
  change (fill (to_size (cardWidth - 2)) sp) with (Some (repeat sp 48)).
  assert (cardWidth - 2 - size title <= 48) by (unfold cardWidth in *; lia).
  assert ((cardWidth - 2 - size title) / 2 <= 48)
    by (apply Z.div_le_upper_bound; lia).
  rewrite (fill_ok (titlePadLeft title))
    by (rewrite EL; unfold max_size; lia).
  rewrite (fill_ok (titlePadRight title))
    by (rewrite ER; unfold max_size; lia).
  cbn [bind]. rewrite card_content_total. cbn [bind].
  f_equal. unfold top_border, bottom_border, blank_row.
  rewrite <- !app_assoc. reflexivity.
Qed.

Lemma title_centered_witness :
  size (lit "Math") <= cardWidth - 2 /\
  title_line (lit "Math") =
    Some (bar ++ repeat sp 22 ++ COLOR_BOLD ++ lit "Math" ++ COLOR_RESET
          ++ repeat sp 22 ++ bar) /\
  titlePadLeft (lit "Math") = 22 /\ titlePadRight (lit "Math") = 22 /\
  DisplayCard (lit "Math") [description] cardWidth =
    Some ((COLOR_GRAY ++ top_border) ++ nl ::
          (COLOR_RESET ++ bar ++ repeat sp 22 ++ COLOR_BOLD ++ lit "Math"
           ++ COLOR_RESET ++ repeat sp 22 ++ bar) ++ nl ::
          blank_row ++ nl ::
          (bar ++ [sp] ++ description ++ repeat sp 8 ++ bar) ++ nl ::
          (COLOR_GRAY ++ bottom_border) ++ nl :: COLOR_RESET).
Proof.
  assert (H : size (lit "Math") <= cardWidth - 2) by (vm_compute; discriminate).
  pose proof (title_centered (lit "Math") H) as T. cbv zeta in T.
  destruct T as (E & _ & _ & _ & _ & _ & _ & _ & _ & D).
  split; [exact H|]. split; [exact E|].
  split; [reflexivity|]. split; [reflexivity|].
  rewrite (D [description]). vm_compute. reflexivity.
Defined.

(** ** Titles beyond 2^32 bytes, and a body line beyond [int] *)

Lemma wrapped_pads (title : str) :
  size title = 2 ^ 32 + 50 ->
  titlePadLeft title = INT_MAX /\ titlePadRight title = INT_MAX.
Proof.
  intros H. unfold titlePadRight, titlePadLeft. rewrite H.
  split; reflexivity.
Qed.

Lemma wrapped_title_line (title : str) :
  size title = 2 ^ 32 + 50 ->
  title_line title =
    Some (bar ++ repeat sp (Z.to_nat INT_MAX) ++ COLOR_BOLD ++ title
          ++ COLOR_RESET ++ repeat sp (Z.to_nat INT_MAX) ++ bar).
Proof.
  intros H. destruct (wrapped_pads title H) as [EL ER].
  unfold title_line. rewrite EL, ER.
  rewrite (fill_small INT_MAX sp) by (unfold INT_MAX, max_size; lia).
  reflexivity.
Qed.

Lemma size_giant_title : size giant_title = 2 ^ 32 + 50.
Proof. unfold giant_title. apply size_repeat. lia. Qed.

(** C9 as stated fails.  Rendering is not well-defined only under the
    title-length precondition: a title of 2^32 + 50 bytes is longer
    than [W - 2], yet the two repeat counts, which are the low 32 bits
    of the wrapped unsigned values, are both 2^31 - 1, nonnegative, and
    the grid renders the title row and the card, 2^31 - 1 spaces on
    either side of the whole title, and [DisplayCardsGrid] writes it. *)
Lemma giant_title_renders :
  cardWidth - 2 < size giant_title /\
  titlePadLeft giant_title = INT_MAX /\
  titlePadRight giant_title = INT_MAX /\
  title_line giant_title =
    Some (bar ++ repeat sp (Z.to_nat INT_MAX) ++ COLOR_BOLD ++ giant_title
          ++ COLOR_RESET ++ repeat sp (Z.to_nat INT_MAX) ++ bar) /\
  card_rows (giant_title, []) =
    Some [top_border;
          bar ++ repeat sp (Z.to_nat INT_MAX) ++ COLOR_BOLD ++ giant_title
          ++ COLOR_RESET ++ repeat sp (Z.to_nat INT_MAX) ++ bar;
          blank_row; blank_row; blank_row; blank_row; bottom_border] /\
  DisplayCardsGrid [(giant_title, [])] =
    Some (grid [[top_border;
                 bar ++ repeat sp (Z.to_nat INT_MAX) ++ COLOR_BOLD
                 ++ giant_title ++ COLOR_RESET
                 ++ repeat sp (Z.to_nat INT_MAX) ++ bar;
                 blank_row; blank_row; blank_row; blank_row; bottom_border]]).
Proof.
  pose proof size_giant_title as H.
  destruct (wrapped_pads giant_title H) as [EL ER].
  pose proof (wrapped_title_line giant_title H) as E.
  split; [rewrite H; reflexivity|].
  split; [exact EL|]. split; [exact ER|]. split; [exact E|].
  assert (Erows : card_rows (giant_title, []) =
            Some [top_border;
                  bar ++ repeat sp (Z.to_nat INT_MAX) ++ COLOR_BOLD
                  ++ giant_title ++ COLOR_RESET
                  ++ repeat sp (Z.to_nat INT_MAX) ++ bar;
                  blank_row; blank_row; blank_row; blank_row; bottom_border]).
  { unfold card_rows. cbn [fst snd]. rewrite E.
    change (border top_left top_right) with (Some top_border).
    change (border bottom_left bottom_right) with (Some bottom_border).
    change blank_line with (Some blank_row).
    change (content_slot [] 0) with (Some blank_row).
    change (content_slot [] 1) with (Some blank_row).
    change (content_slot [] 2) with (Some blank_row).
    reflexivity. }
  split; [exact Erows|].
  rewrite DisplayCardsGrid_mapM. cbn [mapM]. rewrite Erows. reflexivity.
Qed.

(** The length test of a body line beyond the range of [int] (see
    [body_line_not_truncated]) takes the card with it: with a title of
    four bytes and one body line of 2^31 bytes the grid composes no
    card, it raises. *)
Lemma card_raises_on_huge_line :
  size (lit "Math") <= cardWidth - 2 /\
  card_rows (lit "Math", [huge_line]) = None.
Proof.
  split; [vm_compute; discriminate|].
  assert (E : content_slot [huge_line] 0 = None).
  { unfold content_slot.
    replace (0 <? to_int (Z.of_nat (length [huge_line]))) with true
      by reflexivity.
    change (nth (Z.to_nat 0) [huge_line] []) with huge_line.
    apply content_line_overflow. exact size_huge_line. }
  unfold card_rows. cbn [fst snd]. rewrite E.
  destruct (border top_left top_right); [cbn [bind]|reflexivity].
  destruct (title_line (lit "Math")); [cbn [bind]|reflexivity].
  destruct blank_line; reflexivity.
Qed.

(** ** The grid, group by group *)

Lemma mapM_Forall2 (A B : Type) (f : A -> option B) (l : list A) :
  forall bs, mapM f l = Some bs -> Forall2 (fun a b => f a = Some b) l bs.
Proof.
  induction l as [|a l IH]; intros bs H; cbn [mapM] in H.
  - apply Some_inj in H. subst bs. constructor.
  - destruct (f a) as [b|] eqn:Ea; cbn [bind] in H; [|discriminate H].
    destruct (mapM f l) as [bs'|]; cbn [bind] in H; [|discriminate H].
    apply Some_inj in H. subst bs.
    constructor; [exact Ea | apply IH; reflexivity].
Qed.

Lemma whole_groups_all (cards : list card) :
  forall rowss,
    mapM card_rows cards = Some rowss ->
    whole_groups (pairs cards) = (pairs rowss, true).
Proof.
  induction cards as [|a|a b cards IH] using pairs_ind; intros rowss H;
    cbn [mapM] in H.
  - apply Some_inj in H. subst rowss. reflexivity.
  - destruct (card_rows a) as [ra|] eqn:Ea; cbn [bind] in H; [|discriminate H].
    apply Some_inj in H. subst rowss.
    cbn [pairs whole_groups mapM]. rewrite Ea. reflexivity.
  - destruct (card_rows a) as [ra|] eqn:Ea; cbn [bind] in H; [|discriminate H].
    destruct (card_rows b) as [rb|] eqn:Eb; cbn [bind] in H; [|discriminate H].
    destruct (mapM card_rows cards) as [rs|]; cbn [bind] in H;
      [|discriminate H].
    apply Some_inj in H. subst rowss.
    cbn [pairs whole_groups mapM]. rewrite Ea, Eb. cbn [bind].
    rewrite (IH rs eq_refl). reflexivity.
Qed.

Lemma half_step (k : nat) : (2 * (S (S k) / 2) = S (S (2 * (k / 2))))%nat.
Proof.
  replace (S (S k)) with (k + 1 * 2)%nat by lia.
  rewrite Nat.div_add by discriminate. lia.
Qed.

Lemma whole_groups_first_failure (cards : list card) :
  forall k c,
    nth_error cards k = Some c -> card_rows c = None ->
    (forall j c', (j < k)%nat -> nth_error cards j = Some c' ->
                  card_rows c' <> None) ->
    exists rowss,
      mapM card_rows (firstn (2 * (k / 2)) cards) = Some rowss /\
      whole_groups (pairs cards) = (pairs rowss, false).
Proof.
  induction cards as [|a|a b cards IH] using pairs_ind;
    intros k c Hk Hc Hprev.
  - destruct k; discriminate Hk.
  - destruct k as [|k]; [|destruct k; discriminate Hk].
    cbn [nth_error] in Hk. apply Some_inj in Hk. subst c.
    exists []. split; [reflexivity|].
    cbn [pairs whole_groups mapM]. rewrite Hc. reflexivity.
  - destruct k as [|[|k]].
    + cbn [nth_error] in Hk. apply Some_inj in Hk. subst c.
      exists []. split; [reflexivity|].
      cbn [pairs whole_groups mapM]. rewrite Hc. reflexivity.
    + cbn [nth_error] in Hk. apply Some_inj in Hk. subst c.
      exists []. split; [reflexivity|].
      cbn [pairs whole_groups mapM]. rewrite Hc.
      destruct (card_rows a); reflexivity.
    + destruct (card_rows a) as [ra|] eqn:Ea;
        [|exfalso; apply (Hprev 0%nat a); [lia | reflexivity | exact Ea]].
      destruct (card_rows b) as [rb|] eqn:Eb;
        [|exfalso; apply (Hprev 1%nat b); [lia | reflexivity | exact Eb]].
      destruct (IH k c Hk Hc) as (rowss & Em & Ew).
      { intros j c' Hj Hn. apply (Hprev (S (S j)) c'); [lia | exact Hn]. }
      exists (ra :: rb :: rowss). rewrite half_step.
      cbn [firstn mapM pairs whole_groups]. rewrite Ea, Eb, Em. cbn [bind].
      rewrite Ew. split; reflexivity.
Qed.

Lemma grid_loop_written_done (fuel : nat) (cards : list card) (i : nat)
    (out : str) :
  (0 < fuel)%nat -> (length cards <= i)%nat ->
  grid_loop_written fuel cards i out = Some (out, true).
Proof.
  intros Hf Hi. destruct fuel as [|fuel]; [lia|]. cbn [grid_loop_written].
  destruct (Nat.ltb_spec i (length cards)); [lia | reflexivity].
Qed.

Lemma grid_loop_written_spec (fuel : nat) :
  forall (rest pre : list card) (out : str),
    (length rest < fuel)%nat ->
    grid_loop_written fuel (pre ++ rest) (length pre) out =
    Some (out ++ grid_of_groups (fst (whole_groups (pairs rest))),
          snd (whole_groups (pairs rest))).
Proof.
  induction fuel as [|fuel IH]; intros rest pre out Hfuel; [lia|].
  destruct rest as [|a [|b rest]].
  - rewrite grid_loop_written_done by (rewrite ?app_nil_r; lia).
    cbn. rewrite app_nil_r. reflexivity.
  - cbn [grid_loop_written]. rewrite length_app. cbn [length].
    destruct (Nat.ltb_spec (length pre) (length pre + 1)) as [_|]; [|lia].
    unfold cardsPerRow. cbn [compose].
    rewrite !nth_error_here. cbn [nth_error pairs whole_groups mapM].
    destruct (card_rows a) as [ra|] eqn:Ea; cbn [bind fst snd].
    + rewrite grid_loop_written_done
        by (rewrite ?length_app; cbn [length] in *; lia).
      rewrite (print_one ra out (card_rows_length a ra Ea)).
      unfold grid_of_groups, group_block. cbn [map concat].
      rewrite <- !app_assoc. rewrite ?app_nil_r. reflexivity.
    + unfold grid_of_groups. cbn [map concat]. rewrite app_nil_r.
      reflexivity.
  - cbn [grid_loop_written]. rewrite length_app. cbn [length].
    destruct (Nat.ltb_spec (length pre) (length pre + S (S (length rest))))
      as [_|]; [|lia].
    unfold cardsPerRow. cbn [compose].
    rewrite !nth_error_here. cbn [nth_error pairs whole_groups mapM].
    destruct (card_rows a) as [ra|] eqn:Ea; cbn [bind fst snd];
      [|unfold grid_of_groups; cbn [map concat]; rewrite app_nil_r;
        reflexivity].
    destruct (card_rows b) as [rb|] eqn:Eb; cbn [bind fst snd];
      [|unfold grid_of_groups; cbn [map concat]; rewrite app_nil_r;
        reflexivity].
    replace (pre ++ a :: b :: rest) with ((pre ++ [a; b]) ++ rest)
      by (rewrite <- app_assoc; reflexivity).
    replace (length pre + 2)%nat with (length (pre ++ [a; b]))
      by (rewrite length_app; reflexivity).
    rewrite IH by (cbn [length] in Hfuel; lia).
    rewrite (print_two ra rb out (card_rows_length a ra Ea)
               (card_rows_length b rb Eb)).
    destruct (whole_groups (pairs rest)) as [done all]. cbn [fst snd].
    unfold grid_of_groups, group_block. cbn [map concat].
    rewrite <- !app_assoc. reflexivity.
Qed.

Lemma DisplayCardsGrid_written_spec (cards : list card) :
  DisplayCardsGrid_written cards =
    Some (grid_of_groups (fst (whole_groups (pairs cards))),
          snd (whole_groups (pairs cards))).
Proof.
  unfold DisplayCardsGrid_written.
  pose proof (grid_loop_written_spec (S (length cards)) cards [] []
                (Nat.lt_succ_diag_r _)) as E.
  cbn [app length] in E. exact E.
Qed.

Lemma one_line_firstn (n : nat) (s : str) : one_line s -> one_line (firstn n s).
Proof.
  unfold one_line. revert n. induction s as [|c s IH]; intros n H.
  - rewrite firstn_nil. reflexivity.
  - destruct n as [|n]; [reflexivity|]. cbn [firstn forallb] in *.
    apply andb_true_iff in H. destruct H as [Hc Hs].
    rewrite Hc, (IH n Hs). reflexivity.
Qed.

Lemma fill_one_line (n : Z) (s : str) : fill n sp = Some s -> one_line s.
Proof.
  unfold fill. destruct (n <=? max_size); intros H; [|discriminate H].
  apply Some_inj in H. subst s. apply one_line_repeat. reflexivity.
Qed.

Lemma title_line_one_line (title row : str) :
  one_line title -> title_line title = Some row -> one_line row.
Proof.
  intros Ht H. unfold title_line in H.
  destruct (fill (to_size (titlePadLeft title)) sp) as [left|] eqn:EL;
    cbn [bind] in H; [|discriminate H].
  destruct (fill (to_size (titlePadRight title)) sp) as [right|] eqn:ER;
    cbn [bind] in H; [|discriminate H].
  apply Some_inj in H. subst row.
  apply one_line_title_row;
    [eapply fill_one_line; exact EL | exact Ht | eapply fill_one_line; exact ER].
Qed.

Lemma content_line_one_line (line row : str) :
  one_line line -> content_line line = Some row -> one_line row.
Proof.
  intros Hl H. unfold content_line in H. cbv zeta in H.
  match type of H with
  | bind (fill ?n sp) _ = _ => destruct (fill n sp) as [pad|] eqn:EP
  end; cbn [bind] in H; [|discriminate H].
  apply Some_inj in H. subst row.
  apply one_line_content_row; [|eapply fill_one_line; exact EP].
  destruct (to_int (size line) >? cardWidth - 3); [|exact Hl].
  apply one_line_app; [|reflexivity].
  unfold substr0. apply one_line_firstn. exact Hl.
Qed.

Lemma nth_one_line (body : list str) (k : nat) :
  (k < 3)%nat -> Forall one_line (firstn 3 body) -> one_line (nth k body []).
Proof.
  intros Hk H. destruct (Nat.lt_ge_cases k (length body)) as [Hl|Hl].
  - rewrite Forall_forall in H. apply H. apply nth_in_firstn3; assumption.
  - rewrite nth_overflow by exact Hl. reflexivity.
Qed.

Lemma content_slot_one_line (body : list str) (ln : Z) (row : str) :
  0 <= ln < contentLines ->
  Forall one_line (firstn 3 body) ->
  content_slot body ln = Some row -> one_line row.
Proof.
  intros Hln Hb H. unfold content_slot in H.
  destruct (ln <? to_int (Z.of_nat (length body))).
  - apply (content_line_one_line (nth (Z.to_nat ln) body []) row);
      [|exact H].
    apply nth_one_line; [unfold contentLines in Hln; lia | exact Hb].
  - change blank_line with (Some blank_row) in H.
    apply Some_inj in H. subst row. reflexivity.
Qed.

Lemma card_rows_one_line (c : card) (rows : list str) :
  one_line_card c -> card_rows c = Some rows -> Forall one_line rows.
Proof.
  intros [Ht Hb] H. unfold card_rows in H.
  change (border top_left top_right) with (Some top_border) in H.
  change (border bottom_left bottom_right) with (Some bottom_border) in H.
  change blank_line with (Some blank_row) in H.
  cbn [bind] in H.
  destruct (title_line (fst c)) as [l1|] eqn:E1; cbn [bind] in H;
    [|discriminate H].
  destruct (content_slot (snd c) 0) as [l3|] eqn:E3; cbn [bind] in H;
    [|discriminate H].
  destruct (content_slot (snd c) 1) as [l4|] eqn:E4; cbn [bind] in H;
    [|discriminate H].
  destruct (content_slot (snd c) 2) as [l5|] eqn:E5; cbn [bind] in H;
    [|discriminate H].
  apply Some_inj in H. subst rows.
  assert (H3 : forall ln row,
             0 <= ln < contentLines ->
             content_slot (snd c) ln = Some row -> one_line row)
    by (intros ln row Hln E;
        exact (content_slot_one_line (snd c) ln row Hln Hb E)).
  constructor; [reflexivity|].
  constructor; [exact (title_line_one_line (fst c) l1 Ht E1)|].
  constructor; [reflexivity|].
  constructor; [apply (H3 0 l3); [unfold contentLines; lia | exact E3]|].
  constructor; [apply (H3 1 l4); [unfold contentLines; lia | exact E4]|].
  constructor; [apply (H3 2 l5); [unfold contentLines; lia | exact E5]|].
  constructor; [reflexivity | constructor].
Qed.

Lemma side_by_side_one_line (gutter : str) (cells : list str) :
  one_line gutter -> Forall one_line cells ->
  one_line (side_by_side gutter cells).
Proof.
  intros Hg H. induction H as [|c cells Hc Hcs IH]; [reflexivity|].
  destruct cells as [|c' cells']; [exact Hc|].
  change (side_by_side gutter (c :: c' :: cells'))
    with (c ++ gutter ++ side_by_side gutter (c' :: cells')).
  apply one_line_app; [exact Hc|]. apply one_line_app; [exact Hg | exact IH].
Qed.

Lemma group_lines_one_line (group : list (list str)) :
  Forall (Forall one_line) group -> Forall one_line (group_lines group).
Proof.
  intros H. unfold group_lines. apply Forall_map. apply Forall_forall.
  intros k _. unfold group_line.
  apply side_by_side_one_line; [reflexivity|].
  apply Forall_map. eapply Forall_impl; [|exact H].
  intros rows Hrows. cbn beta. unfold colored.
  apply one_line_app; [reflexivity|]. apply one_line_app; [|reflexivity].
  destruct (Nat.lt_ge_cases k (length rows)) as [Hl|Hl].
  - rewrite Forall_forall in Hrows. apply Hrows. apply nth_In. exact Hl.
  - rewrite nth_overflow by exact Hl. reflexivity.
Qed.

Lemma rows_of_blocks (groups : list (list (list str))) :
  Forall (Forall (Forall one_line)) groups ->
  rows_of (grid_of_groups groups) =
  concat (map (fun g => group_lines g ++ [[]]) groups).
Proof.
  unfold grid_of_groups.
  induction 1 as [|g groups Hg _ IH]; cbn [map concat]; [reflexivity|].
  rewrite (rows_of_group g _ (group_lines_one_line g Hg)), IH.
  rewrite <- app_assoc. reflexivity.
Qed.

Lemma pairs_Forall (A : Type) (P : A -> Prop) (l : list A) :
  Forall P l -> Forall (Forall P) (pairs l).
Proof.
  induction l as [|a|a b l IH] using pairs_ind; intros H; cbn [pairs].
  - constructor.
  - constructor; [exact H | constructor].
  - inversion H as [|? ? Ha H']; subst. inversion H' as [|? ? Hb H'']; subst.
    constructor; [constructor; [exact Ha | constructor; [exact Hb | constructor]]|].
    apply IH. exact H''.
Qed.

Lemma rows_one_line (cards : list card) (rowss : list (list str)) :
  Forall one_line_card cards ->
  Forall2 (fun c rows => card_rows c = Some rows) cards rowss ->
  Forall (Forall one_line) rowss.
Proof.
  intros H F. induction F as [|c rows cards rowss E _ IH]; [constructor|].
  inversion H as [|? ? Hc H']; subst.
  constructor; [exact (card_rows_one_line c rows Hc E) | apply IH; exact H'].
Qed.

Lemma rows_seven (cards : list card) (rowss : list (list str)) :
  Forall2 (fun c rows => card_rows c = Some rows) cards rowss ->
  length rowss = length cards /\
  Forall (fun rows => length rows = 7%nat) rowss.
Proof.
  induction 1 as [|c rows cards rowss E _ [IHl IHf]];
    [split; [reflexivity | constructor]|].
  split; [cbn [length]; rewrite IHl; reflexivity|].
  constructor; [exact (card_rows_length c rows E) | exact IHf].
Qed.

(** C6, for the cards the grid can compose.  When composing no card
    raises, [DisplayCardsGrid] raises nothing and writes the grid of
    the cards' rows, one list of seven rows for each card, in input
    order: the cards taken two at a time; for each group seven lines,
    line [k] being row [k] of the first card and, after four spaces,
    row [k] of the second, each row between the gray and the reset
    sequence; one empty line after the lines of each group, so exactly
    one between consecutive groups; and for a last single card seven
    lines that hold its rows alone.  When no title and none of the
    first three body lines holds a newline, the lines of the output
    are exactly these, eight for each group.  Composing raises for no
    card whose title has at most [W - 2] bytes and whose first three
    body lines have at most [INT_MAX] bytes each; it raises for every
    card whose title has more than [W - 2] and at most 2^32 bytes.
    When composing raises, at card [k] first, the call raises after it
    has written the groups of the cards before the group of card [k],
    and nothing of that group or of a later one. *)
Theorem grid_layout (cards : list card) :
  (forall rowss,
     mapM card_rows cards = Some rowss ->
     DisplayCardsGrid cards = Some (grid rowss) /\
     DisplayCardsGrid_written cards = Some (grid rowss, true) /\
     length rowss = length cards /\
     Forall (fun rows => length rows = 7%nat) rowss /\
     (Forall one_line_card cards ->
      rows_of (grid rowss) =
        concat (map (fun g => group_lines g ++ [[]]) (pairs rowss)))) /\
  (Forall renders cards -> exists rowss, mapM card_rows cards = Some rowss) /\
  (forall c,
     In c cards -> cardWidth - 2 < size (fst c) <= 2 ^ 32 ->
     card_rows c = None /\ DisplayCardsGrid cards = None) /\
  (forall k c,
     nth_error cards k = Some c -> card_rows c = None ->
     (forall j c', (j < k)%nat -> nth_error cards j = Some c' ->
                   card_rows c' <> None) ->
     exists rowss,
       mapM card_rows (firstn (2 * (k / 2)) cards) = Some rowss /\
       DisplayCardsGrid_written cards = Some (grid rowss, false) /\
       DisplayCardsGrid cards = None) /\
  grid [] = [] /\
  (forall ra, grid [ra] = unlines (group_lines [ra]) ++ [nl]) /\
  (forall ra rb rowss,
     grid (ra :: rb :: rowss) =
       unlines (group_lines [ra; rb]) ++ [nl] ++ grid rowss) /\
  (forall group, length (group_lines group) = 7%nat) /\
  (forall ra k, group_line [ra] k = colored (nth k ra [])) /\
  (forall ra rb k,
     group_line [ra; rb] k =
       colored (nth k ra []) ++ lit "    " ++ colored (nth k rb [])).
Proof.
  split.
  { intros rowss E.
    pose proof (mapM_Forall2 _ _ card_rows cards rowss E) as F.
    destruct (rows_seven cards rowss F) as [Hlen H7].
    split; [rewrite DisplayCardsGrid_mapM, E; reflexivity|].
    split; [rewrite DisplayCardsGrid_written_spec,
              (whole_groups_all cards rowss E); reflexivity|].
    split; [exact Hlen|]. split; [exact H7|].
    intros Hone. apply (rows_of_blocks (pairs rowss)).
    apply pairs_Forall. exact (rows_one_line cards rowss Hone F). }
  split.
  { intros H. apply mapM_Some. eapply Forall_impl; [|exact H].
    intros [title body] [Ht Hb]. apply card_rows_defined; assumption. }
  split.
  { intros c Hin Hc.
    split; [|exact (grid_raises_on_long_title cards c Hin Hc)].
    unfold card_rows. rewrite (title_line_raises (fst c) Hc).
    destruct (border top_left top_right); reflexivity. }
  split.
  { intros k c Hk Hc Hprev.
    destruct (whole_groups_first_failure cards k c Hk Hc Hprev)
      as (rowss & Em & Ew).
    exists rowss. split; [exact Em|].
    split; [rewrite DisplayCardsGrid_written_spec, Ew; reflexivity|].
    rewrite DisplayCardsGrid_mapM,
      (mapM_None _ _ card_rows cards c (nth_error_In cards k Hk) Hc).
    reflexivity. }
  split; [reflexivity|].
  split; [intros ra; unfold grid, group_block; cbn [pairs map concat];
          rewrite app_nil_r; reflexivity|].
  split; [intros ra rb rowss; unfold grid, group_block;
          cbn [pairs map concat]; rewrite <- app_assoc; reflexivity|].
  split; [reflexivity|]. split; reflexivity.
Qed.

Lemma grid_layout_witness :
  Forall renders three_classes /\
  option_map rows_of (DisplayCardsGrid three_classes) =
    option_map
      (fun rowss => concat (map (fun g => group_lines g ++ [[]]) (pairs rowss)))
      (mapM card_rows three_classes) /\
  option_map (fun out => length (rows_of out)) (DisplayCardsGrid three_classes)
    = Some 16%nat.
Proof.
  assert (R : Forall renders three_classes)
    by (repeat constructor; vm_compute; discriminate).
  assert (O : Forall one_line_card three_classes)
    by (repeat constructor).
  destruct (grid_layout three_classes) as (Hall & Hdef & _).
  destruct (Hdef R) as (rowss & E).
  destruct (Hall rowss E) as (ED & _ & _ & _ & Hrows).
  split; [exact R|].
  rewrite ED, E. cbn [option_map]. rewrite (Hrows O).
  split; [reflexivity|].
  vm_compute in E. apply Some_inj in E. subst rowss. reflexivity.
Defined.

(** C6 as stated fails.  Of four cards the fourth of which has a title
    of 49 bytes, the first group is written, eight lines, and then the
    call raises: the second group gets no line at all. *)
Lemma grid_raises_midway :
  DisplayCardsGrid four_cards = None /\
  DisplayCardsGrid_written four_cards =
    option_map (fun out => (out, false))
      (DisplayCardsGrid (firstn 2 four_cards)) /\
  option_map (fun out => length (rows_of out))
    (DisplayCardsGrid (firstn 2 four_cards)) = Some 8%nat.
Proof. vm_compute. repeat split. Qed.

(** ** The input that [PromptNonEmptyString] leaves *)

Lemma after_lines_next (k : nat) (fin : str) :
  after_lines (S k) fin = after_lines k (Console.ignore_line fin).
Proof. unfold after_lines. apply Nat.iter_succ_r. Qed.

Lemma first_entry_line (ls : list str) (e : str) (es : list str) :
  filter (fun l => negb (empty l)) (map trimmed ls) = e :: es ->
  e = trimmed (nth (leading_blanks ls) ls []).
Proof.
  induction ls as [|l ls IH]; intros H; [discriminate H|].
  cbn [map filter leading_blanks] in *.
  destruct (empty (trimmed l)); cbn [negb] in H.
  - cbn [nth]. apply IH. exact H.
  - cbn [nth]. congruence.
Qed.

Lemma prompt_loop_rest (prompt : str) (fuel : nat) :
  forall (fin out : str) (e : str) (es : list str),
    Forall fit (split_nl fin) ->
    entries_of fin = e :: es ->
    (length fin < fuel)%nat ->
    Console.prompt_loop fuel prompt []
      {| Console.cin := fin; Console.cout := out |} =
    Console.Returned
      (e, {| Console.cin :=
               after_lines (S (leading_blanks (split_nl fin))) fin;
             Console.cout :=
               out ++ prompt
               ++ concat (repeat (Console.complaint ++ prompt)
                            (leading_blanks (split_nl fin))) |}).
Proof.
  induction fuel as [|fuel IH]; intros fin out e es Hfit He Hfuel; [lia|].
  destruct fin as [|c fin]; [discriminate He|].
  destruct (getline_step c fin Hfit)
    as (line & rest & ls & Eg & Er & Es & Hls & Et & Ee & Hlen).
  cbn [Console.prompt_loop Console.cin Console.cout].
  rewrite Eg, Et. rewrite Es. cbn [leading_blanks].
  pose proof (fit_rest (c :: fin) Hfit) as Hfit'. rewrite <- Er in Hfit'.
  rewrite Ee in He. unfold keep in He.
  destruct (empty (trimmed line)) eqn:Eempty.
  - cbn [app] in He. rewrite (empty_nil _ Eempty).
    destruct Hls as [->|[_ ->]]; [|discriminate He].
    rewrite (IH rest ((out ++ prompt) ++ Console.complaint) e es Hfit' He
               ltac:(cbn [length] in Hfuel; lia)).
    rewrite (after_lines_next (S (leading_blanks (split_nl rest))) (c :: fin)).
    unfold Console.ignore_line. rewrite <- Er.
    f_equal. f_equal. f_equal. cbn [repeat concat].
    rewrite <- !app_assoc. reflexivity.
  - cbn [app] in He. injection He as <- <-.
    rewrite (after_lines_next 0 (c :: fin)).
    unfold Console.ignore_line. rewrite <- Er.
    cbn [repeat concat]. rewrite app_nil_r. reflexivity.
Qed.

(** X14.  [PromptNonEmptyString] returns the first line of the input
    that is not blank, trimmed; the result is a Name.  Before it the
    prompt is written once, and the complaint and the prompt once more
    for every blank line that came first.  The input that is left is
    the input after these blank lines and the returned line have been
    read, each up to and including its newline; the entries still to
    come are those after the one returned. *)
Theorem prompt_returns_first_entry
    (prompt fin out e : str) (es : list str) (fuel : nat) :
  lines_fit (Some fin) ->
  entries_of fin = e :: es ->
  (length fin < fuel)%nat ->
  let blanks := leading_blanks (split_nl fin) in
  let rest := after_lines (S blanks) fin in
  Console.PromptNonEmptyString fuel prompt
    {| Console.cin := fin; Console.cout := out |} =
  Console.Returned
    (e, {| Console.cin := rest;
           Console.cout :=
             out ++ prompt
             ++ concat (repeat (Console.complaint ++ prompt) blanks) |}) /\
  e = trimmed (nth blanks (split_nl fin) []) /\
  entries_of rest = es /\
  name e.
Proof.
  intros Hfit He Hfuel blanks rest. subst blanks rest.
  cbn [lines_fit] in Hfit.
  pose proof (prompt_loop_rest prompt fuel fin out e es Hfit He Hfuel) as E.
  destruct (prompt_loop_spec prompt fuel fin out e es Hfit He Hfuel)
    as (rest & E' & Hes & _).
  split; [exact E|].
  split; [apply (first_entry_line (split_nl fin) e es); exact He|].
  split.
  - rewrite E in E'. injection E' as <-. exact Hes.
  - pose proof (entries_of_names fin Hfit) as Hn. rewrite He in Hn.
    exact (Forall_inv Hn).
Qed.

Lemma prompt_returns_first_entry_witness :
  Console.PromptNonEmptyString 30 (lit "> ")
    {| Console.cin := [sp; nl; nl] ++ lit " Art " ++ [nl; nl] ++ lit "x";
       Console.cout := [] |} =
  Console.Returned
    (lit "Art",
     {| Console.cin := nl :: lit "x";
        Console.cout :=
          lit "> " ++ Console.complaint ++ lit "> " ++ Console.complaint
          ++ lit "> " |}).
Proof.
  pose proof (prompt_returns_first_entry (lit "> ")
                ([sp; nl; nl] ++ lit " Art " ++ [nl; nl] ++ lit "x") []
                (lit "Art") [lit "x"] 30) as T.
  cbv zeta in T. destruct T as (E & _).
  - repeat constructor.
  - reflexivity.
  - simpl. lia.
  - rewrite E. reflexivity.
Defined.
